(** * The widget asset build pipeline ([web/scripts/build-widget-assets.js])

    A shallow embedding of the build script and the properties of it that the
    specification states.

    Conventions of the embedding.
    - A JavaScript string is a [string]: a sequence of code units below 256
      (the Latin-1 range), which is where every character class and case
      mapping used by the script is decided.
    - A path is the list of its components below the file-system root: the
      script only ever builds paths with [path.join], [path.resolve] and
      [path.dirname] from an absolute directory and names read from a
      directory listing, so every path it handles is normalized.
    - The file system is a finite tree; a directory is an association list
      whose bindings (first occurrence of a name) are its entries, in listing
      order.
    - The bundler ([vite]'s [build] and [loadConfigFromFile]) and
      [JSON.stringify] are parameters of the development. *)

From Stdlib Require Import String Ascii List Bool Arith Lia Permutation.
Import ListNotations.
Open Scope string_scope.
Open Scope list_scope.

(* ===================================================================== *)
(** ** JavaScript strings *)
(* ===================================================================== *)

Module JsString.

(** [s.startsWith(p)] *)
Definition startsWith (s p : string) : bool := String.prefix p s.

(** The rest of [s] after the prefix [p], when [s] starts with [p]. *)
Fixpoint strip_prefix (p s : string) : option string :=
  match p, s with
  | EmptyString, _ => Some s
  | String a p', String b s' => if Ascii.eqb a b then strip_prefix p' s' else None
  | String _ _, EmptyString => None
  end.

(** Code units between [lo] and [hi], bounds included. *)
Definition in_range (lo hi : nat) (c : ascii) : bool :=
  ((lo <=? nat_of_ascii c) && (nat_of_ascii c <=? hi))%nat.

(** [String.prototype.toLowerCase] on one code unit below 256: the ASCII
    capitals and the Latin-1 capitals U+00C0..U+00DE (U+00D7, the
    multiplication sign, is not a letter) move up by 32. *)
Definition lower_char (c : ascii) : ascii :=
  if in_range 65 90 c then ascii_of_nat (nat_of_ascii c + 32)
  else if in_range 192 222 c && negb (nat_of_ascii c =? 215)%nat
       then ascii_of_nat (nat_of_ascii c + 32)
  else c.

Fixpoint toLowerCase (s : string) : string :=
  match s with
  | EmptyString => EmptyString
  | String c s' => String (lower_char c) (toLowerCase s')
  end.

(** The [Canonicalize] operation of a regular expression with the [i] flag
    and without the [u] flag, on one code unit below 256: the upper-case
    mapping, kept only when it is a single code unit and does not send a
    non-ASCII character to an ASCII one.  U+00B5, U+00DF and U+00FF have no
    such image below 256 and stay as they are, as does U+00F7. *)
Definition canonicalize (c : ascii) : ascii :=
  if in_range 97 122 c then ascii_of_nat (nat_of_ascii c - 32)
  else if in_range 224 254 c && negb (nat_of_ascii c =? 247)%nat
       then ascii_of_nat (nat_of_ascii c - 32)
  else c.

(** The class [\s]: TAB, LF, VT, FF, CR, SPACE and U+00A0. *)
Definition is_space (c : ascii) : bool :=
  in_range 9 13 c || (nat_of_ascii c =? 32)%nat || (nat_of_ascii c =? 160)%nat.

(** The class of the two quote characters, apostrophe and double quote. *)
Definition is_quote (c : ascii) : bool :=
  (nat_of_ascii c =? 39)%nat || (nat_of_ascii c =? 34)%nat.

(** The complement class: any character that is not a quote. *)
Definition not_quote (c : ascii) : bool := negb (is_quote c).

(** Every character of [s] satisfies [p]. *)
Fixpoint all_chars (p : ascii -> bool) (s : string) : bool :=
  match s with
  | EmptyString => true
  | String c s' => p c && all_chars p s'
  end.

(** [s.replace(/\r\n/g, '\n')] *)
Fixpoint replace_crlf (s : string) : string :=
  match s with
  | EmptyString => EmptyString
  | String c s' =>
      match s' with
      | String d s'' =>
          if (nat_of_ascii c =? 13)%nat && (nat_of_ascii d =? 10)%nat
          then String d (replace_crlf s'')
          else String c (replace_crlf s')
      | EmptyString => String c EmptyString
      end
  end.

End JsString.

(* ===================================================================== *)
(** ** Regular expressions *)
(* ===================================================================== *)

(** The fragment of the regular-expression language that the script uses:
    literal text, one character of a class, a greedy [*] or [+] over a
    class, sequencing and the capture group number 1.  Matching is the
    backtracking search of the language, written with a continuation for
    what follows. *)
Module Regex.
Import JsString.

Inductive regex : Type :=
| Lit (s : string)
| Class (p : ascii -> bool)
| Star (p : ascii -> bool)
| Plus (p : ascii -> bool)
| Seq (r1 r2 : regex)
| Group (r : regex).

(** Two characters are the same for a literal, with or without the [i] flag. *)
Definition char_eq (ignoreCase : bool) (a b : ascii) : bool :=
  if ignoreCase then Ascii.eqb (canonicalize a) (canonicalize b) else Ascii.eqb a b.

(** Match the literal [l] at the start of [s]. *)
Fixpoint lit_k {A : Type} (ignoreCase : bool) (l s : string) (k : string -> option A)
  : option A :=
  match l with
  | EmptyString => k s
  | String a l' =>
      match s with
      | String b s' => if char_eq ignoreCase a b then lit_k ignoreCase l' s' k else None
      | EmptyString => None
      end
  end.

(** Greedy repetition of a class: take one more character when possible, and
    fall back to stopping here when the continuation fails further on. *)
Fixpoint star_k {A : Type} (p : ascii -> bool) (s : string) (k : string -> option A)
  : option A :=
  match s with
  | String c s' =>
      if p c
      then match star_k p s' k with
           | Some r => Some r
           | None => k s
           end
      else k s
  | EmptyString => k s
  end.

(** The text of [s] that was consumed when [s'] is what is left of it. *)
Definition consumed (s s' : string) : string :=
  substring 0 (String.length s - String.length s') s.

(** [rmatch i r s cap k]: match [r] at the start of [s], then continue with
    [k] on the rest and the capture. *)
Fixpoint rmatch {A : Type} (ignoreCase : bool) (r : regex) (s : string)
  (cap : option string) (k : string -> option string -> option A) : option A :=
  match r with
  | Lit l => lit_k ignoreCase l s (fun s' => k s' cap)
  | Class p =>
      match s with
      | String c s' => if p c then k s' cap else None
      | EmptyString => None
      end
  | Star p => star_k p s (fun s' => k s' cap)
  | Plus p =>
      match s with
      | String c s' => if p c then star_k p s' (fun s'' => k s'' cap) else None
      | EmptyString => None
      end
  | Seq r1 r2 => rmatch ignoreCase r1 s cap (fun s' cap' => rmatch ignoreCase r2 s' cap' k)
  | Group r1 => rmatch ignoreCase r1 s cap (fun s' _ => k s' (Some (consumed s s')))
  end.

(** A match that starts exactly at the beginning of [s]; the result is the
    capture. *)
Definition match_here (ignoreCase : bool) (r : regex) (s : string) : option (option string) :=
  rmatch ignoreCase r s None (fun _ cap => Some cap).

(** [s.match(r)] for a regular expression without the [g] flag: the leftmost
    match, reduced to its capture. *)
Fixpoint exec (ignoreCase : bool) (r : regex) (s : string) : option (option string) :=
  match match_here ignoreCase r s with
  | Some cap => Some cap
  | None =>
      match s with
      | String _ s' => exec ignoreCase r s'
      | EmptyString => None
      end
  end.

(** [r.test(s)] *)
Definition test (ignoreCase : bool) (r : regex) (s : string) : bool :=
  match exec ignoreCase r s with
  | Some _ => true
  | None => false
  end.

End Regex.

(* ===================================================================== *)
(** ** Paths *)
(* ===================================================================== *)

Module Path.

(** An absolute, normalized path: its components below the root. *)
Definition path : Type := list string.

(** [path.join(dir, name)] for a single component [name]. *)
Definition join (dir : path) (name : string) : path := dir ++ [name].

(** [path.dirname(p)] *)
Definition dirname (p : path) : path := removelast p.

(** [path.relative(from, to)], as the list of the components of the result:
    one [..] for each component of [from] below the common ancestor, then
    what is left of [to]. *)
Fixpoint relative (from to : path) : list string :=
  match from, to with
  | a :: from', b :: to' =>
      if String.eqb a b then relative from' to'
      else map (fun _ => "..") from ++ to
  | _, _ => map (fun _ => "..") from ++ to
  end.

(** [components.join('/')]; with [relative] this is
    [path.relative(from, to).split(path.sep).join('/')]. *)
Definition posix (components : list string) : string := String.concat "/" components.

(** The text of an absolute path, as it appears in messages. *)
Definition render (p : path) : string := ("/" ++ posix p)%string.

(** The part of [s] from its last dot on, when [s] has a dot. *)
Fixpoint from_last_dot (s : string) : option string :=
  match s with
  | EmptyString => None
  | String c s' =>
      match from_last_dot s' with
      | Some e => Some e
      | None => if Ascii.eqb c "."%char then Some s else None
      end
  end.

(** [path.extname(name)] for a file name without separators: from the last
    dot on, unless that dot is the first character of the name or the name
    is [..]. *)
Definition extname (name : string) : string :=
  match name with
  | EmptyString => ""
  | String _ rest =>
      match from_last_dot rest with
      | None => ""
      | Some e => if String.eqb name ".." then "" else e
      end
  end.

End Path.

(* ===================================================================== *)
(** ** Thrown values and results *)
(* ===================================================================== *)

(** What a call can throw: [new Error(message)] of the script itself, an
    error of [node:fs] with its code and path, or whatever the bundler
    throws. *)
Inductive exn : Type :=
| Error (message : string)
| SystemError (code : string) (p : Path.path)
| BundlerError (what : string).

Inductive result (A : Type) : Type :=
| Ok (a : A)
| Throw (e : exn).
Arguments Ok {A} a.
Arguments Throw {A} e.

(* ===================================================================== *)
(** ** The file system *)
(* ===================================================================== *)

Module Fs.
Import Path.

#[local] Set Warnings "-register-all".
Inductive node : Type :=
| File (content : string)
| Dir (entries : list (string * node)).
#[local] Set Warnings "register-all".

(** The node bound to [name] in a directory: its first occurrence. *)
Fixpoint assoc (name : string) (entries : list (string * node)) : option node :=
  match entries with
  | [] => None
  | (n, c) :: rest => if String.eqb n name then Some c else assoc name rest
  end.

(** Drop every occurrence of [name]. *)
Definition unbind (name : string) (entries : list (string * node))
  : list (string * node) :=
  filter (fun e => negb (String.eqb (fst e) name)) entries.

(** The entries of a directory, each name once, in listing order. *)
Fixpoint bindings (entries : list (string * node)) : list (string * node) :=
  match entries with
  | [] => []
  | (n, c) :: rest => (n, c) :: unbind n (bindings rest)
  end.

(** Replace the node bound to [name]. *)
Fixpoint rebind (name : string) (c' : node) (entries : list (string * node))
  : list (string * node) :=
  match entries with
  | [] => []
  | (n, c) :: rest =>
      if String.eqb n name then (n, c') :: rest else (n, c) :: rebind name c' rest
  end.

Fixpoint lookup (fs : node) (p : path) : option node :=
  match p with
  | [] => Some fs
  | name :: p' =>
      match fs with
      | Dir entries =>
          match assoc name entries with
          | Some c => lookup c p'
          | None => None
          end
      | File _ => None
      end
  end.

(** [fs.existsSync(p)] *)
Definition existsSync (fs : node) (p : path) : bool :=
  match lookup fs p with
  | Some _ => true
  | None => false
  end.

(** The path runs into a regular file before its end: [node:fs] then
    answers [ENOTDIR] where it answers [ENOENT] for a name that is missing. *)
Fixpoint blocked (fs : node) (p : path) : bool :=
  match p with
  | [] => false
  | name :: p' =>
      match fs with
      | File _ => true
      | Dir entries =>
          match assoc name entries with
          | Some c => blocked c p'
          | None => false
          end
      end
  end.

(** The error of a call on a path at which there is nothing. *)
Definition missing (fs : node) (p : path) : exn :=
  SystemError (if blocked fs p then "ENOTDIR" else "ENOENT") p.

(** A [fs.Dirent]. *)
Record Dirent : Type := { name : string; isDirectory : bool }.

Definition dirent_of (e : string * node) : Dirent :=
  {| name := fst e;
     isDirectory := match snd e with Dir _ => true | File _ => false end |}.

(** [fs.readdirSync(p, { withFileTypes: true })] *)
Definition readdirSync (fs : node) (p : path) : result (list Dirent) :=
  match lookup fs p with
  | Some (Dir entries) => Ok (map dirent_of (bindings entries))
  | Some (File _) => Throw (SystemError "ENOTDIR" p)
  | None => Throw (missing fs p)
  end.

(** [fs.readFileSync(p, 'utf8')] *)
Definition readFileSync (fs : node) (p : path) : result string :=
  match lookup fs p with
  | Some (File content) => Ok content
  | Some (Dir _) => Throw (SystemError "EISDIR" p)
  | None => Throw (missing fs p)
  end.

(** [fs.rmSync(p, { recursive: true, force: true })]: the subtree at [p]
    goes, and a missing [p] is not an error; a regular file on the way to
    [p] is one, and nothing is removed then. *)
Fixpoint rmSync (fs : node) (p : path) (full : path) : result node :=
  match p with
  | [] => Ok fs
  | [name] =>
      match fs with
      | Dir entries => Ok (Dir (unbind name entries))
      | File _ => Throw (SystemError "ENOTDIR" full)
      end
  | name :: p' =>
      match fs with
      | Dir entries =>
          match assoc name entries with
          | Some c =>
              match rmSync c p' full with
              | Ok c' => Ok (Dir (rebind name c' entries))
              | Throw e => Throw e
              end
          | None => Ok fs
          end
      | File _ => Throw (SystemError "ENOTDIR" full)
      end
  end.

(** [fs.mkdirSync(p, { recursive: true })]: every missing directory on the
    way is made; a file on the way is an error. *)
Fixpoint mkdirSync (fs : node) (p : path) (full : path) : result node :=
  match p with
  | [] =>
      match fs with
      | Dir _ => Ok fs
      | File _ => Throw (SystemError "EEXIST" full)
      end
  | name :: p' =>
      match fs with
      | File _ => Throw (SystemError "ENOTDIR" full)
      | Dir entries =>
          match assoc name entries with
          | Some c =>
              match mkdirSync c p' full with
              | Ok c' => Ok (Dir (rebind name c' entries))
              | Throw e => Throw e
              end
          | None =>
              match mkdirSync (Dir []) p' full with
              | Ok c' => Ok (Dir (entries ++ [(name, c')]))
              | Throw e => Throw e
              end
          end
      end
  end.

(** [fs.writeFileSync(p, content)]: the parent directory must exist and [p]
    must not be a directory; the file is created or overwritten. *)
Fixpoint writeFileSync (fs : node) (p : path) (content : string) (full : path)
  : result node :=
  match p with
  | [] => Throw (SystemError "EISDIR" full)
  | [name] =>
      match fs with
      | File _ => Throw (SystemError "ENOTDIR" full)
      | Dir entries =>
          match assoc name entries with
          | Some (Dir _) => Throw (SystemError "EISDIR" full)
          | Some (File _) => Ok (Dir (rebind name (File content) entries))
          | None => Ok (Dir (entries ++ [(name, File content)]))
          end
      end
  | name :: p' =>
      match fs with
      | File _ => Throw (SystemError "ENOTDIR" full)
      | Dir entries =>
          match assoc name entries with
          | Some c =>
              match writeFileSync c p' content full with
              | Ok c' => Ok (Dir (rebind name c' entries))
              | Throw e => Throw e
              end
          | None => Throw (SystemError "ENOENT" full)
          end
      end
  end.

(** The number of nodes of a tree. *)
Fixpoint size (fs : node) : nat :=
  match fs with
  | File _ => 1
  | Dir entries =>
      S ((fix sizes (l : list (string * node)) : nat :=
            match l with
            | [] => 0
            | (_, c) :: rest => size c + sizes rest
            end) entries)
  end.

(** The number of nodes of the trees of a listing. *)
Fixpoint sizes (l : list (string * node)) : nat :=
  match l with
  | [] => 0
  | (_, c) :: rest => size c + sizes rest
  end.

(** The number of nodes below [p]; a path that leads nowhere weighs 1. *)
Definition weight (fs : node) (p : path) : nat :=
  match lookup fs p with
  | Some n => size n
  | None => 1
  end.

Definition weights (fs : node) (queue : list path) : nat :=
  list_sum (map (weight fs) queue).

End Fs.

(* ===================================================================== *)
(** ** The run: a file system and what the process has done so far *)
(* ===================================================================== *)

Module Run.
Import Path Fs.

(** The lines the script prints, by the statement that prints them. *)
Inductive message : Type :=
| NothingToBuild
| Found (names : list string)
| Skipping (dirName : string)
| Building (widget : string) (entryFile : path)
| Built (widget : string) (withCss : bool)
| ManifestWritten.

(** What the process does that can be observed from outside, in order. *)
Inductive event : Type :=
| ConsoleWarn (m : message)
| ConsoleLog (m : message)
| ConsoleError (e : exn)
| RemovedDir (p : path)
| MadeDir (p : path)
| BundlerBuild (widget : string)
| WroteFile (p : path) (content : string).

Record world : Type := { fs : node; trace : list event }.

(** A step of the script: it reads and changes the world and either returns
    or throws. *)
Definition M (A : Type) : Type := world -> result A * world.

Definition ret {A : Type} (a : A) : M A := fun w => (Ok a, w).

Definition throw {A : Type} (e : exn) : M A := fun w => (Throw e, w).

Definition bind {A B : Type} (m : M A) (f : A -> M B) : M B :=
  fun w =>
    match m w with
    | (Ok a, w') => f a w'
    | (Throw e, w') => (Throw e, w')
    end.

(** Read the file system. *)
Definition reads {A : Type} (f : node -> A) : M A := fun w => (Ok (f (fs w)), w).

(** A call that reads the file system and may throw. *)
Definition attempt {A : Type} (f : node -> result A) : M A := fun w => (f (fs w), w).

(** Record an event. *)
Definition emit (e : event) : M unit :=
  fun w => (Ok tt, {| fs := fs w; trace := trace w ++ [e] |}).

(** A call of [node:fs] that changes the file system when it returns. *)
Definition update (f : node -> result node) : M unit :=
  fun w =>
    match f (fs w) with
    | Ok fs' => (Ok tt, {| fs := fs'; trace := trace w |})
    | Throw x => (Throw x, w)
    end.

(** A call from outside the script: whether it returns or throws, it leaves
    a file system behind. *)
Definition foreign (f : node -> result unit * node) : M unit :=
  fun w => (fst (f (fs w)), {| fs := snd (f (fs w)); trace := trace w |}).

End Run.

Declare Scope run_scope.
Delimit Scope run_scope with run.
Notation "x <- m ;; k" := (Run.bind m (fun x => k))
  (at level 61, m at next level, right associativity) : run_scope.
Notation "m ;; k" := (Run.bind m (fun _ => k))
  (at level 61, right associativity) : run_scope.

(* ===================================================================== *)
(** ** The script *)
(* ===================================================================== *)

Module Pipeline.
Import JsString Regex Path Fs Run.
Local Open Scope run_scope.

(** The double-quote character, as a string. *)
Definition dquote : string := String (ascii_of_nat 34) EmptyString.

(** The character U+0000, as a string. *)
Definition nul : string := String (ascii_of_nat 0) EmptyString.

Definition ENTRY_FILES : list string :=
  ["index.tsx"; "index.jsx"; "index.ts"; "index.js";
   "main.tsx"; "main.jsx"; "main.ts"; "main.js"].

Definition CSS_EXTENSIONS : list string := [".css"; ".pcss"; ".scss"; ".sass"].

(** [/\.module\./i]; the flag is given where the expression is used. *)
Definition CSS_MODULE_REGEX : regex := Lit ".module.".

(** Each candidate by its components: the third one is
    [path.join('styles', 'index.css')]. *)
Definition GLOBAL_CSS_CANDIDATES : list (list string) :=
  [["index.css"]; ["global.css"]; ["styles"; "index.css"]].

(** One discovered widget. *)
Record EntryTarget : Type :=
  { name : string; entryFile : path; entrySource : string; rootId : string }.

(** The value of one widget in the manifest; [rootId_] is its [rootId]
    property. *)
Record ManifestEntry : Type :=
  { js : string; css : option string; rootId_ : string }.

(** The [manifest] object: its own properties. *)
Definition Manifest : Type := list (string * ManifestEntry).

Fixpoint has_key (key : string) (m : Manifest) : bool :=
  match m with
  | [] => false
  | (k, _) :: rest => String.eqb k key || has_key key rest
  end.

Fixpoint replace_key (key : string) (v : ManifestEntry) (m : Manifest) : Manifest :=
  match m with
  | [] => []
  | (k, old) :: rest =>
      if String.eqb k key then (k, v) :: rest else (k, old) :: replace_key key v rest
  end.

(** [manifest[key] = v] on an object made by [{}], for an object [v].  The
    key [__proto__] is the accessor inherited from [Object.prototype]: the
    assignment changes the prototype and makes no own property. *)
Definition assign (m : Manifest) (key : string) (v : ManifestEntry) : Manifest :=
  if String.eqb key "__proto__" then m
  else if has_key key m then replace_key key v m
  else m ++ [(key, v)].

(** [Array.from(new Set(l))]: the first occurrence of each path, in order. *)
Fixpoint unique_from (seen l : list path) : list path :=
  match l with
  | [] => []
  | x :: rest =>
      if in_dec (list_eq_dec string_dec) x seen then unique_from seen rest
      else x :: unique_from (x :: seen) rest
  end.

Definition unique (l : list path) : list path := unique_from [] l.

(** The candidates of [candidates] in order until one exists in [entryDir]. *)
Fixpoint first_existing (fs : node) (entryDir : path) (candidates : list string)
  : option path :=
  match candidates with
  | [] => None
  | candidate :: rest =>
      let candidatePath := join entryDir candidate in
      if existsSync fs candidatePath then Some candidatePath
      else first_existing fs entryDir rest
  end.

Definition resolveEntryFile (fs : node) (entryDir : path) : option path :=
  first_existing fs entryDir ENTRY_FILES.

(** [/getElementById\s*\(\s*[QUOTE]([^QUOTE]+)[QUOTE]\s*\)/], where [QUOTE]
    stands for the apostrophe and the double quote. *)
Definition ROOT_ID_REGEX : regex :=
  Seq (Lit "getElementById")
   (Seq (Star is_space)
     (Seq (Lit "(")
       (Seq (Star is_space)
         (Seq (Class is_quote)
           (Seq (Group (Plus not_quote))
             (Seq (Class is_quote)
               (Seq (Star is_space) (Lit ")")))))))).

Definition detectRootId (entrySource fallbackName : string) : string :=
  match exec false ROOT_ID_REGEX entrySource with
  | Some (Some id) =>
      if String.eqb id "" then (fallbackName ++ "-root")%string else id
  | _ => (fallbackName ++ "-root")%string
  end.

(** The characters that [escapeForRegex] puts a backslash before. *)
Definition is_special (c : ascii) : bool :=
  existsb (Ascii.eqb c)
    (list_ascii_of_string ".*+?^${}()|[]\").

Fixpoint escapeForRegex (value : string) : string :=
  match value with
  | EmptyString => EmptyString
  | String c rest =>
      if is_special c then String "\"%char (String c (escapeForRegex rest))
      else String c (escapeForRegex rest)
  end.

(** The text that [new RegExp] reads from an escaped pattern: a backslash
    makes the character after it literal. *)
Fixpoint pattern_text (escaped : string) : string :=
  match escaped with
  | EmptyString => EmptyString
  | String c rest =>
      if Ascii.eqb c "\"%char
      then match rest with
           | String d rest' => String d (pattern_text rest')
           | EmptyString => EmptyString
           end
      else String c (pattern_text rest)
  end.

(** [new RegExp(`import\\s+[QUOTE]${escaped}[QUOTE]`)] *)
Definition importRegex (escaped : string) : regex :=
  Seq (Lit "import")
   (Seq (Plus is_space)
     (Seq (Class is_quote)
       (Seq (Lit (pattern_text escaped)) (Class is_quote)))).

(** The path of [cssPath] as an import of the entry would spell it. *)
Definition normalizedRelative (entryDir cssPath : path) : string :=
  let relative := posix (relative entryDir cssPath) in
  if startsWith relative "." then relative else ("./" ++ relative)%string.

Definition filterCssAlreadyImported
  (cssPaths : list path) (entryFile : path) (entrySource : string) : list path :=
  let entryDir := dirname entryFile in
  let normalizedSource := replace_crlf entrySource in
  filter
    (fun cssPath =>
       negb (test false
               (importRegex (escapeForRegex (normalizedRelative entryDir cssPath)))
               normalizedSource))
    cssPaths.

(** The body of the [for] loop of [collectCssFiles] over one listing;
    [queue] has the end of the array first. *)
Fixpoint scan_entries (current : path) (dirEntries : list Dirent)
  (queue results : list path) : list path * list path :=
  match dirEntries with
  | [] => (queue, results)
  | dirent :: rest =>
      if isDirectory dirent then
        if String.eqb (Fs.name dirent) "node_modules" || startsWith (Fs.name dirent) "."
        then scan_entries current rest queue results
        else scan_entries current rest (join current (Fs.name dirent) :: queue) results
      else
        let ext := toLowerCase (extname (Fs.name dirent)) in
        if negb (existsb (String.eqb ext) CSS_EXTENSIONS)
        then scan_entries current rest queue results
        else if test true CSS_MODULE_REGEX (Fs.name dirent)
        then scan_entries current rest queue results
        else scan_entries current rest queue (results ++ [join current (Fs.name dirent)])
  end.

(** The [while] loop of [collectCssFiles], at most [fuel] turns of it.  The
    test [if (!current) continue] never fires: a queued path is never the
    empty string. *)
Fixpoint collect_loop (fuel : nat) (fs : node) (queue results : list path)
  : option (result (list path)) :=
  match queue with
  | [] => Some (Ok results)
  | current :: queue' =>
      match fuel with
      | O => None
      | S fuel' =>
          match readdirSync fs current with
          | Throw e => Some (Throw e)
          | Ok dirEntries =>
              let qr := scan_entries current dirEntries queue' results in
              collect_loop fuel' fs (fst qr) (snd qr)
          end
      end
  end.

(** The loop runs to its end within as many turns as there are nodes below
    [startDir] (see [collect_loop_terminates]), so the last case is never
    taken. *)
Definition collectCssFiles (fs : node) (startDir : path) : result (list path) :=
  match collect_loop (weight fs startDir) fs [startDir] [] with
  | Some r => r
  | None => Ok []
  end.

Section Script.

(** The directory [web/], where the script's own directory lives. *)
Variable WEB_ROOT : path.
(** [process.env.NODE_ENV ?? 'production'] *)
Variable BUILD_MODE : string.
(** The configuration object of the bundler, as the project declares it. *)
Variable Config : Type.
Variable loadConfigFromFile : node -> result (option Config).

Definition SRC_ROOT : path := join WEB_ROOT "src".
Definition OUT_DIR : path := join (join WEB_ROOT "dist") "widgets".
Definition MANIFEST_PATH : path := join OUT_DIR "manifest.json".

(** Evaluated once, when the module is loaded. *)
Definition PUBLIC_DIR (fs0 : node) : option path :=
  if existsSync fs0 (join WEB_ROOT "public") then Some (join WEB_ROOT "public")
  else None.

(** What the script decides of the configuration of one build. *)
Record EntryConfig : Type :=
  { baseConfig : option Config;
    mode : string;
    publicDir : option path;
    outDir : path;
    input : string;
    wrapEntryFile : path;
    wrapCssPaths : list path;
    entryFileNames : string;
    cssFileName : string }.

(** [build] of the bundler. *)
Variable build : EntryConfig -> node -> result unit * node.
(** [JSON.stringify({ entries: manifest }, null, 2)] *)
Variable JSON_stringify : Manifest -> string.

Definition selectCss (fs : node) (target : EntryTarget) : result (list path) :=
  let globalCss :=
    filter (existsSync fs) (map (fun candidate => SRC_ROOT ++ candidate) GLOBAL_CSS_CANDIDATES) in
  match collectCssFiles fs (dirname (entryFile target)) with
  | Throw e => Throw e
  | Ok perEntryCss =>
      let deduped := unique (globalCss ++ perEntryCss) in
      Ok (filterCssAlreadyImported deduped (entryFile target) (entrySource target))
  end.

(** The [for] loop of [discoverEntries]. *)
Fixpoint discover_loop (dirEntries : list Dirent) (entries : list EntryTarget)
  : M (list EntryTarget) :=
  match dirEntries with
  | [] => ret entries
  | dirent :: rest =>
      if negb (isDirectory dirent) then discover_loop rest entries
      else if startsWith (Fs.name dirent) "." then discover_loop rest entries
      else
        let entryDir := join SRC_ROOT (Fs.name dirent) in
        found <- reads (fun fs => resolveEntryFile fs entryDir) ;;
        match found with
        | None =>
            emit (ConsoleWarn (Skipping (Fs.name dirent))) ;;
            discover_loop rest entries
        | Some entryFile =>
            entrySource <- attempt (fun fs => readFileSync fs entryFile) ;;
            let rootId := detectRootId entrySource (Fs.name dirent) in
            discover_loop rest
              (entries ++ [{| name := Fs.name dirent; entryFile := entryFile;
                              entrySource := entrySource; rootId := rootId |}])
        end
  end.

Definition discoverEntries : M (list EntryTarget) :=
  dirEntries <- attempt (fun fs => readdirSync fs SRC_ROOT) ;;
  discover_loop dirEntries [].

Definition ensureDirectoryExists (dir : path) : M unit :=
  present <- reads (fun fs => existsSync fs dir) ;;
  if present then ret tt else throw (Error ("Directory not found: " ++ render dir)%string).

Definition prepareOutput : M unit :=
  update (fun fs => rmSync fs OUT_DIR OUT_DIR) ;;
  emit (RemovedDir OUT_DIR) ;;
  update (fun fs => mkdirSync fs OUT_DIR OUT_DIR) ;;
  emit (MadeDir OUT_DIR).

Definition ensureFileExists (file : path) (message : string) : M unit :=
  present <- reads (fun fs => existsSync fs file) ;;
  if present then ret tt else throw (Error message).

Definition toPosixPath (components : list string) : string := posix components.

(** The [entryConfig] object of one target. *)
Definition entryConfig (base : option Config) (public : option path)
  (target : EntryTarget) (cssToInclude : list path) : EntryConfig :=
  let virtualId := (nul ++ "virtual-entry:" ++ render (entryFile target))%string in
  {| baseConfig := base;
     mode := BUILD_MODE;
     publicDir := public;
     outDir := OUT_DIR;
     input := virtualId;
     wrapEntryFile := entryFile target;
     wrapCssPaths := cssToInclude;
     entryFileNames := (name target ++ ".js")%string;
     cssFileName := (name target ++ ".css")%string |}.

Definition widgetJsPath (target : EntryTarget) : path :=
  join OUT_DIR (name target ++ ".js")%string.

Definition widgetCssPath (target : EntryTarget) : path :=
  join OUT_DIR (name target ++ ".css")%string.

(** The message of the error that a missing JavaScript output raises. *)
Definition missing_output (target : EntryTarget) : string :=
  ("Expected JavaScript output for " ++ dquote ++ name target ++ dquote
     ++ " not found: " ++ render (widgetJsPath target))%string.

(** The value that the manifest gets for one target. *)
Definition manifest_entry (target : EntryTarget) (cssExists : bool) : ManifestEntry :=
  {| js := toPosixPath (relative (join WEB_ROOT "dist") (widgetJsPath target));
     css := if cssExists
            then Some (toPosixPath (relative (join WEB_ROOT "dist") (widgetCssPath target)))
            else None;
     rootId_ := rootId target |}.

(** The body of the [for] loop of [main] for one target. *)
Definition build_target (base : option Config) (public : option path)
  (manifest : Manifest) (target : EntryTarget) : M Manifest :=
  cssToInclude <- attempt (fun fs => selectCss fs target) ;;
  emit (ConsoleLog (Building (name target) (entryFile target))) ;;
  emit (BundlerBuild (name target)) ;;
  foreign (build (entryConfig base public target cssToInclude)) ;;
  ensureFileExists (widgetJsPath target) (missing_output target) ;;
  cssExists <- reads (fun fs => existsSync fs (widgetCssPath target)) ;;
  let manifest' := assign manifest (name target) (manifest_entry target cssExists) in
  emit (ConsoleLog (Built (name target) cssExists)) ;;
  ret manifest'.

(** The [for] loop of [main]. *)
Fixpoint build_loop (base : option Config) (public : option path)
  (targets : list EntryTarget) (manifest : Manifest) : M Manifest :=
  match targets with
  | [] => ret manifest
  | target :: rest =>
      manifest' <- build_target base public manifest target ;;
      build_loop base public rest manifest'
  end.

(** What [main] does once the output directory is prepared: from the loading
    of the configuration to the writing of the manifest. *)
Definition build_all (public : option path) (entryTargets : list EntryTarget) : M unit :=
  configResult <- attempt loadConfigFromFile ;;
  manifest <- build_loop configResult public entryTargets [] ;;
  update (fun fs => writeFileSync fs MANIFEST_PATH (JSON_stringify manifest) MANIFEST_PATH) ;;
  emit (WroteFile MANIFEST_PATH (JSON_stringify manifest)) ;;
  emit (ConsoleLog ManifestWritten).

Definition main (public : option path) : M unit :=
  ensureDirectoryExists SRC_ROOT ;;
  entryTargets <- discoverEntries ;;
  if (List.length entryTargets =? 0)%nat then
    emit (ConsoleWarn NothingToBuild)
  else
    emit (ConsoleLog (Found (map name entryTargets))) ;;
    prepareOutput ;;
    build_all public entryTargets.

(** [main().catch(...)]: the exit code the process leaves, 0 when
    [process.exitCode] is never set. *)
Definition finish (r : result unit * world) : nat * world :=
  match r with
  | (Ok _, w') => (0, w')
  | (Throw e, w') => (1, {| fs := fs w'; trace := trace w' ++ [ConsoleError e] |})
  end.

(** The process, from the loading of the module on. *)
Definition run (w : world) : nat * world := finish (main (PUBLIC_DIR (fs w)) w).

End Script.

End Pipeline.

(* ===================================================================== *)
(** ** The plugin that removes manual chunks *)
(* ===================================================================== *)

Module Plugins.

Section Values.

(** The primitive values other than [undefined] and [null] (booleans,
    numbers, strings, ...), with what [ToBoolean] makes of each. *)
Variable primitive : Type.
Variable truthy_primitive : primitive -> bool.

(** The values that reach the plugin: [undefined], [null], the other
    primitives, functions, plain objects by their own data properties in
    order, each with its [configurable] attribute and its value (every
    property of a frozen or sealed object is not configurable), and arrays
    without holes. *)
#[local] Set Warnings "-register-all".
Inductive value : Type :=
| Undefined
| Null
| Primitive (p : primitive)
| Closure (id : nat)
| Object (properties : list (string * (bool * value)))
| Array (elements : list value).
#[local] Set Warnings "register-all".

(** What a call does: it returns a value or throws a [TypeError]. *)
Inductive outcome (A : Type) : Type :=
| Returns (a : A)
| ThrowsTypeError.
Arguments Returns {A} a.
Arguments ThrowsTypeError {A}.

(** [ToBoolean(v)] *)
Definition truthy (v : value) : bool :=
  match v with
  | Undefined | Null => false
  | Primitive p => truthy_primitive p
  | Closure _ | Object _ | Array _ => true
  end.

(** The own property [key] of an object: its first binding. *)
Fixpoint own (key : string) (properties : list (string * (bool * value)))
  : option (bool * value) :=
  match properties with
  | [] => None
  | (k, attributes) :: rest => if String.eqb k key then Some attributes else own key rest
  end.

(** [v.manualChunks]: reading a property of [undefined] or [null] throws; no
    prototype has a property of that name, so only an own property of an
    object gives a value other than [undefined]. *)
Definition manualChunks (v : value) : outcome value :=
  match v with
  | Undefined | Null => ThrowsTypeError
  | Object properties =>
      match own "manualChunks" properties with
      | Some (_, chunks) => Returns chunks
      | None => Returns Undefined
      end
  | Primitive _ | Closure _ | Array _ => Returns Undefined
  end.

(** [delete v.manualChunks] in the strict code of a module: deleting an own
    property that is not configurable throws; otherwise the property goes,
    and a property that is not there is no error. *)
Definition delete_manualChunks (v : value) : outcome value :=
  match v with
  | Object properties =>
      match own "manualChunks" properties with
      | Some (false, _) => ThrowsTypeError
      | _ =>
          Returns
            (Object (filter (fun property => negb (String.eqb (fst property) "manualChunks"))
                       properties))
      end
  | _ => Returns v
  end.

(** The function given to [options.map]. *)
Definition strip (opt : value) : outcome value :=
  match manualChunks opt with
  | ThrowsTypeError => ThrowsTypeError
  | Returns chunks =>
      if truthy chunks then delete_manualChunks opt else Returns opt
  end.

(** [options.map(...)], from the first element on, up to the first call
    that throws. *)
Fixpoint map_strip (options : list value) : outcome (list value) :=
  match options with
  | [] => Returns []
  | opt :: rest =>
      match strip opt with
      | ThrowsTypeError => ThrowsTypeError
      | Returns opt' =>
          match map_strip rest with
          | ThrowsTypeError => ThrowsTypeError
          | Returns rest' => Returns (opt' :: rest')
          end
      end
  end.

(** The hook [outputOptions] of the plugin. *)
Definition outputOptions (options : value) : outcome value :=
  match options with
  | Array elements =>
      match map_strip elements with
      | ThrowsTypeError => ThrowsTypeError
      | Returns elements' => Returns (Array elements')
      end
  | _ =>
      if truthy options
      then match manualChunks options with
           | ThrowsTypeError => ThrowsTypeError
           | Returns chunks =>
               if truthy chunks then delete_manualChunks options
               else Returns options
           end
      else Returns options
  end.

(** A plugin that only has the hook [outputOptions]. *)
Record OutputPlugin : Type :=
  { pluginName : string; pluginOutputOptions : value -> outcome value }.

Definition removeManualChunksPlugin : OutputPlugin :=
  {| pluginName := "remove-manual-chunks"; pluginOutputOptions := outputOptions |}.

End Values.

Arguments Undefined {primitive}.
Arguments Null {primitive}.
Arguments Primitive {primitive} p.
Arguments Closure {primitive} id.
Arguments Object {primitive} properties.
Arguments Array {primitive} elements.
Arguments Returns {A} a.
Arguments ThrowsTypeError {A}.

End Plugins.

(* ===================================================================== *)
(** ** The vocabulary of the specification *)
(* ===================================================================== *)

Module Spec.
Import JsString Regex Path Fs Run Pipeline.

(** *** Runs of a character class *)

(** What is left of [s] after its longest prefix of characters of [p]. *)
Fixpoint skip (p : ascii -> bool) (s : string) : string :=
  match s with
  | String c s' => if p c then skip p s' else s
  | EmptyString => EmptyString
  end.

(** The longest prefix of [s] made of characters of [p]. *)
Fixpoint span (p : ascii -> bool) (s : string) : string :=
  match s with
  | String c s' => if p c then String c (span p s') else EmptyString
  | EmptyString => EmptyString
  end.

(** The first character of a string is in the class, when there is one. *)
Definition starts_in (p : ascii -> bool) (s : string) : bool :=
  match s with
  | String c _ => p c
  | EmptyString => false
  end.

(** [s] without its first [n] characters. *)
Fixpoint drop (n : nat) (s : string) : string :=
  match n, s with
  | S n', String _ s' => drop n' s'
  | _, _ => s
  end.

(** *** The mount-point lookup that [detectRootId] looks for *)

(** [text] begins with a call of [getElementById] on one quoted, non-empty
    argument [id] that holds no quote character; white space is allowed
    around the parentheses' contents. *)
Definition lookup_call (text id : string) : Prop :=
  exists ws1 ws2 q1 q2 ws3 rest,
    text = ("getElementById" ++ ws1 ++ "(" ++ ws2
            ++ String q1 (id ++ String q2 (ws3 ++ ")" ++ rest)))%string
    /\ all_chars is_space ws1 = true
    /\ all_chars is_space ws2 = true
    /\ is_quote q1 = true
    /\ id <> EmptyString
    /\ all_chars not_quote id = true
    /\ is_quote q2 = true
    /\ all_chars is_space ws3 = true.

(** Such a call begins at offset [n] of [source]. *)
Definition detected_at (source : string) (n : nat) (id : string) : Prop :=
  exists before text,
    source = (before ++ text)%string /\ String.length before = n /\ lookup_call text id.

(** No match of [r] begins before offset [n] of [s]. *)
Fixpoint none_before (ignoreCase : bool) (r : regex) (s : string) (n : nat) {struct n}
  : bool :=
  match n with
  | O => true
  | S n' =>
      match match_here ignoreCase r s with
      | Some _ => false
      | None =>
          match s with
          | String _ s' => none_before ignoreCase r s' n'
          | EmptyString => true
          end
      end
  end.

(** *** Entry-file priority *)

Definition BASENAMES : list string := ["index"; "main"].

(** The extensions in the order the specification gives: typed with markup,
    typed, untyped with markup, untyped. *)
Definition TYPED_FIRST : list string := [".tsx"; ".ts"; ".jsx"; ".js"].

(** The extensions with the two markup ones first for each typing:
    typed with markup, untyped with markup, typed, untyped. *)
Definition MARKUP_FIRST : list string := [".tsx"; ".jsx"; ".ts"; ".js"].

(** Every basename in turn, each with every extension in turn. *)
Definition priority (extensions : list string) : list string :=
  flat_map (fun base => map (fun ext => (base ++ ext)%string) extensions) BASENAMES.

(** The first file name of [order] that exists in [dir]. *)
Definition first_under (order : list string) (fs : node) (dir : path) : option path :=
  option_map (join dir) (find (fun file => existsSync fs (join dir file)) order).

(** Whenever [dir] holds a typed-markup entry file and an untyped one, it
    resolves to a typed-markup entry file. *)
Definition typed_markup_wins (fs : node) (dir : path) : Prop :=
  (exists base, In base BASENAMES /\ existsSync fs (join dir (base ++ ".tsx")) = true) ->
  (exists base, In base BASENAMES /\ existsSync fs (join dir (base ++ ".js")) = true) ->
  exists base, In base BASENAMES
               /\ resolveEntryFile fs dir = Some (join dir (base ++ ".tsx")).

(** A widget directory with a typed entry and an untyped one with markup. *)
Definition dir_ts_and_jsx : node :=
  Dir [("widget", Dir [("index.ts", File "export {}"); ("index.jsx", File "export {}")])].

(** A widget directory with [index.js] and [main.tsx]. *)
Definition dir_js_and_tsx : node :=
  Dir [("widget", Dir [("index.js", File "export {}"); ("main.tsx", File "export {}")])].

(** A widget directory with [index.tsx] and [main.js]. *)
Definition dir_tsx_and_js : node :=
  Dir [("widget", Dir [("main.js", File "export {}"); ("index.tsx", File "export {}")])].

(** *** The stylesheet scan *)

(** A directory that the scan does not enter. *)
Definition skipped_dir (d : string) : Prop :=
  d = "node_modules" \/ startsWith d "." = true.

(** [name] contains [.module.] in some letter case. *)
Definition names_module (name : string) : Prop :=
  exists before m after,
    name = (before ++ m ++ after)%string /\ toLowerCase m = ".module.".

(** [file] is a file of [fs] below [startDir], reached through directories
    that are not skipped, with a stylesheet extension in some letter case
    and a name that does not mark a module stylesheet. *)
Definition scanned_stylesheet (fs : node) (startDir file : path) : Prop :=
  exists dirs name content,
    file = startDir ++ dirs ++ [name]
    /\ (forall d, In d dirs -> ~ skipped_dir d)
    /\ In (toLowerCase (extname name)) CSS_EXTENSIONS
    /\ ~ names_module name
    /\ lookup fs file = Some (File content).

(** [p] is [startDir] or a directory below it that the scan enters. *)
Definition entered (startDir p : path) : Prop :=
  exists dirs, p = startDir ++ dirs /\ (forall d, In d dirs -> ~ skipped_dir d).

(** A widget directory with stylesheets at several depths. *)
Definition styled_widget : node :=
  Dir [("counter",
        Dir [("index.tsx", File "import './index.css'");
             ("index.css", File "");
             ("Button.module.css", File "");
             ("theme", Dir [("dark.SCSS", File ""); ("notes.txt", File "")]);
             ("node_modules", Dir [("lib.css", File "")]);
             (".cache", Dir [("stale.css", File "")])])].

(** *** The stylesheets of a target *)

(** [l1] is [l2] with some elements left out, the others in their order. *)
Inductive subseq {A : Type} : list A -> list A -> Prop :=
| subseq_nil : subseq [] []
| subseq_skip (x : A) (l1 l2 : list A) : subseq l1 l2 -> subseq l1 (x :: l2)
| subseq_take (x : A) (l1 l2 : list A) : subseq l1 l2 -> subseq (x :: l1) (x :: l2).

(** The global stylesheets that exist, in the order of the candidates. *)
Definition existing_globals (WEB_ROOT : path) (fs : node) : list path :=
  filter (existsSync fs)
    [SRC_ROOT WEB_ROOT ++ ["index.css"];
     SRC_ROOT WEB_ROOT ++ ["global.css"];
     SRC_ROOT WEB_ROOT ++ ["styles"; "index.css"]].

(** The entry source, line ends normalized, holds a literal import of
    [form]: the word [import], white space, a quote, [form], a quote. *)
Definition imports_literally (entrySource form : string) : Prop :=
  exists before ws q1 q2 after,
    replace_crlf entrySource
    = (before ++ "import" ++ ws ++ String q1 (form ++ String q2 after))%string
    /\ ws <> EmptyString
    /\ all_chars is_space ws = true
    /\ is_quote q1 = true
    /\ is_quote q2 = true.

(** The path of [cssPath] from the directory of the entry, with forward
    slashes. *)
Definition relative_form (target : EntryTarget) (cssPath : path) : string :=
  posix (relative (dirname (entryFile target)) cssPath).

(** No path that [selectCss] returns is imported by the entry under its
    relative form prefixed with [./]. *)
Definition never_returns_imported (WEB_ROOT : path) (fs : node) (target : EntryTarget)
  : Prop :=
  forall selected,
    selectCss WEB_ROOT fs target = Ok selected ->
    forall cssPath, In cssPath selected ->
      ~ imports_literally (entrySource target) ("./" ++ relative_form target cssPath).

(** A project whose only widget imports the global stylesheet by a path
    that starts with [./]. *)
Definition project_dot_slash : node :=
  Dir [("web",
        Dir [("src",
              Dir [("index.css", File "body { margin: 0 }");
                   ("counter",
                    Dir [("index.tsx", File "import './../index.css'")])])])].

Definition counter_dot_slash : EntryTarget :=
  {| name := "counter";
     entryFile := ["web"; "src"; "counter"; "index.tsx"];
     entrySource := "import './../index.css'";
     rootId := "counter-root" |}.

(** A project with a global stylesheet and a widget that imports one of its
    own two stylesheets. *)
Definition project_styles : node :=
  Dir [("web",
        Dir [("src",
              Dir [("index.css", File "body { margin: 0 }");
                   ("counter",
                    Dir [("index.tsx", File "import './index.css'");
                         ("index.css", File ".counter {}");
                         ("extra.css", File ".extra {}")])])])].

Definition counter_styles : EntryTarget :=
  {| name := "counter";
     entryFile := ["web"; "src"; "counter"; "index.tsx"];
     entrySource := "import './index.css'";
     rootId := "counter-root" |}.

(** *** Runs of the pipeline *)

(** The path [p] runs into a regular file: what is at some beginning of [p],
    short of its end, is a file. *)
Definition runs_into_file (fs : node) (p : path) : Prop :=
  exists before content after,
    p = before ++ after /\ after <> [] /\ lookup fs before = Some (File content).

(** The widgets that the bundler was invoked for, in order. *)
Definition builds_of (tr : list event) : list string :=
  flat_map (fun e => match e with BundlerBuild widget => [widget] | _ => [] end) tr.

(** The files that the script itself wrote, in order. *)
Definition writes_of (tr : list event) : list (path * string) :=
  flat_map (fun e => match e with WroteFile p content => [(p, content)] | _ => [] end) tr.

(** The removals of a directory, in order. *)
Definition removals_of (tr : list event) : list path :=
  flat_map (fun e => match e with RemovedDir p => [p] | _ => [] end) tr.

(** The own property [key] of the manifest object. *)
Fixpoint entry_of (m : Manifest) (key : string) : option ManifestEntry :=
  match m with
  | [] => None
  | (k, v) :: rest => if String.eqb k key then Some v else entry_of rest key
  end.

(** A process that has done nothing yet. *)
Definition fresh (fs0 : node) : world := {| fs := fs0; trace := [] |}.

Section RunVocabulary.

Variable WEB_ROOT : path.
Variable BUILD_MODE : string.
Variable Config : Type.
Variable loadConfigFromFile : node -> result (option Config).
Variable build : EntryConfig Config -> node -> result unit * node.
Variable JSON_stringify : Manifest -> string.

(** The first two statements of [main]. *)
Definition discovery : M (list EntryTarget) :=
  (ensureDirectoryExists (SRC_ROOT WEB_ROOT) ;; discoverEntries WEB_ROOT)%run.

(** What [main] does between discovery and the loading of the configuration. *)
Definition announce_and_prepare (targets : list EntryTarget) : M unit :=
  (emit (ConsoleLog (Found (map name targets))) ;; prepareOutput WEB_ROOT)%run.

(** The run started on [fs0] reaches its build loop with [targets], the
    configuration [base] and the world [ws]. *)
Definition build_phase (fs0 : node) (targets : list EntryTarget)
  (base : option Config) (ws : world) : Prop :=
  exists wd,
    discovery (fresh fs0) = (Ok targets, wd)
    /\ targets <> []
    /\ announce_and_prepare targets wd = (Ok tt, ws)
    /\ loadConfigFromFile (fs ws) = Ok base.

(** The bundler never makes a file at the path of the manifest. *)
Definition leaves_manifest_to_script : Prop :=
  forall cfg fs,
    existsSync fs (MANIFEST_PATH WEB_ROOT) = false ->
    existsSync (snd (build cfg fs)) (MANIFEST_PATH WEB_ROOT) = false.

End RunVocabulary.

(** *** A bundler and projects to run the pipeline on *)

(** Write [name] in [dir] when that is possible; never the manifest. *)
Definition emit_file (fs : node) (dir : path) (name content : string) : node :=
  if String.eqb name "manifest.json" then fs
  else match writeFileSync fs (join dir name) content (join dir name) with
       | Ok fs' => fs'
       | Throw _ => fs
       end.

(** A bundler for the examples: it throws for the widget [broken], emits
    nothing for the widget [empty], and otherwise emits the JavaScript file
    and, when stylesheets are injected, the stylesheet. *)
Definition demo_build (cfg : EntryConfig unit) (fs : node) : result unit * node :=
  if String.eqb (entryFileNames unit cfg) "broken.js"
  then (Throw (BundlerError "build failed"), fs)
  else if String.eqb (entryFileNames unit cfg) "empty.js" then (Ok tt, fs)
  else
    let fs1 := emit_file fs (outDir unit cfg) (entryFileNames unit cfg) "/* js */" in
    match wrapCssPaths unit cfg with
    | [] => (Ok tt, fs1)
    | _ :: _ => (Ok tt, emit_file fs1 (outDir unit cfg) (cssFileName unit cfg) "/* css */")
    end.

Definition demo_load (fs : node) : result (option unit) := Ok None.

(** The names of the entries, separated by commas: enough to tell one
    manifest from another. *)
Definition demo_stringify (m : Manifest) : string := String.concat "," (map fst m).

Definition demo_run (fs0 : node) : nat * world :=
  run ["web"] "production" unit demo_load demo_build demo_stringify (fresh fs0).

Definition widget_source : string :=
  "createRoot(document.getElementById('counter-root')!).render(<App />)".

(** Output of an earlier run. *)
Definition old_dist : string * node :=
  ("dist", Dir [("widgets", Dir [("old.js", File "/* old */");
                                 ("manifest.json", File "old")])]).

(** A project without the source root. *)
Definition project_no_src : node := Dir [("web", Dir [old_dist])].

(** A project whose source root holds no widget, only a stylesheet
    directory. *)
Definition project_no_widget : node :=
  Dir [("web", Dir [("src", Dir [("theme", Dir [("index.css", File "")])]); old_dist])].

(** A project with two widgets that build. *)
Definition project_two_widgets : node :=
  Dir [("web",
        Dir [("src",
              Dir [("counter", Dir [("index.tsx", File widget_source);
                                    ("index.css", File ".counter {}")]);
                   ("clock", Dir [("main.js", File "export {}")])]);
             old_dist])].

(** A project whose second widget builds to nothing. *)
Definition project_empty_output : node :=
  Dir [("web",
        Dir [("src",
              Dir [("counter", Dir [("index.tsx", File widget_source)]);
                   ("empty", Dir [("index.ts", File "export {}")]);
                   ("clock", Dir [("main.js", File "export {}")])]);
             old_dist])].

(** A project whose second widget makes the bundler throw. *)
Definition project_broken : node :=
  Dir [("web",
        Dir [("src",
              Dir [("counter", Dir [("index.tsx", File widget_source)]);
                   ("broken", Dir [("index.ts", File "export {}")]);
                   ("clock", Dir [("main.js", File "export {}")])]);
             old_dist])].

(** A project in which [dist] is a regular file. *)
Definition project_dist_is_file : node :=
  Dir [("web",
        Dir [("src", Dir [("counter", Dir [("index.tsx", File widget_source)])]);
             ("dist", File "not a directory")])].

(** A project with a widget directory named [__proto__], which has a
    stylesheet, beside another widget. *)
Definition project_proto : node :=
  Dir [("web",
        Dir [("src",
              Dir [("__proto__", Dir [("index.tsx", File widget_source);
                                      ("index.css", File ".proto {}")]);
                   ("clock", Dir [("main.js", File "export {}")])])])].

(** The run removed and made again the output directory before the bundler
    was invoked for anything. *)
Definition resets_output_first (WEB_ROOT : path) (final : nat * world) : Prop :=
  exists before after,
    trace (snd final)
    = before ++ RemovedDir (OUT_DIR WEB_ROOT) :: MadeDir (OUT_DIR WEB_ROOT) :: after
    /\ builds_of before = [].

(** The run wrote the manifest file, once, and wrote nothing else. *)
Definition writes_manifest_once (WEB_ROOT : path) (final : nat * world) : Prop :=
  exists content, writes_of (trace (snd final)) = [(MANIFEST_PATH WEB_ROOT, content)].

(** The targets that discovery finds in the projects above. *)
Definition targets_of (fs0 : node) : list EntryTarget :=
  match discovery ["web"] (fresh fs0) with
  | (Ok targets, _) => targets
  | (Throw _, _) => []
  end.

Definition counter_target : EntryTarget :=
  {| name := "counter";
     entryFile := ["web"; "src"; "counter"; "index.tsx"];
     entrySource := widget_source;
     rootId := "counter-root" |}.

Definition clock_target : EntryTarget :=
  {| name := "clock";
     entryFile := ["web"; "src"; "clock"; "main.js"];
     entrySource := "export {}";
     rootId := "clock-root" |}.

Definition proto_target : EntryTarget :=
  {| name := "__proto__";
     entryFile := ["web"; "src"; "__proto__"; "index.tsx"];
     entrySource := widget_source;
     rootId := "counter-root" |}.

Definition empty_target : EntryTarget :=
  {| name := "empty";
     entryFile := ["web"; "src"; "empty"; "index.ts"];
     entrySource := "export {}";
     rootId := "empty-root" |}.

Definition broken_target : EntryTarget :=
  {| name := "broken";
     entryFile := ["web"; "src"; "broken"; "index.ts"];
     entrySource := "export {}";
     rootId := "broken-root" |}.

(** The world in which the build loop of a run on [fs0] starts. *)
Definition start_of (fs0 : node) (names : list string) : world :=
  {| fs := match rmSync fs0 ["web"; "dist"; "widgets"] ["web"; "dist"; "widgets"] with
           | Ok removed =>
               match mkdirSync removed ["web"; "dist"; "widgets"]
                       ["web"; "dist"; "widgets"] with
               | Ok clean => clean
               | Throw _ => fs0
               end
           | Throw _ => fs0
           end;
     trace := [ConsoleLog (Found names);
               RemovedDir ["web"; "dist"; "widgets"];
               MadeDir ["web"; "dist"; "widgets"]] |}.

End Spec.

(* ===================================================================== *)
(** ** More vocabulary: what the rest of the script is shown to do *)
(* ===================================================================== *)

Module SpecMore.
Import JsString Regex Path Fs Run Pipeline Spec.

(** [text] begins with a literal import of [form]: the word [import],
    white space, a quote, [form], a quote. *)
Definition import_of (text form : string) : Prop :=
  exists ws q1 q2 after,
    text = ("import" ++ ws ++ String q1 (form ++ String q2 after))%string
    /\ ws <> EmptyString
    /\ all_chars is_space ws = true
    /\ is_quote q1 = true
    /\ is_quote q2 = true.

(** The names of a listing that the scan queues: the directories it
    enters. *)
Definition entered_names (dirEntries : list Dirent) : list string :=
  flat_map
    (fun dirent =>
       if isDirectory dirent
          && negb (String.eqb (Fs.name dirent) "node_modules" || startsWith (Fs.name dirent) ".")
       then [Fs.name dirent] else [])
    dirEntries.

(** The names of a listing that the scan returns: the files that are
    stylesheets and not module stylesheets. *)
Definition stylesheet_names (dirEntries : list Dirent) : list string :=
  flat_map
    (fun dirent =>
       if negb (isDirectory dirent)
          && existsb (String.eqb (toLowerCase (extname (Fs.name dirent)))) CSS_EXTENSIONS
          && negb (test true CSS_MODULE_REGEX (Fs.name dirent))
       then [Fs.name dirent] else [])
    dirEntries.

(** [p] is the beginning of [q]. *)
Definition is_prefix (p q : path) : Prop := exists rest, q = p ++ rest.

(** What the loop of [collectCssFiles] keeps true of its queue and results:
    neither has a path twice, no queued directory lies below another, and
    no result lies below a queued directory. *)
Definition scan_invariant (queue results : list path) : Prop :=
  NoDup results
  /\ NoDup queue
  /\ (forall q1 q2, In q1 queue -> In q2 queue -> is_prefix q1 q2 -> q1 = q2)
  /\ (forall q r, In q queue -> In r results -> ~ is_prefix q r).

(** *** Discovery *)

(** A directory of the listing that discovery looks into: a directory whose
    name does not begin with a dot. *)
Definition considered (dirent : Dirent) : bool :=
  isDirectory dirent && negb (startsWith (Fs.name dirent) ".").

(** The directory of [dirent] under the source root holds an entry file. *)
Definition has_entry_file (WEB_ROOT : path) (fs : node) (dirent : Dirent) : bool :=
  match resolveEntryFile fs (join (SRC_ROOT WEB_ROOT) (Fs.name dirent)) with
  | Some _ => true
  | None => false
  end.

(** The directories of a listing that become targets, and the ones that are
    skipped with a warning. *)
Definition widget_dirents (WEB_ROOT : path) (fs : node) (dirEntries : list Dirent)
  : list Dirent :=
  filter (fun dirent => considered dirent && has_entry_file WEB_ROOT fs dirent) dirEntries.

Definition skipped_dirents (WEB_ROOT : path) (fs : node) (dirEntries : list Dirent)
  : list Dirent :=
  filter (fun dirent => considered dirent && negb (has_entry_file WEB_ROOT fs dirent))
    dirEntries.

(** [target] is what discovery makes of the directory it is named after:
    its entry file is the one that [resolveEntryFile] finds there, its
    source is the content of that file, and its root id is detected in that
    source with the name of the directory as the fallback. *)
Definition target_of_directory (WEB_ROOT : path) (fs : node) (target : EntryTarget)
  : Prop :=
  resolveEntryFile fs (join (SRC_ROOT WEB_ROOT) (name target)) = Some (entryFile target)
  /\ readFileSync fs (entryFile target) = Ok (entrySource target)
  /\ rootId target = detectRootId (entrySource target) (name target).

(** The ways in which discovery fails on [fs]: the source root is missing,
    the source root is not a directory, or the entry file of a directory is
    itself a directory. *)
Inductive discovery_failure (WEB_ROOT : path) (fs : node) : exn -> Prop :=
| source_root_missing :
    existsSync fs (SRC_ROOT WEB_ROOT) = false ->
    discovery_failure WEB_ROOT fs
      (Error ("Directory not found: " ++ render (SRC_ROOT WEB_ROOT)))
| source_root_is_file (content : string) :
    lookup fs (SRC_ROOT WEB_ROOT) = Some (File content) ->
    discovery_failure WEB_ROOT fs (SystemError "ENOTDIR" (SRC_ROOT WEB_ROOT))
| entry_is_directory (dirName : string) (file : path) (entries : list (string * node)) :
    resolveEntryFile fs (join (SRC_ROOT WEB_ROOT) dirName) = Some file ->
    lookup fs file = Some (Dir entries) ->
    discovery_failure WEB_ROOT fs (SystemError "EISDIR" file).

(** A project in which the entry file of the second widget is a directory. *)
Definition project_entry_is_dir : node :=
  Dir [("web",
        Dir [("src",
              Dir [("counter", Dir [("index.tsx", File widget_source)]);
                   ("gallery", Dir [("index.tsx", Dir [("View.tsx", File "export {}")])]);
                   ("clock", Dir [("main.js", File "export {}")])]);
             old_dist])].

(** A project with a hidden directory, a loose file and a directory without
    an entry file beside its widget. *)
Definition project_mixed : node :=
  Dir [("web",
        Dir [("src",
              Dir [(".cache", Dir [("index.tsx", File "export {}")]);
                   ("index.css", File "body {}");
                   ("shared", Dir [("util.ts", File "export {}")]);
                   ("counter", Dir [("index.tsx", File widget_source)])])])].

(** *** What a run leaves alone *)

(** [p] and [q] part ways: at the first component where they differ, each
    of them has one.  Neither is then at or below the other. *)
Fixpoint diverges (p q : path) : bool :=
  match p, q with
  | a :: p', b :: q' => if String.eqb a b then diverges p' q' else true
  | _, _ => false
  end.

(** The bundler leaves [p] as it is whenever it is told to write to [out]. *)
Definition bundler_keeps {Config : Type}
  (build : EntryConfig Config -> node -> result unit * node) (out p : path) : Prop :=
  forall cfg fs, outDir Config cfg = out -> lookup (snd (build cfg fs)) p = lookup fs p.

(** *** The order of the scan *)

(** What the scan of the directory [dir] lists, in order: the stylesheets
    of [dir] in the order of its listing, then what the scan lists in each
    directory that it enters from [dir], the last of the listing first. *)
#[local] Set Warnings "-register-all".
Inductive scan_order (fs : node) : path -> list path -> Prop :=
| scan_directory (dir : path) (dirEntries : list Dirent) (below : list (list path)) :
    readdirSync fs dir = Ok dirEntries ->
    Forall2 (scan_order fs) (map (join dir) (rev (entered_names dirEntries))) below ->
    scan_order fs dir (map (join dir) (stylesheet_names dirEntries) ++ concat below).
#[local] Set Warnings "register-all".

(** A widget directory with stylesheets in two directories, one of them
    nested. *)
Definition nested_styles : node :=
  Dir [("gallery",
        Dir [("base.css", File "");
             ("cards", Dir [("card.css", File "");
                            ("hover", Dir [("hover.css", File "")])]);
             ("index.tsx", File "export {}");
             ("grid", Dir [("grid.scss", File "")]);
             ("zoom.css", File "")])].

End SpecMore.

(* ===================================================================== *)
(** ** Vocabulary for the output options *)
(* ===================================================================== *)

Module SpecPlugins.
Import Plugins.

Section OutputOptions.

Variable primitive : Type.
Variable truthy_primitive : primitive -> bool.

(** The own property [key] of [v]; [undefined] when [v] has none. *)
Definition own_property (v : value primitive) (key : string) : value primitive :=
  match v with
  | Object properties =>
      match own primitive key properties with
      | Some (_, x) => x
      | None => Undefined
      end
  | _ => Undefined
  end.

(** [v] configures manual chunks: its own property [manualChunks] is
    truthy. *)
Definition has_manual_chunks (v : value primitive) : bool :=
  truthy primitive truthy_primitive (own_property v "manualChunks").

(** [after] is [before] without manual chunks: it configures none, its
    other properties are those of [before], it is an object when [before]
    configured manual chunks, and it is [before] when [before] configured
    none. *)
Definition without_manual_chunks (before after : value primitive) : Prop :=
  has_manual_chunks after = false
  /\ (forall key, key <> "manualChunks" -> own_property after key = own_property before key)
  /\ (has_manual_chunks before = true -> exists properties, after = Object properties)
  /\ (has_manual_chunks before = false -> after = before).

(** The manual chunks of [v] cannot be deleted: its own property
    [manualChunks] is truthy and not configurable, as on a frozen or sealed
    object. *)
Definition locked (v : value primitive) : bool :=
  match v with
  | Object properties =>
      match own primitive "manualChunks" properties with
      | Some (configurable, chunks) =>
          negb configurable && truthy primitive truthy_primitive chunks
      | None => false
      end
  | _ => false
  end.

(** The hook cannot treat [v] as one output of an array: [v] is [undefined]
    or [null], or its manual chunks cannot be deleted. *)
Definition refused (v : value primitive) : bool :=
  match v with
  | Undefined | Null => true
  | _ => locked v
  end.

End OutputOptions.

(** Output options as a project writes them, with booleans for the
    primitives: two outputs, the first with manual chunks given by a
    function, the second with a property [manualChunks] that is
    [undefined]. *)
Definition two_outputs : value bool :=
  Array [Object [("format", (true, Closure 1)); ("manualChunks", (true, Closure 2));
                 ("sourcemap", (true, Primitive true))];
         Object [("manualChunks", (true, Undefined)); ("sourcemap", (true, Primitive false))]].

Definition two_outputs_stripped : value bool :=
  Array [Object [("format", (true, Closure 1)); ("sourcemap", (true, Primitive true))];
         Object [("manualChunks", (true, Undefined)); ("sourcemap", (true, Primitive false))]].

End SpecPlugins.

(* ===================================================================== *)
(** ** The model on small inputs *)
(* ===================================================================== *)

Module ModelExamples.
Import JsString Regex Path Fs Pipeline.

Example extname_plain : extname "index.html" = ".html".
Proof. reflexivity. Qed.

Example extname_last_dot : extname "index.coffee.md" = ".md".
Proof. reflexivity. Qed.

Example extname_trailing_dot : extname "index." = ".".
Proof. reflexivity. Qed.

Example extname_no_dot : extname "index" = "".
Proof. reflexivity. Qed.

Example extname_dotfile : extname ".index" = "".
Proof. reflexivity. Qed.

Example extname_dotfile_with_extension : extname ".index.md" = ".md".
Proof. reflexivity. Qed.

Example relative_sibling :
  posix (relative ["web"; "src"; "counter"] ["web"; "src"; "index.css"]) = "../index.css".
Proof. reflexivity. Qed.

Example relative_below_entry :
  posix (relative ["web"; "src"; "counter"] ["web"; "src"; "counter"; "theme"; "dark.css"])
  = "theme/dark.css".
Proof. reflexivity. Qed.

Example relative_same : posix (relative ["web"; "src"] ["web"; "src"]) = "".
Proof. reflexivity. Qed.

Example normalizedRelative_below :
  normalizedRelative ["web"; "src"; "counter"] ["web"; "src"; "counter"; "index.css"]
  = "./index.css".
Proof. reflexivity. Qed.

Example normalizedRelative_above :
  normalizedRelative ["web"; "src"; "counter"] ["web"; "src"; "index.css"]
  = "../index.css".
Proof. reflexivity. Qed.

Example escapeForRegex_path : escapeForRegex "./a(b).css" = "\./a\(b\)\.css".
Proof. reflexivity. Qed.

Example toLowerCase_extension : toLowerCase ".SCSS" = ".scss".
Proof. reflexivity. Qed.

Example module_regex_any_case : test true CSS_MODULE_REGEX "Button.MODULE.css" = true.
Proof. reflexivity. Qed.

Example module_regex_needs_both_dots : test true CSS_MODULE_REGEX "module.css" = false.
Proof. reflexivity. Qed.

Example detectRootId_white_space :
  detectRootId "document.getElementById ( 'app' )" "widget" = "app".
Proof. reflexivity. Qed.

Example detectRootId_empty_argument :
  detectRootId "document.getElementById('')" "widget" = "widget-root".
Proof. reflexivity. Qed.

Example detectRootId_variable_argument :
  detectRootId "document.getElementById(rootId)" "widget" = "widget-root".
Proof. reflexivity. Qed.

Example assign_new_key :
  map fst (assign [] "counter" {| js := "widgets/counter.js"; css := None; rootId_ := "r" |})
  = ["counter"].
Proof. reflexivity. Qed.

Example assign_proto :
  assign [] "__proto__" {| js := "widgets/__proto__.js"; css := None; rootId_ := "r" |} = [].
Proof. reflexivity. Qed.

Example rmSync_then_mkdirSync :
  match rmSync (Dir [("dist", Dir [("widgets", Dir [("old.js", File "")])])])
          ["dist"; "widgets"] ["dist"; "widgets"] with
  | Ok removed => mkdirSync removed ["dist"; "widgets"] ["dist"; "widgets"]
  | Throw e => Throw e
  end
  = Ok (Dir [("dist", Dir [("widgets", Dir [])])]).
Proof. reflexivity. Qed.

Example rmSync_missing :
  rmSync (Dir [("src", Dir [])]) ["dist"; "widgets"] ["dist"; "widgets"]
  = Ok (Dir [("src", Dir [])]).
Proof. reflexivity. Qed.

Example rmSync_through_file :
  rmSync (Dir [("dist", File "")]) ["dist"; "widgets"] ["dist"; "widgets"]
  = Throw (SystemError "ENOTDIR" ["dist"; "widgets"]).
Proof. reflexivity. Qed.

Example readdirSync_through_file :
  readdirSync (Dir [("src", Dir [("plain.css", File "")])]) ["src"; "plain.css"; "sub"]
  = Throw (SystemError "ENOTDIR" ["src"; "plain.css"; "sub"]).
Proof. reflexivity. Qed.

Example readdirSync_missing :
  readdirSync (Dir [("src", Dir [("plain.css", File "")])]) ["src"; "theme"; "sub"]
  = Throw (SystemError "ENOENT" ["src"; "theme"; "sub"]).
Proof. reflexivity. Qed.

Example readFileSync_through_file :
  readFileSync (Dir [("src", File "")]) ["src"; "index.tsx"]
  = Throw (SystemError "ENOTDIR" ["src"; "index.tsx"]).
Proof. reflexivity. Qed.

Example readdirSync_listing :
  readdirSync (Dir [("src", Dir [("a", File ""); ("b", Dir [])])]) ["src"]
  = Ok [{| Fs.name := "a"; isDirectory := false |}; {| Fs.name := "b"; isDirectory := true |}].
Proof. reflexivity. Qed.

End ModelExamples.

(* ===================================================================== *)
(** ** Strings and regular expressions *)
(* ===================================================================== *)

Module StringFacts.
Import JsString Regex Spec.

(** Case analysis on the 256 characters. *)
Ltac each_char c :=
  destruct c as [[] [] [] [] [] [] [] []]; vm_compute; try reflexivity; try discriminate.

Lemma length_append (a b : string) :
  String.length (a ++ b) = String.length a + String.length b.
Proof. induction a as [|x a IH]; simpl; [reflexivity | now rewrite IH]. Qed.

Lemma strip_prefix_app (p s : string) : strip_prefix p (p ++ s) = Some s.
Proof.
  induction p as [|a p IH]; simpl; [reflexivity|].
  now rewrite Ascii.eqb_refl.
Qed.

Lemma strip_prefix_inv (p s s' : string) :
  strip_prefix p s = Some s' -> s = (p ++ s')%string.
Proof.
  revert s; induction p as [|a p IH]; simpl; intros s H.
  - now injection H.
  - destruct s as [|b s]; [discriminate|].
    destruct (Ascii.eqb_spec a b) as [->|]; [|discriminate].
    now rewrite (IH _ H).
Qed.

Lemma span_skip (p : ascii -> bool) (s : string) : (span p s ++ skip p s)%string = s.
Proof.
  induction s as [|c s IH]; simpl; [reflexivity|].
  destruct (p c); simpl; [now rewrite IH | reflexivity].
Qed.

Lemma all_chars_span (p : ascii -> bool) (s : string) : all_chars p (span p s) = true.
Proof.
  induction s as [|c s IH]; simpl; [reflexivity|].
  destruct (p c) eqn:E; simpl; [now rewrite E | reflexivity].
Qed.

Lemma skip_app (p : ascii -> bool) (a b : string) :
  all_chars p a = true -> starts_in p b = false -> skip p (a ++ b) = b.
Proof.
  induction a as [|c a IH]; simpl; intros Ha Hb.
  - destruct b as [|c b]; simpl in *; [reflexivity | now rewrite Hb].
  - apply andb_true_iff in Ha as [Hc Ha]. rewrite Hc. now apply IH.
Qed.

Lemma consumed_app (a b : string) : consumed (a ++ b) b = a.
Proof.
  unfold consumed. rewrite length_append.
  replace (String.length a + String.length b - String.length b) with (String.length a) by lia.
  induction a as [|c a IH]; simpl.
  - destruct b; reflexivity.
  - now rewrite IH.
Qed.

Lemma drop_app (a b : string) : drop (String.length a) (a ++ b) = b.
Proof. induction a as [|c a IH]; simpl; [now destruct b | exact IH]. Qed.

(** A literal without the [i] flag is a prefix test. *)
Lemma lit_k_strip {A : Type} (l s : string) (k : string -> option A) :
  lit_k false l s k =
  match strip_prefix l s with
  | Some s' => k s'
  | None => None
  end.
Proof.
  revert s; induction l as [|a l IH]; simpl; intros s; [reflexivity|].
  destruct s as [|b s]; [reflexivity|].
  unfold char_eq. destruct (Ascii.eqb a b); [apply IH | reflexivity].
Qed.

(** When what follows cannot begin with a character of the class, the greedy
    repetition never gives anything back. *)
Lemma star_k_det {A : Type} (p : ascii -> bool) (s : string) (k : string -> option A) :
  (forall t, starts_in p t = true -> k t = None) ->
  star_k p s k = k (skip p s).
Proof.
  intros Hk. induction s as [|c s IH]; simpl; [reflexivity|].
  destruct (p c) eqn:E; [|reflexivity].
  rewrite IH. destruct (k (skip p s)) eqn:K; [reflexivity|].
  apply Hk. simpl. exact E.
Qed.

Lemma space_not_quote (c : ascii) : is_space c = true -> is_quote c = false.
Proof. each_char c. Qed.

Lemma space_not_open (c : ascii) : is_space c = true -> Ascii.eqb "("%char c = false.
Proof. each_char c. Qed.

Lemma space_not_close (c : ascii) : is_space c = true -> Ascii.eqb ")"%char c = false.
Proof. each_char c. Qed.

#[local] Arguments match_here : simpl never.

(** The leftmost-match search, taken apart. *)
Lemma exec_some (i : bool) (r : regex) (s : string) (cap : option string) :
  exec i r s = Some cap ->
  exists n, n <= String.length s /\ match_here i r (drop n s) = Some cap
            /\ none_before i r s n = true.
Proof.
  induction s as [|c s IH]; simpl.
  - destruct (match_here i r "") eqn:E; [|discriminate].
    intros H; injection H as ->. exists 0. simpl. auto.
  - destruct (match_here i r (String c s)) eqn:E.
    + intros H; injection H as ->. exists 0. simpl. split; [lia|]. auto.
    + intros H. destruct (IH H) as (n & Hn & Hm & Hb).
      exists (S n). simpl. rewrite E. split; [lia|]. auto.
Qed.

Lemma exec_none (i : bool) (r : regex) (s : string) :
  exec i r s = None -> forall n, match_here i r (drop n s) = None.
Proof.
  induction s as [|c s IH]; simpl.
  - destruct (match_here i r "") eqn:E; [discriminate|].
    intros _ n. destruct n; exact E.
  - destruct (match_here i r (String c s)) eqn:E; [discriminate|].
    intros H n. destruct n; simpl; [exact E | now apply IH].
Qed.

Lemma exec_first (i : bool) (r : regex) (s : string) (n : nat) (cap : option string) :
  none_before i r s n = true -> match_here i r (drop n s) = Some cap ->
  exec i r s = Some cap.
Proof.
  revert s; induction n as [|n IH]; intros s; simpl.
  - intros _ H. destruct s; simpl in *; now rewrite H.
  - destruct s as [|c s]; simpl.
    + destruct (match_here i r "") eqn:E; [discriminate|]. intros _ H. congruence.
    + destruct (match_here i r (String c s)) eqn:E; [discriminate|].
      intros Hb H. now apply IH.
Qed.

Lemma none_before_spec (i : bool) (r : regex) (s : string) (n : nat) :
  none_before i r s n = true -> forall m, m < n -> match_here i r (drop m s) = None.
Proof.
  revert s; induction n as [|n IH]; intros s; simpl; [intros _ m Hm; lia|].
  destruct (match_here i r s) eqn:E; [discriminate|].
  destruct s as [|c s].
  - intros _ m _. destruct m; exact E.
  - intros Hb m Hm. destruct m; simpl; [exact E|]. apply IH; [exact Hb | lia].
Qed.

Lemma none_before_intro (i : bool) (r : regex) (s : string) (n : nat) :
  (forall m, m < n -> match_here i r (drop m s) = None) -> none_before i r s n = true.
Proof.
  revert s; induction n as [|n IH]; intros s H; simpl; [reflexivity|].
  pose proof (H 0 ltac:(lia)) as H0. destruct s as [|c s]; simpl in H0; rewrite H0.
  - reflexivity.
  - apply IH. intros m Hm. apply (H (S m)). lia.
Qed.

Lemma starts_in_lit (p : ascii -> bool) (a : ascii) (rest : string) :
  (forall c, p c = true -> Ascii.eqb a c = false) ->
  forall t, starts_in p t = true ->
  forall (A : Type) (k : string -> option A), lit_k false (String a rest) t k = None.
Proof.
  intros Hp t Ht A k. destruct t as [|c t]; simpl in *; [reflexivity|].
  unfold char_eq. now rewrite (Hp c Ht).
Qed.

Lemma not_quote_not_quote (c : ascii) : not_quote c = true -> is_quote c = false.
Proof. unfold not_quote. now destruct (is_quote c). Qed.

(** A match of [ROOT_ID_REGEX] at the start of [s] is a lookup call that [s]
    begins with, and its capture is the argument of the call. *)
Lemma root_match_inv (s : string) (cap : option string) :
  match_here false Pipeline.ROOT_ID_REGEX s = Some cap ->
  exists id, cap = Some id /\ lookup_call s id.
Proof.
  unfold match_here, Pipeline.ROOT_ID_REGEX. cbn [rmatch]. intros H.
  rewrite lit_k_strip in H.
  destruct (strip_prefix "getElementById" s) as [s1|] eqn:E1; [|discriminate].
  rewrite star_k_det in H
    by (intros t Ht; apply starts_in_lit with (p := is_space);
        [exact space_not_open | exact Ht]).
  rewrite lit_k_strip in H.
  destruct (strip_prefix "(" (skip is_space s1)) as [s3|] eqn:E2; [|discriminate].
  rewrite star_k_det in H
    by (intros [|c t] Ht; simpl in *; [reflexivity | now rewrite (space_not_quote c Ht)]).
  destruct (skip is_space s3) as [|q1 s5] eqn:E3; [discriminate|].
  destruct (is_quote q1) eqn:Q1; [|discriminate].
  destruct s5 as [|c s5]; [discriminate|].
  destruct (not_quote c) eqn:NQ; [|discriminate].
  rewrite star_k_det in H
    by (intros [|d t] Ht; simpl in *; [reflexivity | now rewrite (not_quote_not_quote d Ht)]).
  destruct (skip not_quote s5) as [|q2 s7] eqn:E4; [discriminate|].
  destruct (is_quote q2) eqn:Q2; [|discriminate].
  rewrite star_k_det in H
    by (intros t Ht; apply starts_in_lit with (p := is_space);
        [exact space_not_close | exact Ht]).
  rewrite lit_k_strip in H.
  destruct (strip_prefix ")" (skip is_space s7)) as [rest|] eqn:E5; [|discriminate].
  injection H as <-.
  assert (Hs5 : String c s5 = (String c (span not_quote s5) ++ String q2 s7)%string).
  { simpl. rewrite <- E4. now rewrite span_skip. }
  exists (String c (span not_quote s5)). split.
  - rewrite Hs5 at 1. now rewrite consumed_app.
  - exists (span is_space s1), (span is_space s3), q1, q2, (span is_space s7), rest.
    repeat split; auto using all_chars_span; try discriminate.
    + rewrite (strip_prefix_inv _ _ _ E1). f_equal.
      rewrite <- (span_skip is_space s1) at 1. f_equal.
      rewrite (strip_prefix_inv _ _ _ E2). f_equal.
      rewrite <- (span_skip is_space s3) at 1. f_equal.
      rewrite E3. f_equal. rewrite Hs5. simpl. f_equal. f_equal. f_equal.
      rewrite <- (span_skip is_space s7) at 1. f_equal.
      exact (strip_prefix_inv _ _ _ E5).
    + simpl. rewrite NQ. apply all_chars_span.
Qed.

Lemma root_match_intro (s id : string) :
  lookup_call s id -> match_here false Pipeline.ROOT_ID_REGEX s = Some (Some id).
Proof.
  intros (ws1 & ws2 & q1 & q2 & ws3 & rest & -> & H1 & H2 & Q1 & Hne & Hid & Q2 & H3).
  unfold match_here, Pipeline.ROOT_ID_REGEX. cbn [rmatch].
  rewrite lit_k_strip, strip_prefix_app.
  rewrite star_k_det
    by (intros t Ht; apply starts_in_lit with (p := is_space);
        [exact space_not_open | exact Ht]).
  rewrite skip_app by (auto; reflexivity).
  rewrite lit_k_strip, strip_prefix_app.
  rewrite star_k_det
    by (intros [|c t] Ht; simpl in *; [reflexivity | now rewrite (space_not_quote c Ht)]).
  rewrite skip_app; [|exact H2|].
  2:{ simpl. destruct (is_space q1) eqn:E; [|reflexivity].
      apply space_not_quote in E. congruence. }
  rewrite Q1.
  destruct id as [|c id]; [congruence|]. simpl in Hid.
  apply andb_true_iff in Hid as [Hc Hid]. cbn [append]. rewrite Hc.
  rewrite star_k_det
    by (intros [|d t] Ht; simpl in *; [reflexivity | now rewrite (not_quote_not_quote d Ht)]).
  rewrite skip_app; [|exact Hid|].
  2:{ simpl. unfold not_quote. now rewrite Q2. }
  rewrite Q2.
  rewrite star_k_det
    by (intros t Ht; apply starts_in_lit with (p := is_space);
        [exact space_not_close | exact Ht]).
  rewrite skip_app by (auto; reflexivity).
  rewrite lit_k_strip. cbn [strip_prefix]. rewrite Ascii.eqb_refl.
  do 2 f_equal.
  exact (consumed_app (String c id) _).
Qed.

Lemma take_drop (n : nat) (s : string) :
  n <= String.length s ->
  s = (substring 0 n s ++ drop n s)%string /\ String.length (substring 0 n s) = n.
Proof.
  revert s; induction n as [|n IH]; intros s Hn.
  - destruct s; simpl; auto.
  - destruct s as [|c s]; simpl in *; [lia|].
    destruct (IH s ltac:(lia)) as [H1 H2]. split; [now rewrite <- H1 | now rewrite H2].
Qed.

Lemma detected_at_match (source : string) (n : nat) (id : string) :
  detected_at source n id <->
  n <= String.length source
  /\ match_here false Pipeline.ROOT_ID_REGEX (drop n source) = Some (Some id).
Proof.
  split.
  - intros (before & text & -> & <- & Hcall). split.
    + rewrite length_append. lia.
    + rewrite drop_app. now apply root_match_intro.
  - intros [Hn Hm]. destruct (take_drop n source Hn) as [Hs Hl].
    exists (substring 0 n source), (drop n source). repeat split; auto.
    destruct (root_match_inv _ _ Hm) as (id' & Heq & Hcall). now injection Heq as ->.
Qed.

(** Nothing is detected before offset [n] when the search finds nothing
    there. *)
Lemma detected_not_before (source : string) (n : nat) :
  none_before false Pipeline.ROOT_ID_REGEX source n = true ->
  forall n' id', detected_at source n' id' -> n <= n'.
Proof.
  intros Hb n' id' Hd. apply detected_at_match in Hd as [_ Hm].
  destruct (le_lt_dec n n') as [|Hlt]; [assumption|].
  rewrite (none_before_spec _ _ _ _ Hb n' Hlt) in Hm. discriminate.
Qed.

Lemma nothing_detected (source : string) :
  exec false Pipeline.ROOT_ID_REGEX source = None ->
  forall n id, ~ detected_at source n id.
Proof.
  intros He n id Hd. apply detected_at_match in Hd as [_ Hm].
  rewrite (exec_none _ _ _ He n) in Hm. discriminate.
Qed.

End StringFacts.

(* ===================================================================== *)
(** ** RootIdDetector *)
(* ===================================================================== *)

Module RootIdDetector.
Import JsString Regex Spec StringFacts Pipeline.

(** C6.  For every entry source and fallback name: when a lookup call (a
    [getElementById] call on one quoted string argument) is detected in the
    source, [detectRootId] returns the argument of the first one, as it is
    written; when none is detected it returns the fallback name followed by
    [-root]. *)
Theorem detectRootId_first_lookup_call (entrySource fallbackName : string) :
  (forall n id,
      detected_at entrySource n id ->
      (forall n' id', detected_at entrySource n' id' -> n <= n') ->
      detectRootId entrySource fallbackName = id)
  /\ ((forall n id, ~ detected_at entrySource n id) ->
      detectRootId entrySource fallbackName = (fallbackName ++ "-root")%string).
Proof.
  split.
  - intros n id Hd Hmin.
    pose proof Hd as (_ & text & _ & _ & Hcall).
    destruct Hcall as (_ & _ & _ & _ & _ & _ & _ & _ & _ & _ & Hne & _).
    apply detected_at_match in Hd as [Hn Hm].
    assert (Hb : none_before false ROOT_ID_REGEX entrySource n = true).
    { apply none_before_intro. intros m Hlt.
      destruct (match_here false ROOT_ID_REGEX (drop m entrySource)) as [cap|] eqn:E;
        [|reflexivity].
      destruct (root_match_inv _ _ E) as (id' & -> & _).
      assert (Hd' : detected_at entrySource m id') by (apply detected_at_match; split; [lia | exact E]).
      specialize (Hmin _ _ Hd'). lia. }
    unfold detectRootId. rewrite (exec_first _ _ _ _ _ Hb Hm).
    destruct (String.eqb_spec id ""); [contradiction | reflexivity].
  - intros Hnone. unfold detectRootId.
    destruct (exec false ROOT_ID_REGEX entrySource) as [cap|] eqn:E; [|reflexivity].
    exfalso. destruct (exec_some _ _ _ _ E) as (n & Hn & Hm & _).
    destruct (root_match_inv _ _ Hm) as (id & -> & _).
    apply (Hnone n id). apply detected_at_match. auto.
Qed.

(** The entry of the repository, and a source that looks nothing up. *)
Lemma detectRootId_first_lookup_call_witness :
  detectRootId "createRoot(document.getElementById('example-root')!).render(" "hello-world"
  = "example-root"
  /\ detectRootId "export default App" "hello-world" = "hello-world-root".
Proof.
  split.
  - apply (proj1 (detectRootId_first_lookup_call _ "hello-world") 20 "example-root").
    + exists "createRoot(document.", "getElementById('example-root')!).render(".
      split; [reflexivity | split; [reflexivity|]].
      exists "", "", "'"%char, "'"%char, "", "!).render(".
      repeat split; try reflexivity; discriminate.
    + apply detected_not_before. vm_compute. reflexivity.
  - apply (proj2 (detectRootId_first_lookup_call "export default App" "hello-world")).
    apply nothing_detected. vm_compute. reflexivity.
Defined.

End RootIdDetector.

(* ===================================================================== *)
(** ** EntryDiscovery: the entry file of a directory *)
(* ===================================================================== *)

Module EntryResolution.
Import JsString Path Fs Spec Pipeline.

Lemma first_existing_find (fs : node) (dir : path) (candidates : list string) :
  first_existing fs dir candidates = first_under candidates fs dir.
Proof.
  unfold first_under. induction candidates as [|c rest IH]; simpl; [reflexivity|].
  destruct (existsSync fs (join dir c)); [reflexivity | exact IH].
Qed.

(** C1, as the specification words it: the typed extension is tried before
    the untyped one with markup.  A directory with [index.ts] and
    [index.jsx] resolves to [index.jsx], not to [index.ts]. *)
Lemma resolveEntryFile_not_typed_first :
  resolveEntryFile dir_ts_and_jsx ["widget"] = Some ["widget"; "index.jsx"]
  /\ first_under (priority TYPED_FIRST) dir_ts_and_jsx ["widget"]
     = Some ["widget"; "index.ts"]
  /\ resolveEntryFile dir_ts_and_jsx ["widget"]
     <> first_under (priority TYPED_FIRST) dir_ts_and_jsx ["widget"].
Proof. repeat split; try reflexivity. vm_compute. discriminate. Qed.

Lemma first_existing_some (fs : node) (dir : path) (candidates : list string)
  (file : path) :
  first_existing fs dir candidates = Some file <->
  exists before c after,
    candidates = before ++ c :: after
    /\ file = join dir c
    /\ existsSync fs (join dir c) = true
    /\ forall b, In b before -> existsSync fs (join dir b) = false.
Proof.
  split.
  - induction candidates as [|c rest IH]; simpl; [discriminate|].
    destruct (existsSync fs (join dir c)) eqn:E.
    + intros H; injection H as <-. exists [], c, rest. simpl. tauto.
    + intros H. destruct (IH H) as (before & c' & after & -> & -> & Hc & Hb).
      exists (c :: before), c', after. repeat split; auto.
      intros b [<- | Hin]; auto.
  - intros (before & c & after & -> & -> & Hc & Hb).
    induction before as [|b before IH]; simpl.
    + now rewrite Hc.
    + rewrite (Hb b) by (simpl; auto). apply IH. intros; apply Hb; simpl; auto.
Qed.

Lemma first_existing_none (fs : node) (dir : path) (candidates : list string) :
  first_existing fs dir candidates = None <->
  forall c, In c candidates -> existsSync fs (join dir c) = false.
Proof.
  induction candidates as [|c rest IH]; simpl; [tauto|].
  destruct (existsSync fs (join dir c)) eqn:E.
  - split; [discriminate|]. intros H. rewrite (H c) in E by auto. discriminate.
  - rewrite IH. split; [intros H b [<- | Hb]; auto | auto].
Qed.

(** C1, amended.  For each of the basenames [index] and [main], in that
    order, the extensions are tried typed with markup, untyped with markup,
    typed, untyped; for every directory, [resolveEntryFile] returns the first
    existing file under that ordering (the one before which no candidate
    exists), and nothing when no candidate exists. *)
Theorem resolveEntryFile_first_in_priority (fs : node) (entryDir : path) :
  priority MARKUP_FIRST
  = ["index.tsx"; "index.jsx"; "index.ts"; "index.js";
     "main.tsx"; "main.jsx"; "main.ts"; "main.js"]
  /\ resolveEntryFile fs entryDir = first_under (priority MARKUP_FIRST) fs entryDir
  /\ (forall file,
        resolveEntryFile fs entryDir = Some file <->
        exists before c after,
          priority MARKUP_FIRST = before ++ c :: after
          /\ file = join entryDir c
          /\ existsSync fs (join entryDir c) = true
          /\ forall b, In b before -> existsSync fs (join entryDir b) = false)
  /\ (resolveEntryFile fs entryDir = None <->
      forall c, In c (priority MARKUP_FIRST) -> existsSync fs (join entryDir c) = false).
Proof.
  split; [reflexivity|]. split; [|split].
  - unfold resolveEntryFile. now rewrite first_existing_find.
  - intros file. apply (first_existing_some fs entryDir ENTRY_FILES file).
  - apply (first_existing_none fs entryDir ENTRY_FILES).
Qed.

(** C2, as stated: a directory with [index.js] and [main.tsx] holds a
    typed-markup entry file and an untyped one, and resolves to [index.js]. *)
Lemma typed_markup_does_not_always_win :
  resolveEntryFile dir_js_and_tsx ["widget"] = Some ["widget"; "index.js"]
  /\ ~ typed_markup_wins dir_js_and_tsx ["widget"].
Proof.
  split; [reflexivity|]. intros H.
  destruct H as (base & Hin & Hres).
  - exists "main". split; [simpl; auto | reflexivity].
  - exists "index". split; [simpl; auto | reflexivity].
  - destruct Hin as [<- | [<- | []]]; vm_compute in Hres; discriminate.
Qed.

(** C2, amended.  For every directory that contains a typed-markup entry
    file [base.tsx] and an untyped entry file, resolution chooses [base.tsx]
    as long as no entry file of an earlier basename exists: [index.tsx]
    whenever it is there, [main.tsx] when the directory has no [index]
    entry file at all. *)
Theorem typed_markup_preferred (fs : node) (entryDir : path) (base base' : string) :
  In base BASENAMES -> In base' BASENAMES ->
  existsSync fs (join entryDir (base ++ ".tsx")) = true ->
  existsSync fs (join entryDir (base' ++ ".js")) = true ->
  (base = "main" ->
   forall ext, In ext MARKUP_FIRST -> existsSync fs (join entryDir ("index" ++ ext)) = false) ->
  resolveEntryFile fs entryDir = Some (join entryDir (base ++ ".tsx")).
Proof.
  intros Hb _ Htsx _ Hindex.
  unfold resolveEntryFile, ENTRY_FILES.
  destruct Hb as [<- | [<- | []]]; cbn [first_existing].
  - change ("index" ++ ".tsx")%string with "index.tsx" in Htsx. now rewrite Htsx.
  - specialize (Hindex eq_refl).
    pose proof (Hindex ".tsx" ltac:(simpl; auto)) as H1.
    pose proof (Hindex ".jsx" ltac:(simpl; auto)) as H2.
    pose proof (Hindex ".ts" ltac:(simpl; auto)) as H3.
    pose proof (Hindex ".js" ltac:(simpl; auto)) as H4.
    cbn [append] in H1, H2, H3, H4, Htsx.
    now rewrite H1, H2, H3, H4, Htsx.
Qed.

Lemma typed_markup_preferred_witness :
  resolveEntryFile dir_tsx_and_js ["widget"] = Some ["widget"; "index.tsx"].
Proof.
  apply (typed_markup_preferred dir_tsx_and_js ["widget"] "index" "main").
  - simpl; auto.
  - simpl; auto.
  - reflexivity.
  - reflexivity.
  - discriminate.
Defined.

End EntryResolution.

(* ===================================================================== *)
(** ** The file system *)
(* ===================================================================== *)

Module FsFacts.
Import JsString Path Fs.

Lemma size_Dir (entries : list (string * node)) : size (Dir entries) = S (sizes entries).
Proof. reflexivity. Qed.

Lemma size_pos (n : node) : 1 <= size n.
Proof. destruct n; simpl; lia. Qed.

Lemma weight_pos (fs : node) (p : path) : 1 <= weight fs p.
Proof. unfold weight. destruct (lookup fs p); [apply size_pos | lia]. Qed.

Lemma sizes_unbind (name : string) (l : list (string * node)) :
  sizes (unbind name l) <= sizes l.
Proof.
  induction l as [|[n c] l IH]; simpl; [lia|].
  destruct (String.eqb n name); simpl; lia.
Qed.

Lemma sizes_bindings (l : list (string * node)) : sizes (bindings l) <= sizes l.
Proof.
  induction l as [|[n c] l IH]; simpl; [lia|].
  pose proof (sizes_unbind n (bindings l)). lia.
Qed.

Lemma in_unbind (name : string) (e : string * node) (l : list (string * node)) :
  In e (unbind name l) <-> In e l /\ fst e <> name.
Proof.
  unfold unbind. rewrite filter_In, negb_true_iff. now rewrite String.eqb_neq.
Qed.

Lemma assoc_bindings (n : string) (c : node) (l : list (string * node)) :
  In (n, c) (bindings l) -> assoc n l = Some c.
Proof.
  induction l as [|[n0 c0] l IH]; simpl; [tauto|].
  intros [H | H].
  - injection H as -> ->. now rewrite String.eqb_refl.
  - apply in_unbind in H as [H Hne]. simpl in Hne.
    destruct (String.eqb_spec n0 n); [congruence | auto].
Qed.

Lemma in_bindings_names (l : list (string * node)) :
  NoDup (map fst (bindings l)).
Proof.
  induction l as [|[n c] l IH]; simpl; [constructor|].
  constructor.
  - intros H. apply in_map_iff in H as (e & He & Hin).
    apply in_unbind in Hin as [_ Hne]. congruence.
  - unfold unbind. clear -IH. induction (bindings l) as [|e b IHb]; simpl; [constructor|].
    inversion IH; subst.
    destruct (negb (String.eqb (fst e) n)); simpl; auto.
    constructor; auto.
    intros H. apply in_map_iff in H as (e' & He' & Hin).
    apply filter_In in Hin as [Hin _]. apply H1. rewrite <- He'. now apply in_map.
Qed.

Lemma lookup_app (fs : node) (p q : path) :
  lookup fs (p ++ q) =
  match lookup fs p with
  | Some n => lookup n q
  | None => None
  end.
Proof.
  revert fs; induction p as [|name p IH]; intros fs; simpl; [reflexivity|].
  destruct fs as [|entries]; [reflexivity|].
  destruct (assoc name entries); [apply IH | reflexivity].
Qed.

Lemma lookup_join (fs : node) (p : path) (name : string) :
  lookup fs (join p name) =
  match lookup fs p with
  | Some (Dir entries) => assoc name entries
  | _ => None
  end.
Proof.
  unfold join. rewrite lookup_app. destruct (lookup fs p) as [[|entries]|]; simpl; auto.
  destruct (assoc name entries); reflexivity.
Qed.

Lemma assoc_unbind_same (name : string) (l : list (string * node)) :
  assoc name (unbind name l) = None.
Proof.
  induction l as [|[n c] l IH]; simpl; [reflexivity|].
  destruct (String.eqb n name) eqn:E; simpl; [exact IH | now rewrite E].
Qed.

Lemma assoc_rebind_same (name : string) (c c' : node) (l : list (string * node)) :
  assoc name l = Some c -> assoc name (rebind name c' l) = Some c'.
Proof.
  induction l as [|[n d] l IH]; simpl; [discriminate|].
  destruct (String.eqb n name) eqn:E; simpl; rewrite E; auto.
Qed.

Lemma assoc_rebind_other (name other : string) (c' : node) (l : list (string * node)) :
  other <> name -> assoc other (rebind name c' l) = assoc other l.
Proof.
  intros Hne. induction l as [|[n d] l IH]; simpl; [reflexivity|].
  destruct (String.eqb_spec n name) as [->|]; simpl.
  - destruct (String.eqb_spec name other); [congruence | reflexivity].
  - destruct (String.eqb n other); [reflexivity | exact IH].
Qed.

Lemma assoc_app (name : string) (l l' : list (string * node)) :
  assoc name (l ++ l') =
  match assoc name l with
  | Some c => Some c
  | None => assoc name l'
  end.
Proof.
  induction l as [|[n d] l IH]; simpl; [reflexivity|].
  destruct (String.eqb n name); [reflexivity | exact IH].
Qed.

Lemma rmSync_cons (fs : node) (name name' : string) (p full : path) :
  rmSync fs (name :: name' :: p) full =
  match fs with
  | Dir entries =>
      match assoc name entries with
      | Some c =>
          match rmSync c (name' :: p) full with
          | Ok c' => Ok (Dir (rebind name c' entries))
          | Throw e => Throw e
          end
      | None => Ok fs
      end
  | File _ => Throw (SystemError "ENOTDIR" full)
  end.
Proof. reflexivity. Qed.

(** After [rmSync], nothing is left at the path. *)
Lemma lookup_rmSync (fs : node) (p full : path) (removed : node) :
  rmSync fs p full = Ok removed -> p <> [] -> lookup removed p = None.
Proof.
  revert fs removed; induction p as [|name p IH]; intros fs removed H Hp; [congruence|].
  destruct p as [|name' p].
  - cbn [rmSync] in H. destruct fs as [content|entries]; [discriminate|].
    injection H as <-. cbn [lookup]. now rewrite assoc_unbind_same.
  - rewrite rmSync_cons in H. destruct fs as [content|entries]; [discriminate|].
    destruct (assoc name entries) as [c|] eqn:E.
    + destruct (rmSync c (name' :: p) full) as [c'|e] eqn:Ec; [|discriminate].
      injection H as <-. cbn [lookup]. rewrite (assoc_rebind_same _ _ _ _ E).
      apply (IH _ _ Ec). discriminate.
    + injection H as <-. cbn [lookup]. now rewrite E.
Qed.

(** [rmSync] throws exactly when the path runs into a regular file. *)
Lemma rmSync_outcome (fs : node) (p full : path) :
  match rmSync fs p full with
  | Ok _ => blocked fs p = false
  | Throw e => blocked fs p = true /\ e = SystemError "ENOTDIR" full
  end.
Proof.
  revert fs; induction p as [|name p IH]; intros fs; [reflexivity|].
  destruct p as [|name' p].
  - cbn [rmSync blocked]. destruct fs as [content|entries]; [auto|].
    now destruct (assoc name entries) as [[content|sub]|].
  - rewrite rmSync_cons. cbn [blocked]. destruct fs as [content|entries]; [auto|].
    destruct (assoc name entries) as [c|]; [|reflexivity].
    specialize (IH c). now destruct (rmSync c (name' :: p) full).
Qed.

(** The model's test for a path that runs into a regular file. *)
Lemma blocked_spec (fs : node) (p : path) :
  blocked fs p = true <-> Spec.runs_into_file fs p.
Proof.
  split.
  - revert fs; induction p as [|name p IH]; intros fs; [discriminate|].
    cbn [blocked]. destruct fs as [content|entries].
    + intros _. exists [], content, (name :: p). repeat split. discriminate.
    + destruct (assoc name entries) as [c|] eqn:E; [|discriminate].
      intros H. apply IH in H as (before & content & after & -> & Hne & Hl).
      exists (name :: before), content, after. repeat split; [exact Hne|].
      cbn [lookup]. now rewrite E.
  - intros (before & content & after & -> & Hne & Hl).
    revert fs Hl; induction before as [|name before IH]; intros fs Hl.
    + cbn [lookup] in Hl. injection Hl as ->.
      destruct after; [congruence | reflexivity].
    + cbn [lookup] in Hl. destruct fs as [c0|entries]; [discriminate|].
      cbn [app blocked]. destruct (assoc name entries) as [c|]; [|discriminate].
      now apply IH.
Qed.

Lemma mkdirSync_fresh_returns (p full : path) :
  exists made, mkdirSync (Dir []) p full = Ok made.
Proof.
  induction p as [|name p (made & IH)]; simpl; [eauto|]. rewrite IH. eauto.
Qed.

(** Where [rmSync] has returned, [mkdirSync] returns. *)
Lemma mkdirSync_after_rmSync (fs : node) (p full full' : path) (removed : node) :
  rmSync fs p full = Ok removed -> p <> [] ->
  exists clean, mkdirSync removed p full' = Ok clean.
Proof.
  revert fs removed; induction p as [|name p IH]; intros fs removed H Hp; [congruence|].
  destruct p as [|name' p].
  - cbn [rmSync] in H. destruct fs as [content|entries]; [discriminate|].
    injection H as <-. cbn [mkdirSync]. rewrite assoc_unbind_same. eauto.
  - rewrite rmSync_cons in H. destruct fs as [content|entries]; [discriminate|].
    destruct (assoc name entries) as [c|] eqn:E.
    + destruct (rmSync c (name' :: p) full) as [c'|e] eqn:Ec; [|discriminate].
      injection H as <-.
      destruct (IH _ _ Ec ltac:(discriminate)) as (clean & Hclean).
      change (mkdirSync (Dir (rebind name c' entries)) (name :: name' :: p) full')
        with (match assoc name (rebind name c' entries) with
              | Some c0 =>
                  match mkdirSync c0 (name' :: p) full' with
                  | Ok c1 => Ok (Dir (rebind name c1 (rebind name c' entries)))
                  | Throw e => Throw e
                  end
              | None =>
                  match mkdirSync (Dir []) (name' :: p) full' with
                  | Ok c1 => Ok (Dir (rebind name c' entries ++ [(name, c1)]))
                  | Throw e => Throw e
                  end
              end).
      rewrite (assoc_rebind_same _ _ _ _ E), Hclean. eauto.
    + injection H as <-.
      destruct (mkdirSync_fresh_returns (name' :: p) full') as (made & Hmade).
      change (mkdirSync (Dir entries) (name :: name' :: p) full')
        with (match assoc name entries with
              | Some c0 =>
                  match mkdirSync c0 (name' :: p) full' with
                  | Ok c1 => Ok (Dir (rebind name c1 entries))
                  | Throw e => Throw e
                  end
              | None =>
                  match mkdirSync (Dir []) (name' :: p) full' with
                  | Ok c1 => Ok (Dir (entries ++ [(name, c1)]))
                  | Throw e => Throw e
                  end
              end).
      rewrite E, Hmade. eauto.
Qed.

(** [mkdirSync] from a bare directory makes a chain of empty directories. *)
Lemma lookup_mkdirSync_fresh (p full : path) (fs2 : node) :
  mkdirSync (Dir []) p full = Ok fs2 -> lookup fs2 p = Some (Dir []).
Proof.
  revert fs2; induction p as [|name p IH]; intros fs2; simpl.
  - intros H; now injection H as <-.
  - destruct (mkdirSync (Dir []) p full) as [c'|e] eqn:E; [|discriminate].
    intros H; injection H as <-. simpl. rewrite String.eqb_refl. now apply IH.
Qed.

(** A directory that [mkdirSync] had to make is empty. *)
Lemma lookup_mkdirSync (fs : node) (p full : path) (fs2 : node) :
  mkdirSync fs p full = Ok fs2 -> lookup fs p = None -> lookup fs2 p = Some (Dir []).
Proof.
  revert fs fs2; induction p as [|name p IH]; intros fs fs2; simpl; [discriminate|].
  destruct fs as [content|entries]; [discriminate|].
  destruct (assoc name entries) as [c|] eqn:E.
  - destruct (mkdirSync c p full) as [c'|e] eqn:Ec; [|discriminate].
    intros H Hnone; injection H as <-. simpl.
    rewrite (assoc_rebind_same _ _ _ _ E). now apply (IH c).
  - destruct (mkdirSync (Dir []) p full) as [c'|e] eqn:Ec; [|discriminate].
    intros H _; injection H as <-. simpl.
    rewrite assoc_app, E. simpl. rewrite String.eqb_refl.
    now apply lookup_mkdirSync_fresh with (full := full).
Qed.

Lemma writeFileSync_cons (fs : node) (name name' : string) (p : path)
  (content : string) (full : path) :
  writeFileSync fs (name :: name' :: p) content full =
  match fs with
  | File _ => Throw (SystemError "ENOTDIR" full)
  | Dir entries =>
      match assoc name entries with
      | Some c =>
          match writeFileSync c (name' :: p) content full with
          | Ok c' => Ok (Dir (rebind name c' entries))
          | Throw e => Throw e
          end
      | None => Throw (SystemError "ENOENT" full)
      end
  end.
Proof. reflexivity. Qed.

(** After [writeFileSync], the file is there with its content. *)
Lemma lookup_writeFileSync (fs : node) (p : path) (content : string) (full : path)
  (fs' : node) :
  writeFileSync fs p content full = Ok fs' -> lookup fs' p = Some (File content).
Proof.
  revert fs fs'; induction p as [|name p IH]; intros fs fs'; [discriminate|].
  destruct p as [|name' p].
  - simpl. destruct fs as [c|entries]; [discriminate|].
    destruct (assoc name entries) as [[c|sub]|] eqn:E; try discriminate;
      intros H; injection H as <-; simpl.
    + now rewrite (assoc_rebind_same _ _ _ _ E).
    + rewrite assoc_app, E. simpl. now rewrite String.eqb_refl.
  - rewrite writeFileSync_cons. destruct fs as [c|entries]; [discriminate|].
    destruct (assoc name entries) as [c|] eqn:E; [|discriminate].
    destruct (writeFileSync c (name' :: p) content full) as [c'|e] eqn:Ec; [|discriminate].
    intros H; injection H as <-. cbn [lookup].
    rewrite (assoc_rebind_same _ _ _ _ E). now apply (IH c).
Qed.

(** [writeFileSync] creates a file in an existing directory that has no
    entry of that name. *)
Lemma writeFileSync_creates (fs : node) (dir : path) (name : string)
  (entries : list (string * node)) (content : string) (full : path) :
  lookup fs dir = Some (Dir entries) -> assoc name entries = None ->
  exists fs', writeFileSync fs (join dir name) content full = Ok fs'.
Proof.
  unfold join. revert fs; induction dir as [|d dir IH]; intros fs Hdir Hname.
  - simpl in Hdir. injection Hdir as ->. simpl. rewrite Hname. eauto.
  - simpl in Hdir. destruct fs as [c|es]; [discriminate|].
    destruct (assoc d es) as [c|] eqn:E; [|discriminate].
    destruct (IH c Hdir Hname) as (c' & Hc').
    change ((d :: dir) ++ [name]) with (d :: (dir ++ [name])).
    destruct (dir ++ [name]) as [|x rest] eqn:Ex; [now destruct dir|].
    rewrite writeFileSync_cons, E, Hc'. eauto.
Qed.

(** [writeFileSync] makes nothing exist but the file it writes. *)
Lemma lookup_writeFileSync_other (fs : node) (p q : path) (content : string)
  (full : path) (fs' : node) :
  writeFileSync fs p content full = Ok fs' -> q <> p ->
  lookup fs q = None -> lookup fs' q = None.
Proof.
  revert fs fs' q; induction p as [|name p IH]; intros fs fs' q; [discriminate|].
  destruct p as [|name' p].
  - simpl. destruct fs as [c|entries]; [discriminate|].
    destruct q as [|n q]; [discriminate|].
    destruct (assoc name entries) as [[c|sub]|] eqn:E; try discriminate;
      intros H Hne Hq; injection H as <-; cbn [lookup] in *.
    + destruct (String.eqb_spec n name) as [->|Hn].
      * rewrite (assoc_rebind_same _ _ _ _ E). destruct q; [congruence | reflexivity].
      * now rewrite assoc_rebind_other.
    + rewrite assoc_app. destruct (assoc n entries) as [c|]; [exact Hq|].
      simpl. destruct (String.eqb_spec name n) as [->|Hn]; [|reflexivity].
      destruct q; [congruence | reflexivity].
  - rewrite writeFileSync_cons. destruct fs as [c|entries]; [discriminate|].
    destruct (assoc name entries) as [c|] eqn:E; [|discriminate].
    destruct (writeFileSync c (name' :: p) content full) as [c'|e] eqn:Ec; [|discriminate].
    intros H Hne Hq; injection H as <-.
    destruct q as [|n q]; [discriminate|]. cbn [lookup] in *.
    destruct (String.eqb_spec n name) as [->|Hn].
    + rewrite (assoc_rebind_same _ _ _ _ E). rewrite E in Hq.
      apply (IH c c' q Ec); [congruence | exact Hq].
    + now rewrite assoc_rebind_other.
Qed.

Lemma relative_below (p q : path) : relative p (p ++ q) = q.
Proof.
  induction p as [|a p IH]; simpl; [now destruct q|].
  now rewrite String.eqb_refl.
Qed.

End FsFacts.

(* ===================================================================== *)
(** ** CssSelector: the stylesheet scan *)
(* ===================================================================== *)

Module CssScan.
Import JsString Regex Path Fs Spec StringFacts FsFacts Pipeline.

(** With the [i] flag, a character of [.module.] matches exactly the
    characters that lower-case to it. *)
Lemma module_char (a b : ascii) :
  In a (list_ascii_of_string ".module.") ->
  char_eq true a b = Ascii.eqb (lower_char b) a.
Proof.
  intros Ha. simpl in Ha.
  repeat (destruct Ha as [<- | Ha]; [each_char b|]). destruct Ha.
Qed.

Lemma lit_k_ignore_case {A : Type} (l s : string) (k : string -> option A) (r : A) :
  (forall a, In a (list_ascii_of_string l) -> forall b, char_eq true a b = Ascii.eqb (lower_char b) a) ->
  lit_k true l s k = Some r <->
  exists m rest, s = (m ++ rest)%string /\ toLowerCase m = l /\ k rest = Some r.
Proof.
  revert s; induction l as [|a l IH]; intros s Hl; cbn [lit_k].
  - split.
    + intros H. exists "", s. auto.
    + intros (m & rest & -> & Hm & Hk). destruct m; [exact Hk | discriminate].
  - destruct s as [|b s].
    + split; [discriminate|]. intros (m & rest & Hs & Hm & _).
      destruct m; simpl in *; discriminate.
    + rewrite (Hl a (or_introl eq_refl) b).
      destruct (Ascii.eqb_spec (lower_char b) a) as [Hab|Hab].
      * rewrite IH by (intros; apply Hl; simpl; auto). split.
        -- intros (m & rest & -> & Hm & Hk). exists (String b m), rest.
           simpl. rewrite Hab, Hm. auto.
        -- intros (m & rest & Hs & Hm & Hk). destruct m as [|b' m]; [discriminate|].
           simpl in Hs, Hm. injection Hs as -> ->. injection Hm as _ Hm.
           exists m, rest. auto.
      * split; [discriminate|]. intros (m & rest & Hs & Hm & _).
        destruct m as [|b' m]; [discriminate|].
        simpl in Hs, Hm. injection Hs as -> ->. injection Hm as Hb _. contradiction.
Qed.

(** [CSS_MODULE_REGEX.test(name)] says whether [name] contains [.module.]
    in some letter case. *)
Lemma module_regex_spec (name : string) :
  test true CSS_MODULE_REGEX name = true <-> names_module name.
Proof.
  unfold test, names_module. split.
  - destruct (exec true CSS_MODULE_REGEX name) as [cap|] eqn:E; [|discriminate].
    intros _. destruct (exec_some _ _ _ _ E) as (n & Hn & Hm & _).
    unfold match_here, CSS_MODULE_REGEX in Hm. cbn [rmatch] in Hm.
    apply lit_k_ignore_case in Hm; [|intros; now apply module_char].
    destruct Hm as (m & rest & Hd & Hm & _).
    destruct (take_drop n name Hn) as [Hs _].
    exists (substring 0 n name), m, rest. split; [|exact Hm]. now rewrite <- Hd.
  - intros (before & m & after & -> & Hm).
    destruct (exec true CSS_MODULE_REGEX (before ++ m ++ after)) eqn:E; [reflexivity|].
    pose proof (exec_none _ _ _ E (String.length before)) as Hnone.
    rewrite drop_app in Hnone.
    unfold match_here, CSS_MODULE_REGEX in Hnone. cbn [rmatch] in Hnone.
    assert (H : lit_k true ".module." (m ++ after) (fun _ => Some (@None string)) = Some None).
    { apply lit_k_ignore_case; [intros; now apply module_char|]. exists m, after. auto. }
    congruence.
Qed.

Lemma css_extension_spec (ext : string) :
  existsb (String.eqb ext) CSS_EXTENSIONS = true <-> In ext CSS_EXTENSIONS.
Proof.
  rewrite existsb_exists. split.
  - intros (x & Hin & Hx). apply String.eqb_eq in Hx. now subst.
  - intros H. exists ext. split; [exact H | apply String.eqb_refl].
Qed.

(** What one listing adds to the queue weighs no more than the listing. *)
Lemma scan_entries_weight (fs : node) (current : path) (l : list (string * node))
  (queue results : list path) :
  (forall e, In e l -> lookup fs (join current (fst e)) = Some (snd e)) ->
  weights fs (fst (scan_entries current (map dirent_of l) queue results))
  <= sizes l + weights fs queue.
Proof.
  revert queue results; induction l as [|[n c] l IH]; intros queue results Hl; simpl.
  - lia.
  - assert (Hl' : forall e, In e l -> lookup fs (join current (fst e)) = Some (snd e))
      by (intros; apply Hl; simpl; auto).
    pose proof (Hl (n, c) (or_introl eq_refl)) as Hn. simpl in Hn.
    pose proof (size_pos c).
    destruct c as [content|entries]; cbn [isDirectory dirent_of snd fst Fs.name].
    + repeat match goal with
             | |- context [if ?b then _ else _] => destruct b
             end; (etransitivity; [apply IH; assumption | simpl; lia]).
    + destruct (_ || _).
      * etransitivity; [apply IH; assumption|]. simpl. lia.
      * etransitivity; [apply IH; assumption|].
        unfold weights at 1. simpl. unfold weight at 1. rewrite Hn.
        fold (weights fs queue). simpl. lia.
Qed.

(** The loop of [collectCssFiles] ends within as many turns as the queue
    weighs. *)
Lemma collect_loop_terminates (fuel : nat) (fs : node) (queue results : list path) :
  weights fs queue <= fuel -> collect_loop fuel fs queue results <> None.
Proof.
  revert queue results; induction fuel as [|fuel IH]; intros queue results Hw.
  - destruct queue as [|current queue]; simpl; [discriminate|].
    unfold weights in Hw. simpl in Hw. pose proof (weight_pos fs current). lia.
  - destruct queue as [|current queue]; simpl; [discriminate|].
    unfold readdirSync.
    destruct (lookup fs current) as [[content|entries]|] eqn:E; try discriminate.
    apply IH.
    etransitivity.
    + apply scan_entries_weight. intros [n c] Hin. simpl.
      rewrite lookup_join, E. now apply assoc_bindings.
    + unfold weights in Hw. simpl in Hw. unfold weight in Hw at 1. rewrite E in Hw.
      rewrite size_Dir in Hw. pose proof (sizes_bindings entries).
      fold (weights fs queue) in Hw. lia.
Qed.

(** [collectCssFiles] always runs its loop to the end. *)
Lemma collectCssFiles_runs (fs : node) (startDir : path) :
  collect_loop (weight fs startDir) fs [startDir] [] = Some (collectCssFiles fs startDir).
Proof.
  unfold collectCssFiles.
  destruct (collect_loop (weight fs startDir) fs [startDir] []) eqn:E; [reflexivity|].
  exfalso. revert E. apply collect_loop_terminates. unfold weights. simpl. lia.
Qed.

Lemma not_skipped (d : string) :
  String.eqb d "node_modules" || startsWith d "." = false -> ~ skipped_dir d.
Proof.
  intros H [-> | Hs].
  - discriminate.
  - rewrite Hs in H. now rewrite orb_true_r in H.
Qed.

(** One listing keeps the queue inside the scanned part of the tree and the
    results among its stylesheets. *)
Lemma scan_entries_sound (fs : node) (startDir current : path)
  (l : list (string * node)) (queue results : list path) :
  entered startDir current ->
  (forall e, In e l -> lookup fs (join current (fst e)) = Some (snd e)) ->
  Forall (entered startDir) queue ->
  Forall (scanned_stylesheet fs startDir) results ->
  Forall (entered startDir) (fst (scan_entries current (map dirent_of l) queue results))
  /\ Forall (scanned_stylesheet fs startDir)
       (snd (scan_entries current (map dirent_of l) queue results)).
Proof.
  intros (dirs & -> & Hdirs).
  revert queue results; induction l as [|[n c] l IH]; intros queue results Hl Hq Hr;
    cbn [map scan_entries]; [split; assumption|].
  assert (Hl' : forall e, In e l -> lookup fs (join (startDir ++ dirs) (fst e)) = Some (snd e))
    by (intros; apply Hl; simpl; auto).
  pose proof (Hl (n, c) (or_introl eq_refl)) as Hn. cbn [fst snd] in Hn.
  destruct c as [content|entries]; cbn [isDirectory dirent_of snd fst Fs.name].
  - destruct (existsb _ CSS_EXTENSIONS) eqn:Hext; cbn [negb]; [|now apply IH].
    destruct (test true CSS_MODULE_REGEX n) eqn:Hmod; [now apply IH|].
    apply IH; auto. apply Forall_app. split; [assumption|]. constructor; [|constructor].
    exists dirs, n, content. repeat split; auto.
    + unfold join. now rewrite app_assoc.
    + now apply css_extension_spec.
    + intros Hm. apply module_regex_spec in Hm. congruence.
  - destruct (String.eqb n "node_modules" || startsWith n ".") eqn:Hskip; [now apply IH|].
    apply IH; auto. constructor; [|assumption].
    exists (dirs ++ [n]). split.
    + unfold join. now rewrite app_assoc.
    + intros d Hd. apply in_app_or in Hd as [Hd | [<- | []]]; [now apply Hdirs|].
      now apply not_skipped.
Qed.

Lemma collect_loop_sound (fuel : nat) (fs : node) (startDir : path)
  (queue results found : list path) :
  Forall (entered startDir) queue ->
  Forall (scanned_stylesheet fs startDir) results ->
  collect_loop fuel fs queue results = Some (Ok found) ->
  Forall (scanned_stylesheet fs startDir) found.
Proof.
  revert queue results; induction fuel as [|fuel IH]; intros queue results Hq Hr;
    destruct queue as [|current queue]; simpl; try discriminate;
    try (intros H; injection H as <-; assumption).
  unfold readdirSync.
  destruct (lookup fs current) as [[content|entries]|] eqn:E; try discriminate.
  inversion Hq as [|? ? Hc Hq']; subst.
  destruct (scan_entries_sound fs startDir current (bindings entries) queue results)
    as [Hq2 Hr2]; auto.
  - intros [n c] Hin. simpl. rewrite lookup_join, E. now apply assoc_bindings.
  - now apply IH.
Qed.

(** C10.  For every start directory, every path that [collectCssFiles]
    returns is a file below the start directory whose extension is, in some
    letter case, one of [.css], [.pcss], [.scss], [.sass], whose name does
    not contain [.module.] in any letter case, and that lies under no
    directory below the start directory that is named [node_modules] or whose
    name starts with a dot. *)
Theorem collectCssFiles_only_stylesheets (fs : node) (startDir : path)
  (results : list path) :
  collectCssFiles fs startDir = Ok results ->
  forall file, In file results -> scanned_stylesheet fs startDir file.
Proof.
  intros H. pose proof (collectCssFiles_runs fs startDir) as Hrun. rewrite H in Hrun.
  apply Forall_forall.
  apply (collect_loop_sound _ _ _ _ _ _ (Forall_cons _ (ex_intro _ [] (conj (eq_sym (app_nil_r _)) (fun d (Hd : In d []) => False_ind _ Hd))) (Forall_nil _)) (Forall_nil _) Hrun).
Qed.

Lemma collectCssFiles_only_stylesheets_witness :
  collectCssFiles styled_widget ["counter"]
  = Ok [["counter"; "index.css"]; ["counter"; "theme"; "dark.SCSS"]]
  /\ scanned_stylesheet styled_widget ["counter"] ["counter"; "theme"; "dark.SCSS"].
Proof.
  split; [reflexivity|].
  apply (collectCssFiles_only_stylesheets styled_widget ["counter"]
           [["counter"; "index.css"]; ["counter"; "theme"; "dark.SCSS"]]).
  - reflexivity.
  - simpl. auto.
Defined.

(** A queue of directories stays one: the scan only queues directories of
    the listing. *)
Lemma scan_entries_dirs (fs : node) (current : path) (l : list (string * node))
  (queue results : list path) :
  (forall e, In e l -> lookup fs (join current (fst e)) = Some (snd e)) ->
  Forall (fun p => exists entries, lookup fs p = Some (Dir entries)) queue ->
  Forall (fun p => exists entries, lookup fs p = Some (Dir entries))
    (fst (scan_entries current (map dirent_of l) queue results)).
Proof.
  revert queue results; induction l as [|[n c] l IH]; intros queue results Hl Hq;
    cbn [map scan_entries]; [assumption|].
  assert (Hl' : forall e, In e l -> lookup fs (join current (fst e)) = Some (snd e))
    by (intros; apply Hl; simpl; auto).
  pose proof (Hl (n, c) (or_introl eq_refl)) as Hn. cbn [fst snd] in Hn.
  destruct c as [content|entries]; cbn [isDirectory dirent_of snd fst Fs.name].
  - destruct (negb _); [now apply IH|].
    destruct (test true CSS_MODULE_REGEX n); now apply IH.
  - destruct (String.eqb n "node_modules" || startsWith n "."); [now apply IH|].
    apply IH; auto. constructor; [eauto | assumption].
Qed.

Lemma collect_loop_returns (fuel : nat) (fs : node) (queue results : list path) :
  weights fs queue <= fuel ->
  Forall (fun p => exists entries, lookup fs p = Some (Dir entries)) queue ->
  exists found, collect_loop fuel fs queue results = Some (Ok found).
Proof.
  revert queue results; induction fuel as [|fuel IH]; intros queue results Hw Hq.
  - destruct queue as [|current queue]; simpl; [eauto|].
    unfold weights in Hw. simpl in Hw. pose proof (weight_pos fs current). lia.
  - destruct queue as [|current queue]; simpl; [eauto|].
    inversion Hq as [|? ? (entries & E) Hq']; subst.
    unfold readdirSync. rewrite E.
    assert (Hl : forall e, In e (bindings entries) ->
                           lookup fs (join current (fst e)) = Some (snd e)).
    { intros [n c] Hin. simpl. rewrite lookup_join, E. now apply assoc_bindings. }
    apply IH.
    + etransitivity; [apply scan_entries_weight; exact Hl|].
      unfold weights in Hw. simpl in Hw. unfold weight in Hw at 1. rewrite E in Hw.
      rewrite size_Dir in Hw. pose proof (sizes_bindings entries).
      fold (weights fs queue) in Hw. lia.
    + now apply scan_entries_dirs.
Qed.

(** On a directory, [collectCssFiles] returns a list. *)
Lemma collectCssFiles_returns (fs : node) (startDir : path)
  (entries : list (string * node)) :
  lookup fs startDir = Some (Dir entries) ->
  exists found, collectCssFiles fs startDir = Ok found.
Proof.
  intros E.
  destruct (collect_loop_returns (weight fs startDir) fs [startDir] []) as (found & H).
  - unfold weights. simpl. lia.
  - constructor; [eauto | constructor].
  - exists found. pose proof (collectCssFiles_runs fs startDir) as Hrun.
    rewrite H in Hrun. now injection Hrun as <-.
Qed.

End CssScan.

(* ===================================================================== *)
(** ** Lists *)
(* ===================================================================== *)

Module ListFacts.
Import Spec.

Lemma subseq_trans {A : Type} (l1 l2 l3 : list A) :
  subseq l1 l2 -> subseq l2 l3 -> subseq l1 l3.
Proof.
  intros H12 H23. revert l1 H12.
  induction H23 as [|x l2 l3 H IH|x l2 l3 H IH]; intros l1 H12.
  - exact H12.
  - constructor. now apply IH.
  - inversion H12; subst; constructor; now apply IH.
Qed.

Lemma subseq_filter {A : Type} (f : A -> bool) (l : list A) : subseq (filter f l) l.
Proof. induction l as [|x l IH]; simpl; [constructor|]. destruct (f x); now constructor. Qed.

Lemma subseq_in {A : Type} (l1 l2 : list A) (x : A) :
  subseq l1 l2 -> In x l1 -> In x l2.
Proof.
  induction 1 as [|y l1 l2 H IH|y l1 l2 H IH]; simpl; [tauto | auto |].
  intros [-> | Hx]; auto.
Qed.

Lemma subseq_NoDup {A : Type} (l1 l2 : list A) :
  subseq l1 l2 -> NoDup l2 -> NoDup l1.
Proof.
  induction 1 as [|y l1 l2 H IH|y l1 l2 H IH]; intros Hnd.
  - constructor.
  - inversion Hnd; auto.
  - inversion Hnd as [|? ? Hy Hrest]; subst. constructor; [|auto].
    intros Hin. apply Hy. now apply (subseq_in l1 l2).
Qed.

End ListFacts.

(* ===================================================================== *)
(** ** CssSelector: the stylesheets of a target *)
(* ===================================================================== *)

Module CssSelector.
Import JsString Regex Path Fs Spec StringFacts FsFacts ListFacts Pipeline.

Lemma pattern_text_escape (value : string) : pattern_text (escapeForRegex value) = value.
Proof.
  induction value as [|c value IH]; simpl; [reflexivity|].
  destruct (is_special c) eqn:E; simpl.
  - now rewrite IH.
  - destruct (Ascii.eqb_spec c "\"%char) as [->|]; [discriminate E | now rewrite IH].
Qed.

Lemma quote_not_space (c : ascii) : is_quote c = true -> is_space c = false.
Proof. each_char c. Qed.

(** A literal import of [form] in the source is found by the expression that
    [filterCssAlreadyImported] builds for [form]. *)
Lemma imports_literally_test (entrySource form : string) :
  imports_literally entrySource form ->
  test false (importRegex (escapeForRegex form)) (replace_crlf entrySource) = true.
Proof.
  intros (before & ws & q1 & q2 & after & -> & Hne & Hws & Q1 & Q2).
  unfold test.
  destruct (exec false _ _) eqn:E; [reflexivity|]. exfalso.
  pose proof (exec_none _ _ _ E (String.length before)) as Hnone.
  rewrite drop_app in Hnone. revert Hnone.
  unfold match_here, importRegex. cbn [rmatch].
  rewrite lit_k_strip, strip_prefix_app.
  destruct ws as [|c ws]; [congruence|]. simpl in Hws.
  apply andb_true_iff in Hws as [Hc Hws]. cbn [append]. rewrite Hc.
  rewrite star_k_det
    by (intros [|d t] Ht; simpl in *; [reflexivity | now rewrite (space_not_quote d Ht)]).
  rewrite skip_app; [|exact Hws | simpl; now apply quote_not_space].
  rewrite Q1, lit_k_strip, pattern_text_escape, strip_prefix_app, Q2. discriminate.
Qed.

Lemma subseq_unique_from (seen l : list path) : subseq (unique_from seen l) l.
Proof.
  revert seen; induction l as [|x l IH]; intros seen; simpl; [constructor|].
  destruct (in_dec (list_eq_dec string_dec) x seen); constructor; apply IH.
Qed.

Lemma in_unique_from (seen l : list path) (x : path) :
  In x (unique_from seen l) <-> In x l /\ ~ In x seen.
Proof.
  revert seen; induction l as [|y l IH]; intros seen; simpl; [tauto|].
  destruct (in_dec (list_eq_dec string_dec) y seen) as [Hy|Hy]; simpl; rewrite IH; simpl.
  - split; [tauto|]. intros [[-> | H] Hn]; tauto.
  - split.
    + intros [-> | [H Hn]]; [tauto|]. split; [tauto|]. intros Hs. apply Hn. now right.
    + intros [[-> | H] Hn]; [tauto|].
      destruct (list_eq_dec string_dec y x) as [->|Hne]; [tauto|].
      right. split; [assumption|]. intros [? | ?]; [congruence | tauto].
Qed.

Lemma NoDup_unique_from (seen l : list path) : NoDup (unique_from seen l).
Proof.
  revert seen; induction l as [|x l IH]; intros seen; simpl; [constructor|].
  destruct (in_dec (list_eq_dec string_dec) x seen) as [Hx|Hx]; [apply IH|].
  constructor; [|apply IH].
  rewrite in_unique_from. simpl. tauto.
Qed.

(** What [new Set] keeps of a concatenation: what it keeps of the first
    list, then what the second list adds to that. *)
Lemma unique_from_app (seen a b : list path) :
  unique_from seen (a ++ b)
  = unique_from seen a ++ unique_from (rev (unique_from seen a) ++ seen) b.
Proof.
  revert seen; induction a as [|x a IH]; intros seen; simpl; [reflexivity|].
  destruct (in_dec (list_eq_dec string_dec) x seen) as [Hx|Hx]; [apply IH|].
  simpl. rewrite IH. now rewrite <- app_assoc.
Qed.

Lemma posix_parent_starts_with_dot (rest : list string) :
  startsWith (posix (".." :: rest)) "." = true.
Proof. destruct rest; reflexivity. Qed.

(** C5, as stated: no path of the result is imported under its relative
    form prefixed with [./].  The global stylesheet [src/index.css] is
    [../index.css] from the widget [counter]; the entry imports it as
    [./../index.css], and [selectCss] returns it all the same. *)
Lemma selectCss_returns_dot_slash_import :
  selectCss ["web"] project_dot_slash counter_dot_slash = Ok [["web"; "src"; "index.css"]]
  /\ imports_literally (entrySource counter_dot_slash)
       ("./" ++ relative_form counter_dot_slash ["web"; "src"; "index.css"])
  /\ ~ never_returns_imported ["web"] project_dot_slash counter_dot_slash.
Proof.
  assert (Himp : imports_literally (entrySource counter_dot_slash)
                   ("./" ++ relative_form counter_dot_slash ["web"; "src"; "index.css"])).
  { exists "", " ", "'"%char, "'"%char, "".
    repeat split; try reflexivity. discriminate. }
  repeat split; [exact Himp|].
  intros H.
  exact (H [["web"; "src"; "index.css"]] eq_refl ["web"; "src"; "index.css"]
           (or_introl eq_refl) Himp).
Qed.

(** C5, amended.  For every target, [selectCss] returns a list with no
    duplicate paths, made of existing global stylesheets in candidate order
    followed by results of the directory scan in scan order, none of them a
    global stylesheet.  No path of the list is imported by a literal import
    statement of the entry source under the form that names it from the
    entry's directory with forward slashes: [./] followed by the relative
    path when that path does not start with a dot, and the relative path
    itself when it starts with [..]. *)
Theorem selectCss_deduplicated (WEB_ROOT : path) (fs : node) (target : EntryTarget)
  (selected : list path) :
  selectCss WEB_ROOT fs target = Ok selected ->
  NoDup selected
  /\ (exists globals scanned perEntryCss,
         collectCssFiles fs (dirname (entryFile target)) = Ok perEntryCss
         /\ selected = globals ++ scanned
         /\ subseq globals (existing_globals WEB_ROOT fs)
         /\ subseq scanned perEntryCss
         /\ forall cssPath, In cssPath scanned -> ~ In cssPath (existing_globals WEB_ROOT fs))
  /\ (forall cssPath, In cssPath selected ->
        (startsWith (relative_form target cssPath) "." = false ->
         ~ imports_literally (entrySource target) ("./" ++ relative_form target cssPath))
        /\ (forall rest,
              relative (dirname (entryFile target)) cssPath = ".." :: rest ->
              ~ imports_literally (entrySource target) (relative_form target cssPath))).
Proof.
  unfold selectCss.
  change (filter (existsSync fs) (map (fun candidate => SRC_ROOT WEB_ROOT ++ candidate)
                                      GLOBAL_CSS_CANDIDATES))
    with (existing_globals WEB_ROOT fs).
  destruct (collectCssFiles fs (dirname (entryFile target))) as [perEntryCss|e] eqn:E;
    [|discriminate].
  intros H; injection H as <-. unfold filterCssAlreadyImported, unique.
  set (keep := fun cssPath : path => negb _).
  repeat split.
  - apply NoDup_filter, NoDup_unique_from.
  - rewrite unique_from_app, filter_app.
    eexists _, _, perEntryCss. repeat split.
    + eapply subseq_trans; [apply subseq_filter | apply subseq_unique_from].
    + eapply subseq_trans; [apply subseq_filter | apply subseq_unique_from].
    + intros cssPath Hin Hglobal.
      apply filter_In in Hin as [Hin _]. apply in_unique_from in Hin as [_ Hnew].
      apply Hnew, in_or_app. left. apply in_rev. rewrite rev_involutive.
      now apply in_unique_from.
  - intros Hdot Himp. apply filter_In in H as [_ Hkeep]. unfold keep in Hkeep.
    apply imports_literally_test in Himp.
    unfold normalizedRelative in Hkeep. fold (relative_form target cssPath) in Hkeep.
    rewrite Hdot in Hkeep. rewrite Himp in Hkeep. discriminate.
  - intros rest Hrel Himp. apply filter_In in H as [_ Hkeep]. unfold keep in Hkeep.
    apply imports_literally_test in Himp.
    unfold normalizedRelative in Hkeep. fold (relative_form target cssPath) in Hkeep.
    assert (Hdot : startsWith (relative_form target cssPath) "." = true).
    { unfold relative_form. rewrite Hrel. apply posix_parent_starts_with_dot. }
    rewrite Hdot in Hkeep. rewrite Himp in Hkeep. discriminate.
Qed.

(** The widget imports its own [index.css]; the global stylesheet and
    [extra.css] are what is left to inject. *)
Lemma selectCss_deduplicated_witness :
  selectCss ["web"] project_styles counter_styles
  = Ok [["web"; "src"; "index.css"]; ["web"; "src"; "counter"; "extra.css"]]
  /\ NoDup [["web"; "src"; "index.css"]; ["web"; "src"; "counter"; "extra.css"]].
Proof.
  split; [reflexivity|].
  destruct (selectCss_deduplicated ["web"] project_styles counter_styles
              [["web"; "src"; "index.css"]; ["web"; "src"; "counter"; "extra.css"]]
              eq_refl) as [H _].
  exact H.
Defined.

End CssSelector.

(* ===================================================================== *)
(** ** BuildOrchestrator and ManifestWriter *)
(* ===================================================================== *)

Module Orchestrator.
Import JsString Path Fs Run Spec FsFacts ListFacts Pipeline.
Local Open Scope run_scope.
#[local] Set Warnings "-notation-for-abbreviation".

(** Unfold the steps of the script down to functions on worlds. *)
Ltac steps :=
  unfold bind, emit, reads, attempt, update, foreign, ret, throw; cbn [fs trace fst snd].

Lemma assign_keys (m : Manifest) (key : string) (v : ManifestEntry) :
  map fst (assign m key v)
  = if String.eqb key "__proto__" || has_key key m then map fst m else map fst m ++ [key].
Proof.
  unfold assign. destruct (String.eqb key "__proto__"); [reflexivity|]. simpl.
  destruct (has_key key m) eqn:E.
  - clear E. induction m as [|[k old] m IH]; simpl; [reflexivity|].
    destruct (String.eqb k key); simpl; [reflexivity | now rewrite IH].
  - now rewrite map_app.
Qed.

Lemma has_key_spec (key : string) (m : Manifest) :
  has_key key m = true <-> In key (map fst m).
Proof.
  induction m as [|[k v] m IH]; simpl; [split; [discriminate | tauto]|].
  rewrite orb_true_iff, IH, String.eqb_eq. tauto.
Qed.

Lemma assign_NoDup (m : Manifest) (key : string) (v : ManifestEntry) :
  NoDup (map fst m) -> NoDup (map fst (assign m key v)).
Proof.
  intros H. rewrite assign_keys.
  destruct (String.eqb key "__proto__"); [exact H|]. simpl.
  destruct (has_key key m) eqn:E; [exact H|].
  apply NoDup_app; [exact H | repeat constructor; auto |].
  intros x Hx [<- | []]. apply has_key_spec in Hx. congruence.
Qed.

Lemma assign_in (m : Manifest) (key : string) (v : ManifestEntry) (k : string) :
  In k (map fst (assign m key v)) <->
  In k (map fst m) \/ (k = key /\ key <> "__proto__").
Proof.
  rewrite assign_keys.
  destruct (String.eqb_spec key "__proto__") as [->|Hne]; simpl.
  - split; [auto | intros [H | [_ H]]; [exact H | congruence]].
  - destruct (has_key key m) eqn:E.
    + apply has_key_spec in E. split; [auto | intros [H | [-> _]]; assumption].
    + rewrite in_app_iff. simpl. split.
      * intros [H | [<- | []]]; auto.
      * intros [H | [-> _]]; auto.
Qed.

Lemma entry_of_assign (m : Manifest) (key : string) (v : ManifestEntry) :
  key <> "__proto__" -> entry_of (assign m key v) key = Some v.
Proof.
  intros Hne. unfold assign.
  destruct (String.eqb_spec key "__proto__"); [contradiction|].
  destruct (has_key key m) eqn:E.
  - induction m as [|[k old] m IH]; simpl in *; [discriminate|].
    destruct (String.eqb k key) eqn:Ek; simpl; rewrite Ek; [reflexivity | auto].
  - induction m as [|[k old] m IH]; simpl in *; [now rewrite String.eqb_refl|].
    destruct (String.eqb k key) eqn:Ek; simpl in *; [discriminate | auto].
Qed.

Lemma entry_of_assign_other (m : Manifest) (key other : string) (v : ManifestEntry) :
  other <> key -> entry_of (assign m key v) other = entry_of m other.
Proof.
  intros Hne. unfold assign.
  destruct (String.eqb key "__proto__"); [reflexivity|].
  destruct (has_key key m).
  - induction m as [|[k old] m IH]; simpl; [reflexivity|].
    destruct (String.eqb_spec k key) as [->|Hk]; simpl.
    + destruct (String.eqb_spec key other); [congruence | reflexivity].
    + destruct (String.eqb k other); [reflexivity | exact IH].
  - induction m as [|[k old] m IH]; simpl.
    + destruct (String.eqb_spec key other); [congruence | reflexivity].
    + destruct (String.eqb k other); [reflexivity | exact IH].
Qed.

Section Script.

Variable WEB_ROOT : path.
Variable BUILD_MODE : string.
Variable Config : Type.
Variable loadConfigFromFile : node -> result (option Config).
Variable build : EntryConfig Config -> node -> result unit * node.
Variable JSON_stringify : Manifest -> string.

Local Notation SRC := (SRC_ROOT WEB_ROOT).
Local Notation OUT := (OUT_DIR WEB_ROOT).
Local Notation MANIFEST := (MANIFEST_PATH WEB_ROOT).
Local Notation config_of := (entryConfig WEB_ROOT BUILD_MODE Config).
Local Notation js_of := (widgetJsPath WEB_ROOT).
Local Notation css_of := (widgetCssPath WEB_ROOT).
Local Notation target_step := (build_target WEB_ROOT BUILD_MODE Config build).
Local Notation loop := (build_loop WEB_ROOT BUILD_MODE Config build).
Local Notation the_run :=
  (run WEB_ROOT BUILD_MODE Config loadConfigFromFile build JSON_stringify).
Local Notation phase := (build_phase WEB_ROOT Config loadConfigFromFile).

(** One turn of the build loop, case by case. *)
Lemma build_target_eq (base : option Config) (public : option path)
  (manifest : Manifest) (target : EntryTarget) (w : world) :
  target_step base public manifest target w =
  match selectCss WEB_ROOT (fs w) target with
  | Throw e => (Throw e, w)
  | Ok cssToInclude =>
      let started :=
        (trace w ++ [ConsoleLog (Building (name target) (entryFile target))])
          ++ [BundlerBuild (name target)] in
      let built := build (config_of base public target cssToInclude) (fs w) in
      match fst built with
      | Throw e => (Throw e, {| fs := snd built; trace := started |})
      | Ok _ =>
          if existsSync (snd built) (js_of target)
          then (Ok (assign manifest (name target)
                      (manifest_entry WEB_ROOT target (existsSync (snd built) (css_of target)))),
                {| fs := snd built;
                   trace := started
                            ++ [ConsoleLog (Built (name target)
                                              (existsSync (snd built) (css_of target)))] |})
          else (Throw (Error (missing_output WEB_ROOT target)),
                {| fs := snd built; trace := started |})
      end
  end.
Proof.
  unfold build_target, ensureFileExists. steps.
  destruct (selectCss WEB_ROOT (fs w) target) as [cssToInclude|e]; [|reflexivity].
  destruct (build _ (fs w)) as [[[]|e] fs2]; cbn [fst snd]; [|reflexivity].
  destruct (existsSync fs2 (js_of target)); reflexivity.
Qed.

Lemma build_loop_app (base : option Config) (public : option path)
  (pre post : list EntryTarget) (manifest : Manifest) (w : world) :
  loop base public (pre ++ post) manifest w =
  match loop base public pre manifest w with
  | (Ok m1, w1) => loop base public post m1 w1
  | (Throw e, w1) => (Throw e, w1)
  end.
Proof.
  revert manifest w; induction pre as [|t pre IH]; intros manifest w; [reflexivity|].
  cbn [build_loop app]. unfold bind.
  destruct (target_step base public manifest t w) as [[m1|e] w1]; [apply IH | reflexivity].
Qed.

Lemma prepareOutput_eq (w : world) :
  prepareOutput WEB_ROOT w =
  match rmSync (fs w) OUT OUT with
  | Throw e => (Throw e, w)
  | Ok removed =>
      match mkdirSync removed OUT OUT with
      | Ok fs2 =>
          (Ok tt, {| fs := fs2; trace := (trace w ++ [RemovedDir OUT]) ++ [MadeDir OUT] |})
      | Throw e =>
          (Throw e, {| fs := removed; trace := trace w ++ [RemovedDir OUT] |})
      end
  end.
Proof.
  unfold prepareOutput. steps.
  destruct (rmSync (fs w) OUT OUT) as [removed|e]; [|reflexivity]. cbn [fs trace].
  destruct (mkdirSync removed OUT OUT); reflexivity.
Qed.

(** The script from discovery on. *)
Lemma main_eq (public : option path) (w : world) :
  main WEB_ROOT BUILD_MODE Config loadConfigFromFile build JSON_stringify public w =
  match discovery WEB_ROOT w with
  | (Throw e, wd) => (Throw e, wd)
  | (Ok targets, wd) =>
      match targets with
      | [] => emit (ConsoleWarn NothingToBuild) wd
      | _ :: _ =>
          match announce_and_prepare WEB_ROOT targets wd with
          | (Ok _, ws) =>
              build_all WEB_ROOT BUILD_MODE Config loadConfigFromFile build JSON_stringify
                public targets ws
          | (Throw e, ws) => (Throw e, ws)
          end
      end
  end.
Proof.
  unfold main, discovery, announce_and_prepare, bind.
  destruct (ensureDirectoryExists SRC w) as [[[]|e] w1]; [|reflexivity].
  destruct (discoverEntries WEB_ROOT w1) as [[targets|e] wd]; [|reflexivity].
  destruct targets; reflexivity.
Qed.

(** Discovery only reads the file system, and prints nothing but warnings. *)
Lemma discover_loop_frame (dirEntries : list Dirent) (entries : list EntryTarget)
  (w : world) (r : result (list EntryTarget)) (w' : world) :
  discover_loop WEB_ROOT dirEntries entries w = (r, w') ->
  fs w' = fs w /\ exists warnings, trace w' = trace w ++ map ConsoleWarn warnings.
Proof.
  revert entries w; induction dirEntries as [|d rest IH]; intros entries w;
    cbn [discover_loop].
  - steps. intros H; injection H as <- <-. split; [reflexivity|].
    exists []. simpl. now rewrite app_nil_r.
  - destruct (negb (isDirectory d)); [apply IH|].
    destruct (startsWith (Fs.name d) "."); [apply IH|].
    steps. destruct (resolveEntryFile (fs w) (join SRC (Fs.name d))) as [entryFile|].
    + destruct (readFileSync (fs w) entryFile) as [src|e]; [apply IH|].
      intros H; injection H as <- <-. split; [reflexivity|].
      exists []. simpl. now rewrite app_nil_r.
    + intros H. apply IH in H as [Hfs (warnings & Htr)]. cbn [fs trace] in *.
      split; [exact Hfs|]. exists (Skipping (Fs.name d) :: warnings).
      rewrite Htr. simpl. now rewrite <- app_assoc.
Qed.

Lemma discovery_frame (w : world) (r : result (list EntryTarget)) (wd : world) :
  discovery WEB_ROOT w = (r, wd) ->
  fs wd = fs w /\ exists warnings, trace wd = trace w ++ map ConsoleWarn warnings.
Proof.
  unfold discovery, ensureDirectoryExists, discoverEntries. steps.
  destruct (existsSync (fs w) SRC).
  - destruct (readdirSync (fs w) SRC) as [dirEntries|e]; [apply discover_loop_frame|].
    intros H; injection H as <- <-. split; [reflexivity|].
    exists []. simpl. now rewrite app_nil_r.
  - intros H; injection H as <- <-. split; [reflexivity|].
    exists []. simpl. now rewrite app_nil_r.
Qed.

(** The targets are named after directories of the listing, in its order. *)
Lemma discover_loop_names (dirEntries : list Dirent) (entries : list EntryTarget)
  (w : world) (found : list EntryTarget) (w' : world) :
  discover_loop WEB_ROOT dirEntries entries w = (Ok found, w') ->
  exists added,
    found = entries ++ added /\ subseq (map name added) (map Fs.name dirEntries).
Proof.
  revert entries w; induction dirEntries as [|d rest IH]; intros entries w;
    cbn [discover_loop].
  - steps. intros H; injection H as <- <-. exists []. rewrite app_nil_r.
    split; [reflexivity | constructor].
  - assert (Hskip : forall es w0,
               discover_loop WEB_ROOT rest es w0 = (Ok found, w') ->
               exists added, found = es ++ added
                             /\ subseq (map name added) (map Fs.name (d :: rest))).
    { intros es w0 H. apply IH in H as (added & -> & Hsub).
      exists added. split; [reflexivity | now constructor]. }
    destruct (negb (isDirectory d)); [apply Hskip|].
    destruct (startsWith (Fs.name d) "."); [apply Hskip|].
    steps. destruct (resolveEntryFile (fs w) (join SRC (Fs.name d))) as [entryFile|];
      [|apply Hskip].
    destruct (readFileSync (fs w) entryFile) as [src|e]; [|discriminate].
    intros H. apply IH in H as (added & -> & Hsub).
    eexists (_ :: added). rewrite <- app_assoc. split; [reflexivity|].
    simpl. now apply subseq_take.
Qed.

(** No two targets of a run have the same name. *)
Lemma discovery_names (w : world) (targets : list EntryTarget) (wd : world) :
  discovery WEB_ROOT w = (Ok targets, wd) -> NoDup (map name targets).
Proof.
  unfold discovery, ensureDirectoryExists, discoverEntries. steps.
  destruct (existsSync (fs w) SRC); [|discriminate].
  unfold readdirSync.
  destruct (lookup (fs w) SRC) as [[content|entries]|]; try discriminate.
  intros H. apply discover_loop_names in H as (added & -> & Hsub). simpl.
  apply (subseq_NoDup _ _ Hsub).
  rewrite map_map. cbn [Fs.name dirent_of]. apply in_bindings_names.
Qed.

Lemma writes_of_snoc (tr : list event) (e : event) :
  writes_of (tr ++ [e]) = writes_of tr ++ writes_of [e].
Proof. unfold writes_of. now rewrite flat_map_app. Qed.

Lemma builds_of_snoc (tr : list event) (e : event) :
  builds_of (tr ++ [e]) = builds_of tr ++ builds_of [e].
Proof. unfold builds_of. now rewrite flat_map_app. Qed.

Lemma removals_of_snoc (tr : list event) (e : event) :
  removals_of (tr ++ [e]) = removals_of tr ++ removals_of [e].
Proof. unfold removals_of. now rewrite flat_map_app. Qed.

(** Write a trace that ends with known events by what it adds. *)
Ltac count_events :=
  repeat (rewrite writes_of_snoc || rewrite builds_of_snoc || rewrite removals_of_snoc);
  cbn [writes_of builds_of removals_of flat_map app];
  repeat rewrite app_nil_r.

(** One turn of the loop writes and removes nothing itself, and leaves the
    manifest absent when the bundler does. *)
Lemma build_target_frame (base : option Config) (public : option path)
  (manifest : Manifest) (target : EntryTarget) (w : world)
  (r : result Manifest) (w1 : world) :
  target_step base public manifest target w = (r, w1) ->
  writes_of (trace w1) = writes_of (trace w)
  /\ removals_of (trace w1) = removals_of (trace w)
  /\ (leaves_manifest_to_script WEB_ROOT Config build ->
      existsSync (fs w) MANIFEST = false -> existsSync (fs w1) MANIFEST = false).
Proof.
  rewrite build_target_eq.
  destruct (selectCss WEB_ROOT (fs w) target) as [cssToInclude|e].
  - cbv zeta.
    destruct (fst (build _ (fs w))) as [[]|e];
      [destruct (existsSync (snd (build _ (fs w))) (js_of target))|];
      intros H; injection H as <- <-; cbn [fs trace]; count_events;
      repeat split; auto.
  - intros H; injection H as <- <-. auto.
Qed.

Lemma build_loop_frame (base : option Config) (public : option path)
  (targets : list EntryTarget) (manifest : Manifest) (w : world)
  (r : result Manifest) (w1 : world) :
  loop base public targets manifest w = (r, w1) ->
  writes_of (trace w1) = writes_of (trace w)
  /\ removals_of (trace w1) = removals_of (trace w)
  /\ (leaves_manifest_to_script WEB_ROOT Config build ->
      existsSync (fs w) MANIFEST = false -> existsSync (fs w1) MANIFEST = false).
Proof.
  revert manifest w; induction targets as [|t rest IH]; intros manifest w;
    cbn [build_loop].
  - steps. intros H; injection H as <- <-. auto.
  - unfold bind. destruct (target_step base public manifest t w) as [[m1|e] w2] eqn:E;
      apply build_target_frame in E as (Hw & Hr & Hm).
    + intros H. apply IH in H as (Hw' & Hr' & Hm').
      repeat split; [congruence | congruence | auto].
    + intros H; injection H as <- <-. auto.
Qed.

(** A loop that ends well has invoked the bundler once for each target, in
    order. *)
Lemma build_loop_builds (base : option Config) (public : option path)
  (targets : list EntryTarget) (manifest : Manifest) (w : world)
  (m' : Manifest) (w1 : world) :
  loop base public targets manifest w = (Ok m', w1) ->
  builds_of (trace w1) = builds_of (trace w) ++ map name targets.
Proof.
  revert manifest w; induction targets as [|t rest IH]; intros manifest w;
    cbn [build_loop].
  - steps. intros H; injection H as <- <-. now rewrite app_nil_r.
  - unfold bind. rewrite build_target_eq.
    destruct (selectCss WEB_ROOT (fs w) t) as [cssToInclude|e]; [|discriminate].
    cbv zeta.
    destruct (fst (build _ (fs w))) as [[]|e]; [|discriminate].
    destruct (existsSync (snd (build _ (fs w))) (js_of t)); [|discriminate].
    intros H. apply IH in H. rewrite H. cbn [trace]. count_events.
    now rewrite <- app_assoc.
Qed.

(** The manifest of a loop that ends well: its keys are the keys it had and
    the names of the targets, [__proto__] apart, each once. *)
Lemma build_loop_keys (base : option Config) (public : option path)
  (targets : list EntryTarget) (manifest : Manifest) (w : world)
  (m' : Manifest) (w1 : world) :
  loop base public targets manifest w = (Ok m', w1) ->
  (NoDup (map fst manifest) -> NoDup (map fst m'))
  /\ forall k, In k (map fst m') <->
               In k (map fst manifest) \/ (In k (map name targets) /\ k <> "__proto__").
Proof.
  revert manifest w; induction targets as [|t rest IH]; intros manifest w;
    cbn [build_loop].
  - steps. intros H; injection H as <- <-. split; [auto|]. intros k. simpl.
    split; [auto | intros [H | [[] _]]; exact H].
  - unfold bind. rewrite build_target_eq.
    destruct (selectCss WEB_ROOT (fs w) t) as [cssToInclude|e]; [|discriminate].
    cbv zeta.
    destruct (fst (build _ (fs w))) as [[]|e]; [|discriminate].
    destruct (existsSync (snd (build _ (fs w))) (js_of t)); [|discriminate].
    intros H. apply IH in H as [Hnd Hin]. split.
    + intros H0. now apply Hnd, assign_NoDup.
    + intros k. rewrite Hin, assign_in. simpl. split.
      * intros [[H | [-> Hp]] | [H Hp]]; auto.
      * intros [H | [[<- | H] Hp]]; auto.
Qed.

(** After a loop over at least one target that ends well, the output
    directory is a directory. *)
Lemma build_loop_out_dir (base : option Config) (public : option path)
  (targets : list EntryTarget) (manifest : Manifest) (w : world)
  (m' : Manifest) (w1 : world) :
  targets <> [] ->
  loop base public targets manifest w = (Ok m', w1) ->
  exists entries, lookup (fs w1) OUT = Some (Dir entries).
Proof.
  intros Hne. destruct (exists_last Hne) as (pre & t & ->).
  rewrite build_loop_app.
  destruct (loop base public pre manifest w) as [[m1|e] w2]; [|discriminate].
  cbn [build_loop]. unfold bind. rewrite build_target_eq.
  destruct (selectCss WEB_ROOT (fs w2) t) as [cssToInclude|e]; [|discriminate].
  cbv zeta.
  destruct (fst (build _ (fs w2))) as [[]|e]; [|discriminate].
  destruct (existsSync (snd (build _ (fs w2))) (js_of t)) eqn:Ejs; [|discriminate].
  steps. intros H; injection H as _ <-. cbn [fs].
  unfold existsSync, widgetJsPath in Ejs. rewrite lookup_join in Ejs.
  destruct (lookup _ OUT) as [[c|entries]|]; try discriminate. eauto.
Qed.

(** Where the build loop of a run starts: nothing built or written yet, the
    output directory removed once and empty. *)
Lemma phase_start (fs0 : node) (targets : list EntryTarget) (base : option Config)
  (ws : world) :
  phase fs0 targets base ws ->
  builds_of (trace ws) = []
  /\ writes_of (trace ws) = []
  /\ removals_of (trace ws) = [OUT]
  /\ lookup (fs ws) OUT = Some (Dir [])
  /\ existsSync (fs ws) MANIFEST = false
  /\ NoDup (map name targets).
Proof.
  intros (wd & Hd & Hne & Hp & Hc).
  pose proof (discovery_names _ _ _ Hd) as Hnames.
  apply discovery_frame in Hd as [Hfs (warnings & Htr)]. cbn [fresh fs trace app] in *.
  unfold announce_and_prepare, bind, emit in Hp. rewrite prepareOutput_eq in Hp.
  cbn [fs trace] in Hp.
  destruct (rmSync (fs wd) OUT OUT) as [removed|e] eqn:Er; [|discriminate].
  destruct (mkdirSync removed OUT OUT) as [clean|e] eqn:Em; [|discriminate].
  injection Hp as <-. cbn [fs trace].
  assert (Hout : lookup clean OUT = Some (Dir [])).
  { apply (lookup_mkdirSync _ _ _ _ Em), (lookup_rmSync _ _ _ _ Er). unfold OUT_DIR, join.
    intros H. symmetry in H. revert H. apply app_cons_not_nil. }
  assert (Hw : forall ws0, writes_of (map ConsoleWarn ws0) = []
                           /\ builds_of (map ConsoleWarn ws0) = []
                           /\ removals_of (map ConsoleWarn ws0) = [])
    by (induction ws0; simpl; auto).
  destruct (Hw warnings) as (Hw1 & Hw2 & Hw3).
  rewrite Htr. count_events. rewrite Hw1, Hw2, Hw3.
  repeat split; auto.
  unfold existsSync, MANIFEST_PATH. rewrite lookup_join, Hout. reflexivity.
Qed.

(** A run that reaches its build loop ends as the loop and the writing of
    the manifest decide. *)
Lemma run_of_phase (fs0 : node) (targets : list EntryTarget) (base : option Config)
  (ws : world) :
  phase fs0 targets base ws ->
  the_run (fresh fs0) =
  match loop base (PUBLIC_DIR WEB_ROOT fs0) targets [] ws with
  | (Throw e, w1) => (1, {| fs := fs w1; trace := trace w1 ++ [ConsoleError e] |})
  | (Ok manifest, w1) =>
      match writeFileSync (fs w1) MANIFEST (JSON_stringify manifest) MANIFEST with
      | Ok fs' =>
          (0, {| fs := fs';
                 trace := trace w1 ++ [WroteFile MANIFEST (JSON_stringify manifest);
                                       ConsoleLog ManifestWritten] |})
      | Throw e => (1, {| fs := fs w1; trace := trace w1 ++ [ConsoleError e] |})
      end
  end.
Proof.
  intros (wd & Hd & Hne & Hp & Hc).
  unfold run. rewrite main_eq. cbn [fresh fs]. rewrite Hd.
  destruct targets as [|t rest]; [congruence|]. rewrite Hp.
  unfold build_all. steps. rewrite Hc.
  destruct (loop base (PUBLIC_DIR WEB_ROOT fs0) (t :: rest) [] ws) as [[manifest|e] w1];
    [|reflexivity].
  destruct (writeFileSync (fs w1) MANIFEST (JSON_stringify manifest) MANIFEST);
    cbn [finish fs trace]; [|reflexivity].
  now rewrite <- app_assoc.
Qed.

(** C8.  If the source root directory does not exist, the run fails before
    discovery, before the output directory is touched and before any build:
    the error [Directory not found:] followed by the directory is raised and
    reported, the exit code is 1, and the file system is as it was. *)
Theorem missing_source_root_is_fatal (w : world) :
  existsSync (fs w) SRC = false ->
  the_run w
  = (1, {| fs := fs w;
           trace := trace w ++ [ConsoleError (Error ("Directory not found: " ++ render SRC))] |}).
Proof.
  intros H. unfold run, main, ensureDirectoryExists. steps. now rewrite H.
Qed.

(** C3, amended.  On every run in which discovery finds at least one
    target, the output directory is removed right after discovery, before
    any build is invoked, and made again, empty; everything from the loading
    of the configuration on runs in that state.  Removing it fails only when
    its path runs into a regular file: the run then aborts with [ENOTDIR],
    without a build, and the file system is as it was.  Once it is removed,
    making it again does not fail.  A run in which discovery finds no target
    returns without touching the file system. *)
Theorem output_reset_after_discovery (fs0 : node) (targets : list EntryTarget)
  (wd : world) :
  discovery WEB_ROOT (fresh fs0) = (Ok targets, wd) ->
  (targets = [] ->
   the_run (fresh fs0)
   = (0, {| fs := fs0; trace := trace wd ++ [ConsoleWarn NothingToBuild] |}))
  /\ (targets <> [] ->
      builds_of (trace wd) = []
      /\ match rmSync fs0 OUT OUT with
         | Ok removed =>
             existsSync removed OUT = false
             /\ exists clean,
                  mkdirSync removed OUT OUT = Ok clean
                  /\ lookup clean OUT = Some (Dir [])
                  /\ the_run (fresh fs0)
                     = finish
                         (build_all WEB_ROOT BUILD_MODE Config loadConfigFromFile build
                            JSON_stringify (PUBLIC_DIR WEB_ROOT fs0) targets
                            {| fs := clean;
                               trace := trace wd ++ [ConsoleLog (Found (map name targets));
                                                     RemovedDir OUT; MadeDir OUT] |})
         | Throw e =>
             runs_into_file fs0 OUT
             /\ e = SystemError "ENOTDIR" OUT
             /\ the_run (fresh fs0)
                = (1, {| fs := fs0;
                         trace := trace wd ++ [ConsoleLog (Found (map name targets));
                                               ConsoleError e] |})
         end).
Proof.
  intros Hd. pose proof (discovery_frame _ _ _ Hd) as [Hfs (warnings & Htr)].
  cbn [fresh fs trace app] in *.
  assert (Hout : OUT <> []).
  { unfold OUT_DIR, join. intros H. symmetry in H. revert H. apply app_cons_not_nil. }
  split.
  - intros ->. unfold run. rewrite main_eq. cbn [fresh fs]. rewrite Hd.
    unfold emit, finish. now rewrite Hfs.
  - intros Hne. split.
    + rewrite Htr. clear. induction warnings; simpl; auto.
    + assert (Hrun : the_run (fresh fs0)
                     = finish (match announce_and_prepare WEB_ROOT targets wd with
                               | (Ok _, ws) =>
                                   build_all WEB_ROOT BUILD_MODE Config loadConfigFromFile
                                     build JSON_stringify (PUBLIC_DIR WEB_ROOT fs0) targets ws
                               | (Throw e, ws) => (Throw e, ws)
                               end)).
      { unfold run. rewrite main_eq. cbn [fresh fs]. rewrite Hd.
        destruct targets; [congruence | reflexivity]. }
      rewrite Hrun. unfold announce_and_prepare, bind, emit. rewrite prepareOutput_eq.
      cbn [fs trace]. rewrite Hfs.
      pose proof (rmSync_outcome fs0 OUT OUT) as Hrm.
      destruct (rmSync fs0 OUT OUT) as [removed|e] eqn:Er.
      * split; [unfold existsSync; now rewrite (lookup_rmSync _ _ _ _ Er Hout)|].
        destruct (mkdirSync_after_rmSync _ _ _ OUT _ Er Hout) as (clean & Em).
        exists clean. rewrite Em.
        split; [reflexivity|].
        split; [apply (lookup_mkdirSync _ _ _ _ Em), (lookup_rmSync _ _ _ _ Er Hout)|].
        now rewrite <- !app_assoc.
      * destruct Hrm as [Hb ->]. repeat split; [now apply blocked_spec|].
        cbn [finish fs trace]. now rewrite <- !app_assoc.
Qed.

(** The entry of a target stays as it is while targets of other names are
    built. *)
Lemma build_loop_entry_kept (base : option Config) (public : option path)
  (targets : list EntryTarget) (manifest : Manifest) (w : world)
  (m' : Manifest) (w1 : world) (key : string) :
  loop base public targets manifest w = (Ok m', w1) ->
  ~ In key (map name targets) ->
  entry_of m' key = entry_of manifest key.
Proof.
  revert manifest w; induction targets as [|t rest IH]; intros manifest w;
    cbn [build_loop].
  - steps. intros H _; now injection H as <- <-.
  - unfold bind. rewrite build_target_eq.
    destruct (selectCss WEB_ROOT (fs w) t) as [cssToInclude|e]; [|discriminate].
    cbv zeta.
    destruct (fst (build _ (fs w))) as [[]|e]; [|discriminate].
    destruct (existsSync (snd (build _ (fs w))) (js_of t)); [|discriminate].
    intros H Hkey. simpl in Hkey.
    rewrite (IH _ _ H) by (intros Hin; apply Hkey; now right).
    apply entry_of_assign_other. intros ->. apply Hkey. now left.
Qed.

(** C7.  In a run that reaches its build loop: when the bundler has been
    invoked for a target and has returned, and the file [name.js] is not in
    the output directory, the run ends there with exit code 1 and the error
    whose message names the missing path; the bundler has been invoked for
    the targets up to that one and for no later target. *)
Theorem missing_js_output_aborts (fs0 : node) (pre : list EntryTarget)
  (target : EntryTarget) (post : list EntryTarget) (base : option Config)
  (ws : world) (m1 : Manifest) (w1 : world) (cssToInclude : list path) (fs2 : node) :
  phase fs0 (pre ++ target :: post) base ws ->
  loop base (PUBLIC_DIR WEB_ROOT fs0) pre [] ws = (Ok m1, w1) ->
  selectCss WEB_ROOT (fs w1) target = Ok cssToInclude ->
  build (config_of base (PUBLIC_DIR WEB_ROOT fs0) target cssToInclude) (fs w1) = (Ok tt, fs2) ->
  existsSync fs2 (js_of target) = false ->
  the_run (fresh fs0)
  = (1, {| fs := fs2;
           trace := trace w1 ++ [ConsoleLog (Building (name target) (entryFile target));
                                 BundlerBuild (name target);
                                 ConsoleError (Error (missing_output WEB_ROOT target))] |})
  /\ missing_output WEB_ROOT target
     = ("Expected JavaScript output for " ++ dquote ++ name target ++ dquote
        ++ " not found: " ++ render (js_of target))%string
  /\ builds_of (trace (snd (the_run (fresh fs0)))) = map name pre ++ [name target].
Proof.
  intros Hphase Hpre Hcss Hbuild Hjs.
  assert (Hrun : the_run (fresh fs0)
                 = (1, {| fs := fs2;
                          trace := trace w1
                                   ++ [ConsoleLog (Building (name target) (entryFile target));
                                       BundlerBuild (name target);
                                       ConsoleError (Error (missing_output WEB_ROOT target))] |})).
  { rewrite (run_of_phase _ _ _ _ Hphase), build_loop_app, Hpre.
    cbn [build_loop]. unfold bind. rewrite build_target_eq, Hcss. cbv zeta.
    rewrite Hbuild. cbn [fst snd]. rewrite Hjs. cbn [fs trace].
    now rewrite <- !app_assoc. }
  repeat split; [exact Hrun|].
  rewrite Hrun. cbn [snd trace].
  apply build_loop_builds in Hpre. apply phase_start in Hphase as (Hb & _).
  rewrite Hb in Hpre. unfold builds_of in *. rewrite flat_map_app, Hpre. reflexivity.
Qed.

(** For every target whose build returns and whose JavaScript output is
    there, the turn of the loop ends well whether or not [name.css] exists,
    and the entry it assigns to the manifest has a null [css] field exactly
    when [name.css] does not exist in the output directory after the build,
    and the path [widgets/name.css] otherwise; for a target not named
    [__proto__], that entry is what the manifest holds for the target at the
    end of the loop. *)
Theorem css_field_by_existence (base : option Config) (public : option path)
  (manifest : Manifest) (target : EntryTarget) (w : world)
  (cssToInclude : list path) (fs2 : node) :
  selectCss WEB_ROOT (fs w) target = Ok cssToInclude ->
  build (config_of base public target cssToInclude) (fs w) = (Ok tt, fs2) ->
  existsSync fs2 (js_of target) = true ->
  exists entry,
    target_step base public manifest target w
    = (Ok (assign manifest (name target) entry),
       {| fs := fs2;
          trace := trace w ++ [ConsoleLog (Building (name target) (entryFile target));
                               BundlerBuild (name target);
                               ConsoleLog (Built (name target)
                                             (existsSync fs2 (css_of target)))] |})
    /\ (css entry = None <-> existsSync fs2 (css_of target) = false)
    /\ (existsSync fs2 (css_of target) = true ->
        css entry = Some ("widgets/" ++ name target ++ ".css")%string)
    /\ (name target <> "__proto__" ->
        forall post m_end w2 w_end,
          ~ In (name target) (map name post) ->
          loop base public post (assign manifest (name target) entry) w2 = (Ok m_end, w_end) ->
          entry_of m_end (name target) = Some entry).
Proof.
  intros Hcss Hbuild Hjs.
  exists (manifest_entry WEB_ROOT target (existsSync fs2 (css_of target))).
  split; [|split; [|split]].
  - rewrite build_target_eq, Hcss. cbv zeta. rewrite Hbuild. cbn [fst snd].
    rewrite Hjs. now rewrite <- !app_assoc.
  - unfold manifest_entry. cbn [css].
    destruct (existsSync fs2 (css_of target)); split; congruence.
  - intros ->. unfold manifest_entry. cbn [css].
    unfold widgetCssPath, OUT_DIR, join. rewrite <- app_assoc, relative_below.
    reflexivity.
  - intros Hproto post m_end w2 w_end Hpost Hloop.
    rewrite (build_loop_entry_kept _ _ _ _ _ _ _ _ Hloop Hpost).
    now apply entry_of_assign.
Qed.

(** C4, amended.  In a run that discovers at least one target and reaches
    its build loop, with a bundler that makes no file at the path of the
    manifest: when every target builds and is verified, the manifest file is
    written exactly once, after the bundler was invoked for every target,
    and holds one entry per target (no target being named [__proto__]); when
    a target's build throws or its JavaScript output is missing, the loop
    throws, the exit code is 1, nothing is written and no manifest file
    exists. *)
Theorem manifest_written_once_after_all_builds (fs0 : node)
  (targets : list EntryTarget) (base : option Config) (ws : world) :
  leaves_manifest_to_script WEB_ROOT Config build ->
  phase fs0 targets base ws ->
  (forall manifest w1,
      loop base (PUBLIC_DIR WEB_ROOT fs0) targets [] ws = (Ok manifest, w1) ->
      exists fs',
        the_run (fresh fs0)
        = (0, {| fs := fs';
                 trace := trace w1 ++ [WroteFile MANIFEST (JSON_stringify manifest);
                                       ConsoleLog ManifestWritten] |})
        /\ readFileSync fs' MANIFEST = Ok (JSON_stringify manifest)
        /\ writes_of (trace w1) = []
        /\ builds_of (trace w1) = map name targets
        /\ NoDup (map fst manifest)
        /\ (~ In "__proto__" (map name targets) ->
            (forall k, In k (map fst manifest) <-> In k (map name targets))
            /\ List.length manifest = List.length targets))
  /\ (forall e w1,
         loop base (PUBLIC_DIR WEB_ROOT fs0) targets [] ws = (Throw e, w1) ->
         the_run (fresh fs0)
         = (1, {| fs := fs w1; trace := trace w1 ++ [ConsoleError e] |})
         /\ existsSync (fs w1) MANIFEST = false
         /\ writes_of (trace w1) = [])
  /\ (forall pre target post m1 w1 cssToInclude,
         targets = pre ++ target :: post ->
         loop base (PUBLIC_DIR WEB_ROOT fs0) pre [] ws = (Ok m1, w1) ->
         selectCss WEB_ROOT (fs w1) target = Ok cssToInclude ->
         let built :=
           build (config_of base (PUBLIC_DIR WEB_ROOT fs0) target cssToInclude) (fs w1) in
         (exists e, fst built = Throw e) \/ existsSync (snd built) (js_of target) = false ->
         exists e w2, loop base (PUBLIC_DIR WEB_ROOT fs0) targets [] ws = (Throw e, w2)).
Proof.
  intros Hbundler Hphase.
  pose proof (phase_start _ _ _ _ Hphase) as (Hb & Hw & _ & Hout & Hman & Hnames).
  assert (Hne : targets <> []) by (destruct Hphase as (? & _ & H & _); exact H).
  split; [|split].
  - intros manifest w1 Hloop.
    pose proof (build_loop_frame _ _ _ _ _ _ _ Hloop) as (Hw1 & _ & Hm1).
    specialize (Hm1 Hbundler Hman).
    destruct (build_loop_out_dir _ _ _ _ _ _ _ Hne Hloop) as (entries & Hdir).
    assert (Hfree : assoc "manifest.json" entries = None).
    { unfold existsSync, MANIFEST_PATH in Hm1. rewrite lookup_join, Hdir in Hm1.
      destruct (assoc "manifest.json" entries); [discriminate | reflexivity]. }
    destruct (writeFileSync_creates _ _ _ _ (JSON_stringify manifest) MANIFEST Hdir Hfree)
      as (fs' & Hwrite).
    fold MANIFEST in Hwrite.
    exists fs'. rewrite (run_of_phase _ _ _ _ Hphase), Hloop.
    change (join OUT "manifest.json") with MANIFEST in Hwrite. rewrite Hwrite.
    pose proof (build_loop_keys _ _ _ _ _ _ _ Hloop) as [Hnd Hkeys].
    repeat split.
    + unfold readFileSync. now rewrite (lookup_writeFileSync _ _ _ _ _ Hwrite).
    + congruence.
    + rewrite (build_loop_builds _ _ _ _ _ _ _ Hloop), Hb. reflexivity.
    + apply Hnd. constructor.
    + intros Hk. apply Hkeys in Hk as [[] | [Hk _]]. exact Hk.
    + intros Hk. apply Hkeys. right. split; [exact Hk | congruence].
    + rewrite <- (length_map fst manifest), <- (length_map name targets).
      apply Permutation.Permutation_length, Permutation.NoDup_Permutation;
        [apply Hnd; constructor | exact Hnames |].
      intros k. rewrite Hkeys. simpl. split.
      * intros [[] | [Hk _]]. exact Hk.
      * intros Hk. right. split; [exact Hk | congruence].
  - intros e w1 Hloop.
    pose proof (build_loop_frame _ _ _ _ _ _ _ Hloop) as (Hw1 & _ & Hm1).
    rewrite (run_of_phase _ _ _ _ Hphase), Hloop.
    repeat split; [auto | congruence].
  - intros pre target post m1 w1 cssToInclude -> Hpre Hcss built Hfail.
    rewrite build_loop_app, Hpre. cbn [build_loop]. unfold bind.
    rewrite build_target_eq, Hcss. cbv zeta. fold built.
    destruct Hfail as [(e & He) | Hjs].
    + rewrite He. eauto.
    + destruct (fst built) as [[]|e]; [rewrite Hjs|]; eauto.
Qed.

End Script.

(** *** The pipeline on the example projects *)

Lemma emit_file_leaves_manifest (fs : node) (dir : path) (name content : string) :
  existsSync fs (MANIFEST_PATH ["web"]) = false ->
  existsSync (emit_file fs dir name content) (MANIFEST_PATH ["web"]) = false.
Proof.
  intros H. unfold emit_file.
  destruct (String.eqb_spec name "manifest.json") as [|Hname]; [exact H|].
  destruct (writeFileSync fs (join dir name) content (join dir name)) as [fs'|e] eqn:E;
    [|exact H].
  unfold existsSync in *.
  rewrite (lookup_writeFileSync_other _ _ _ _ _ _ E); [reflexivity | |].
  - intros Heq. unfold MANIFEST_PATH, join in Heq.
    apply app_inj_tail in Heq as [_ Heq]. congruence.
  - destruct (lookup fs (MANIFEST_PATH ["web"])); [discriminate | reflexivity].
Qed.

Lemma demo_build_leaves_manifest : leaves_manifest_to_script ["web"] unit demo_build.
Proof.
  intros cfg fs H. unfold demo_build.
  destruct (String.eqb _ "broken.js"); [exact H|].
  destruct (String.eqb _ "empty.js"); [exact H|].
  destruct (wrapCssPaths unit cfg); cbn [snd]; auto using emit_file_leaves_manifest.
Qed.

Lemma phase_two_widgets :
  build_phase ["web"] unit demo_load project_two_widgets
    [counter_target; clock_target] None
    (start_of project_two_widgets ["counter"; "clock"]).
Proof.
  eexists. split; [cbv; reflexivity|]. split; [discriminate|]. split; cbv; reflexivity.
Qed.

Lemma phase_empty_output :
  build_phase ["web"] unit demo_load project_empty_output
    [counter_target; empty_target; clock_target] None
    (start_of project_empty_output ["counter"; "empty"; "clock"]).
Proof.
  eexists. split; [cbv; reflexivity|]. split; [discriminate|]. split; cbv; reflexivity.
Qed.

Lemma phase_broken :
  build_phase ["web"] unit demo_load project_broken
    [counter_target; broken_target; clock_target] None
    (start_of project_broken ["counter"; "broken"; "clock"]).
Proof.
  eexists. split; [cbv; reflexivity|]. split; [discriminate|]. split; cbv; reflexivity.
Qed.

(** The project has no [src] directory: the run fails at once and the old
    output is still there. *)
Lemma missing_source_root_is_fatal_witness :
  demo_run project_no_src
  = (1, {| fs := project_no_src;
           trace := [ConsoleError (Error "Directory not found: /web/src")] |}).
Proof.
  apply (missing_source_root_is_fatal ["web"] "production" unit demo_load demo_build
           demo_stringify (fresh project_no_src)).
  reflexivity.
Defined.

(** C3, as stated: the output directory is reset on every run, also when
    discovery finds no target.  The project has a source root without any
    widget: the run ends well, the trace has no removal, and the file system
    is as it was, old output included. *)
Lemma no_target_no_reset :
  fst (demo_run project_no_widget) = 0
  /\ targets_of project_no_widget = []
  /\ fs (snd (demo_run project_no_widget)) = project_no_widget
  /\ ~ resets_output_first ["web"] (demo_run project_no_widget).
Proof.
  repeat split; try reflexivity.
  intros (before & after & H & _).
  assert (Hin : In (RemovedDir (OUT_DIR ["web"])) (trace (snd (demo_run project_no_widget))))
    by (rewrite H; apply in_elt).
  vm_compute in Hin. destruct Hin as [Hin | [Hin | []]]; discriminate.
Qed.

(** The output directory cannot be removed because [dist] is a file: the
    run aborts before any build and the file system is as it was. *)
Example reset_blocked_by_file :
  demo_run project_dist_is_file
  = (1, {| fs := project_dist_is_file;
           trace := [ConsoleLog (Found ["counter"]);
                     ConsoleError (SystemError "ENOTDIR" ["web"; "dist"; "widgets"])] |}).
Proof. vm_compute. reflexivity. Qed.

Lemma output_reset_after_discovery_witness :
  resets_output_first ["web"] (demo_run project_two_widgets)
  /\ existsSync (fs (start_of project_two_widgets ["counter"; "clock"]))
       ["web"; "dist"; "widgets"; "old.js"] = false.
Proof.
  destruct (output_reset_after_discovery ["web"] "production" unit demo_load demo_build
              demo_stringify project_two_widgets [counter_target; clock_target]
              (fresh project_two_widgets) eq_refl) as [_ H].
  destruct (H ltac:(discriminate)) as (_ & Hreset).
  destruct (rmSync project_two_widgets (OUT_DIR ["web"]) (OUT_DIR ["web"]))
    as [removed|e] eqn:Er; [|vm_compute in Er; discriminate].
  vm_compute in Er. injection Er as <-.
  destruct Hreset as (_ & clean & Hclean & _ & Hrun).
  vm_compute in Hclean. injection Hclean as <-.
  split; [|reflexivity].
  exists [ConsoleLog (Found ["counter"; "clock"])]. eexists.
  split; [|reflexivity].
  unfold demo_run. rewrite Hrun. vm_compute. reflexivity.
Defined.

Lemma missing_js_output_aborts_witness :
  fst (demo_run project_empty_output) = 1
  /\ builds_of (trace (snd (demo_run project_empty_output))) = ["counter"; "empty"]
  /\ In (ConsoleError
           (Error (missing_output ["web"] empty_target)))
        (trace (snd (demo_run project_empty_output))).
Proof.
  edestruct (missing_js_output_aborts ["web"] "production" unit demo_load demo_build
               demo_stringify project_empty_output [counter_target] empty_target
               [clock_target] None
               (start_of project_empty_output ["counter"; "empty"; "clock"]))
    as (Hrun & _ & Hbuilds).
  - exact phase_empty_output.
  - cbv. reflexivity.
  - cbv. reflexivity.
  - cbv. reflexivity.
  - cbv. reflexivity.
  - unfold demo_run. rewrite Hrun. repeat split.
    cbn [snd trace]. apply in_or_app. right. simpl. auto.
Defined.

Lemma css_field_by_existence_witness :
  exists w,
    build_target ["web"] "production" unit demo_build None None [] counter_target
      (start_of project_two_widgets ["counter"; "clock"])
    = (Ok [("counter", {| js := "widgets/counter.js"; css := Some "widgets/counter.css";
                          rootId_ := "counter-root" |})], w)
  /\ exists w',
    build_target ["web"] "production" unit demo_build None None [] clock_target
      (start_of project_two_widgets ["counter"; "clock"])
    = (Ok [("clock", {| js := "widgets/clock.js"; css := None;
                        rootId_ := "clock-root" |})], w').
Proof.
  edestruct (css_field_by_existence ["web"] "production" unit demo_build None None []
               counter_target (start_of project_two_widgets ["counter"; "clock"]))
    as (entry & Hstep & _).
  - cbv. reflexivity.
  - cbv. reflexivity.
  - cbv. reflexivity.
  - eexists. split; [vm_compute; reflexivity|].
    eexists. vm_compute. reflexivity.
Defined.

(** C9, at the failing input.  The widget directory is named [__proto__]:
    its build returns, its JavaScript output and its stylesheet output
    exist, the turn of the loop ends well and the run ends with exit code 0;
    but the assignment to the manifest makes no entry for the widget, so the
    manifest that is written holds no [css] field for it, neither null nor a
    path. *)
Theorem proto_widget_gets_no_entry :
  targets_of project_proto = [proto_target; clock_target]
  /\ fst (demo_run project_proto) = 0
  /\ builds_of (trace (snd (demo_run project_proto))) = ["__proto__"; "clock"]
  /\ existsSync (fs (snd (demo_run project_proto))) (widgetJsPath ["web"] proto_target)
     = true
  /\ existsSync (fs (snd (demo_run project_proto))) (widgetCssPath ["web"] proto_target)
     = true
  /\ readFileSync (fs (snd (demo_run project_proto))) (MANIFEST_PATH ["web"]) = Ok "clock"
  /\ exists w1,
       build_loop ["web"] "production" unit demo_build None None
         [proto_target; clock_target] [] (start_of project_proto ["__proto__"; "clock"])
       = (Ok [("clock", {| js := "widgets/clock.js"; css := None;
                           rootId_ := "clock-root" |})], w1)
       /\ In (ConsoleLog (Built "__proto__" true)) (trace w1)
       /\ entry_of [("clock", {| js := "widgets/clock.js"; css := None;
                                 rootId_ := "clock-root" |})] "__proto__" = None.
Proof.
  repeat split; try (vm_compute; reflexivity).
  eexists. split; [vm_compute; reflexivity|]. split; [|reflexivity].
  simpl. tauto.
Qed.

(** C4, as stated: the manifest is written once, after all targets have
    built, with one entry per built target.  The project has no widget: the
    run reports success, writes no manifest, and the manifest of an earlier
    run stays where it was. *)
Lemma no_target_no_manifest :
  fst (demo_run project_no_widget) = 0
  /\ targets_of project_no_widget = []
  /\ readFileSync (fs (snd (demo_run project_no_widget))) (MANIFEST_PATH ["web"]) = Ok "old"
  /\ ~ writes_manifest_once ["web"] (demo_run project_no_widget).
Proof.
  repeat split; try reflexivity.
  intros (content & H). vm_compute in H. discriminate.
Qed.

Lemma manifest_written_once_after_all_builds_witness :
  (fst (demo_run project_two_widgets) = 0
   /\ writes_manifest_once ["web"] (demo_run project_two_widgets)
   /\ readFileSync (fs (snd (demo_run project_two_widgets))) (MANIFEST_PATH ["web"])
      = Ok "counter,clock")
  /\ (fst (demo_run project_broken) = 1
      /\ existsSync (fs (snd (demo_run project_broken))) (MANIFEST_PATH ["web"]) = false).
Proof.
  split.
  - destruct (manifest_written_once_after_all_builds ["web"] "production" unit demo_load
                demo_build demo_stringify project_two_widgets
                [counter_target; clock_target] None
                (start_of project_two_widgets ["counter"; "clock"])
                demo_build_leaves_manifest phase_two_widgets) as (Hok & _ & _).
    edestruct Hok as (fs' & Hrun & Hread & Hwrites & _).
    + cbv. reflexivity.
    + unfold demo_run, writes_manifest_once. rewrite Hrun. cbn [fst snd fs trace].
      repeat split; [|exact Hread].
      eexists. cbv. reflexivity.
  - destruct (manifest_written_once_after_all_builds ["web"] "production" unit demo_load
                demo_build demo_stringify project_broken
                [counter_target; broken_target; clock_target] None
                (start_of project_broken ["counter"; "broken"; "clock"])
                demo_build_leaves_manifest phase_broken) as (_ & Hfail & _).
    edestruct Hfail as (Hrun & Hnone & _).
    + cbv. reflexivity.
    + unfold demo_run. rewrite Hrun. split; [reflexivity | exact Hnone].
Defined.

End Orchestrator.

(* ===================================================================== *)
(** ** CssSelector: which stylesheets are dropped and which are found *)
(* ===================================================================== *)

Module CssSelectorMore.
Import JsString Regex Path Fs Spec SpecMore StringFacts FsFacts ListFacts Pipeline.

(** A match of the import expression at the start of [s] is a literal
    import of the form that the expression was built for. *)
Lemma import_match_inv (form s : string) (cap : option string) :
  match_here false (importRegex (escapeForRegex form)) s = Some cap ->
  import_of s form.
Proof.
  unfold match_here, importRegex. cbn [rmatch]. intros H.
  rewrite lit_k_strip in H.
  destruct (strip_prefix "import" s) as [s1|] eqn:E1; [|discriminate].
  destruct s1 as [|c s1]; [discriminate|].
  destruct (is_space c) eqn:Hc; [|discriminate].
  rewrite star_k_det in H
    by (intros [|d t] Ht; simpl in *; [reflexivity | now rewrite (space_not_quote d Ht)]).
  destruct (skip is_space s1) as [|q1 s2] eqn:E2; [discriminate|].
  destruct (is_quote q1) eqn:Q1; [|discriminate].
  rewrite lit_k_strip, CssSelector.pattern_text_escape in H.
  destruct (strip_prefix form s2) as [s3|] eqn:E3; [|discriminate].
  destruct s3 as [|q2 after]; [discriminate|].
  destruct (is_quote q2) eqn:Q2; [|discriminate].
  exists (String c (span is_space s1)), q1, q2, after.
  repeat split; auto; try discriminate.
  - rewrite (strip_prefix_inv _ _ _ E1). f_equal. cbn [append]. f_equal.
    rewrite <- (span_skip is_space s1) at 1. f_equal. rewrite E2. f_equal.
    exact (strip_prefix_inv _ _ _ E3).
  - simpl. rewrite Hc. apply all_chars_span.
Qed.

(** The test of [filterCssAlreadyImported] succeeds exactly on the sources
    that hold a literal import of the form. *)
Lemma import_test_spec (entrySource form : string) :
  test false (importRegex (escapeForRegex form)) (replace_crlf entrySource) = true
  <-> imports_literally entrySource form.
Proof.
  split; [|apply CssSelector.imports_literally_test].
  unfold test.
  destruct (exec false _ _) as [cap|] eqn:E; [|discriminate]. intros _.
  destruct (exec_some _ _ _ _ E) as (n & Hn & Hm & _).
  destruct (import_match_inv _ _ _ Hm) as (ws & q1 & q2 & after & Hd & Hne & Hws & Q1 & Q2).
  destruct (take_drop n _ Hn) as [Hs _].
  exists (substring 0 n (replace_crlf entrySource)), ws, q1, q2, after.
  repeat split; auto. now rewrite <- Hd.
Qed.

Lemma filterCssAlreadyImported_characterized
  (cssPaths : list path) (entryFile : path) (entrySource : string) (cssPath : path) :
  In cssPath (filterCssAlreadyImported cssPaths entryFile entrySource) <->
  In cssPath cssPaths
  /\ ~ imports_literally entrySource (normalizedRelative (dirname entryFile) cssPath).
Proof.
  unfold filterCssAlreadyImported.
  rewrite filter_In, negb_true_iff, <- import_test_spec.
  destruct (test false _ _); split; intros [H1 H2]; split; auto; congruence.
Qed.

(** X1.  [filterCssAlreadyImported] keeps the paths in their order and
    drops exactly those that the entry source, line ends normalized, imports
    by a literal import statement of their normalized relative form. *)
Theorem filterCssAlreadyImported_drops_literal_imports
  (cssPaths : list path) (entryFile : path) (entrySource : string) :
  subseq (filterCssAlreadyImported cssPaths entryFile entrySource) cssPaths
  /\ forall cssPath,
       In cssPath (filterCssAlreadyImported cssPaths entryFile entrySource) <->
       In cssPath cssPaths
       /\ ~ imports_literally entrySource (normalizedRelative (dirname entryFile) cssPath).
Proof.
  split; [apply subseq_filter | apply filterCssAlreadyImported_characterized].
Qed.

End CssSelectorMore.

(* ===================================================================== *)
(** ** CssSelector: what the scan finds *)
(* ===================================================================== *)

Module CssScanMore.
Import JsString Regex Path Fs Spec SpecMore StringFacts FsFacts ListFacts CssScan Pipeline.

Lemma in_bindings (n : string) (c : node) (l : list (string * node)) :
  assoc n l = Some c -> In (n, c) (bindings l).
Proof.
  induction l as [|[n0 c0] l IH]; simpl; [discriminate|].
  destruct (String.eqb_spec n0 n) as [->|Hne].
  - intros H; injection H as ->. now left.
  - intros H. right. apply in_unbind. split; [auto | simpl; congruence].
Qed.

(** The [for] loop over one listing, in closed form: the entered
    directories go on the queue, last one on top, and the stylesheets go
    after the results, in listing order. *)
Lemma scan_entries_closed (current : path) (dirEntries : list Dirent)
  (queue results : list path) :
  scan_entries current dirEntries queue results
  = (rev (map (join current) (entered_names dirEntries)) ++ queue,
     results ++ map (join current) (stylesheet_names dirEntries)).
Proof.
  revert queue results; induction dirEntries as [|d rest IH]; intros queue results.
  - simpl. now rewrite app_nil_r.
  - cbn [scan_entries]. unfold entered_names, stylesheet_names in *.
    cbn [flat_map]. destruct (isDirectory d); cbn [negb andb].
    + destruct (String.eqb (Fs.name d) "node_modules" || startsWith (Fs.name d) ".");
        cbn [negb app]; rewrite IH; [reflexivity|].
      cbn [map rev]. now rewrite <- app_assoc.
    + destruct (existsb _ CSS_EXTENSIONS); cbn [negb andb app]; [|apply IH].
      destruct (test true CSS_MODULE_REGEX (Fs.name d)); cbn [negb app]; rewrite IH;
        [reflexivity|].
      cbn [map]. now rewrite <- app_assoc.
Qed.

Lemma in_entered_names (l : list (string * node)) (d : string) :
  In d (entered_names (map dirent_of l)) <->
  (exists entries, In (d, Dir entries) l) /\ ~ skipped_dir d.
Proof.
  unfold entered_names. rewrite in_flat_map. split.
  - intros (dirent & Hin & Hd). apply in_map_iff in Hin as ([n c] & <- & Hin).
    cbn [dirent_of isDirectory Fs.name fst snd] in Hd.
    destruct c as [content|entries]; [destruct Hd|]. cbn [andb] in Hd.
    destruct (String.eqb n "node_modules" || startsWith n ".") eqn:E; [destruct Hd|].
    destruct Hd as [<- | []]. split; [eauto | now apply not_skipped].
  - intros [(entries & Hin) Hskip]. exists (dirent_of (d, Dir entries)).
    split; [now apply in_map|]. cbn [dirent_of isDirectory Fs.name fst snd andb].
    destruct (String.eqb_spec d "node_modules") as [->|_].
    + exfalso. apply Hskip. now left.
    + cbn [orb]. destruct (startsWith d ".") eqn:E; [|simpl; auto].
      exfalso. apply Hskip. now right.
Qed.

Lemma in_stylesheet_names (l : list (string * node)) (n : string) :
  In n (stylesheet_names (map dirent_of l)) <->
  (exists content, In (n, File content) l)
  /\ In (toLowerCase (extname n)) CSS_EXTENSIONS
  /\ ~ names_module n.
Proof.
  unfold stylesheet_names. rewrite in_flat_map. split.
  - intros (dirent & Hin & Hd). apply in_map_iff in Hin as ([m c] & <- & Hin).
    cbn [dirent_of isDirectory Fs.name fst snd] in Hd.
    destruct c as [content|entries]; [|destruct Hd]. cbn [negb andb] in Hd.
    destruct (existsb _ CSS_EXTENSIONS) eqn:Hext; [|destruct Hd].
    destruct (test true CSS_MODULE_REGEX m) eqn:Hmod; [destruct Hd|].
    destruct Hd as [<- | []]. repeat split; [eauto | now apply css_extension_spec |].
    intros Hm. apply module_regex_spec in Hm. congruence.
  - intros ((content & Hin) & Hext & Hmod). exists (dirent_of (n, File content)).
    split; [now apply in_map|]. cbn [dirent_of isDirectory Fs.name fst snd negb andb].
    apply css_extension_spec in Hext. rewrite Hext.
    destruct (test true CSS_MODULE_REGEX n) eqn:E; [|simpl; auto].
    exfalso. apply Hmod. now apply module_regex_spec.
Qed.

(** Whatever is a wanted stylesheet below a queued directory, or already a
    result, is a result at the end of the loop. *)
Lemma collect_loop_complete (fuel : nat) (fs : node) (queue results found : list path) :
  collect_loop fuel fs queue results = Some (Ok found) ->
  forall file,
    In file results \/ (exists q, In q queue /\ scanned_stylesheet fs q file) ->
    In file found.
Proof.
  revert queue results; induction fuel as [|fuel IH]; intros queue results;
    destruct queue as [|current queue]; simpl; try discriminate.
  - intros H file [Hf | (q & [] & _)]. now injection H as <-.
  - intros H file [Hf | (q & [] & _)]. now injection H as <-.
  - unfold readdirSync.
    destruct (lookup fs current) as [[content|entries]|] eqn:E; try discriminate.
    rewrite scan_entries_closed. cbn [fst snd]. intros H file Hfile.
    apply (IH _ _ H). destruct Hfile as [Hf | (q & [<- | Hq] & Hs)].
    + left. apply in_or_app. now left.
    + destruct Hs as (dirs & n & content & -> & Hdirs & Hext & Hmod & Hlook).
      destruct dirs as [|d dirs].
      * change (current ++ [] ++ [n]) with (join current n) in *.
        left. apply in_or_app. right. apply in_map. apply in_stylesheet_names.
        repeat split; auto. exists content. apply in_bindings.
        rewrite lookup_join, E in Hlook. exact Hlook.
      * right. exists (join current d). split.
        -- apply in_or_app. left. apply -> in_rev. apply in_map. apply in_entered_names.
           split; [|apply Hdirs; now left].
           rewrite lookup_app, E in Hlook. cbn [app lookup] in Hlook.
           destruct (assoc d entries) as [[c|sub]|] eqn:Ed; try discriminate.
           ++ destruct dirs; discriminate.
           ++ exists sub. now apply in_bindings.
        -- exists dirs, n, content.
           split; [unfold join; now rewrite <- !app_assoc|].
           split; [intros d' Hd'; apply Hdirs; now right|].
           split; [exact Hext|]. split; [exact Hmod|].
           exact Hlook.
    + right. exists q. split; [apply in_or_app; now right | exact Hs].
Qed.

(** The results of [collectCssFiles], as a set. *)
Lemma collectCssFiles_exact (fs : node) (startDir : path) (results : list path) :
  collectCssFiles fs startDir = Ok results ->
  forall file, In file results <-> scanned_stylesheet fs startDir file.
Proof.
  intros H file. pose proof (collectCssFiles_runs fs startDir) as Hrun. rewrite H in Hrun.
  split.
  - revert file. apply Forall_forall.
    apply (collect_loop_sound _ _ _ _ _ _
             (Forall_cons _ (ex_intro _ [] (conj (eq_sym (app_nil_r _))
                                                  (fun d (Hd : In d []) => False_ind _ Hd)))
                          (Forall_nil _))
             (Forall_nil _) Hrun).
  - intros Hs. apply (collect_loop_complete _ _ _ _ _ Hrun). right.
    exists startDir. split; [now left | exact Hs].
Qed.

(** X2.  When [collectCssFiles] returns, the paths it returns are exactly
    the files below the start directory that have a stylesheet extension in
    some letter case and no [.module.] in their name, and that lie under no
    [node_modules] or dot directory below the start directory: none of them
    is missed. *)
Theorem collectCssFiles_finds_every_stylesheet (fs : node) (startDir : path)
  (results : list path) :
  collectCssFiles fs startDir = Ok results ->
  forall file, In file results <-> scanned_stylesheet fs startDir file.
Proof. exact (collectCssFiles_exact fs startDir results). Qed.

Lemma collectCssFiles_finds_every_stylesheet_witness :
  In ["counter"; "theme"; "dark.SCSS"]
    [["counter"; "index.css"]; ["counter"; "theme"; "dark.SCSS"]]
  <-> scanned_stylesheet styled_widget ["counter"] ["counter"; "theme"; "dark.SCSS"].
Proof.
  apply (collectCssFiles_finds_every_stylesheet styled_widget ["counter"]
           [["counter"; "index.css"]; ["counter"; "theme"; "dark.SCSS"]]).
  reflexivity.
Defined.

Lemma prefix_of_join (p q : path) (n : string) :
  is_prefix p (join q n) -> is_prefix p q \/ p = join q n.
Proof.
  intros (rest & H). unfold join in *.
  destruct rest as [|x rest] using rev_ind.
  - right. now rewrite app_nil_r in H.
  - left. clear IHrest. rewrite app_assoc in H. apply app_inj_tail in H as [H _].
    now exists rest.
Qed.

Lemma join_prefix (q r : path) (n : string) : is_prefix (join q n) r -> is_prefix q r.
Proof. intros (rest & ->). unfold join. rewrite <- app_assoc. now eexists. Qed.

Lemma prefix_same_length (p q : path) :
  is_prefix p q -> List.length p = List.length q -> p = q.
Proof.
  intros (rest & ->) H. rewrite length_app in H.
  destruct rest; [now rewrite app_nil_r | simpl in H; lia].
Qed.

Lemma join_not_prefix (q : path) (n : string) : ~ is_prefix (join q n) q.
Proof.
  intros (rest & H). apply (f_equal (@List.length string)) in H.
  unfold join in H. rewrite !length_app in H. simpl in H. lia.
Qed.

Lemma join_inj (q : path) (a b : string) : join q a = join q b -> a = b.
Proof. unfold join. intros H. now apply app_inj_tail in H as [_ H]. Qed.

Lemma length_join (q : path) (n : string) : List.length (join q n) = S (List.length q).
Proof. unfold join. rewrite length_app. simpl. lia. Qed.

Lemma NoDup_map_same {A B : Type} (f : A -> B) (l : list A) (x y : A) :
  NoDup (map f l) -> In x l -> In y l -> f x = f y -> x = y.
Proof.
  induction l as [|a l IH]; simpl; [tauto|].
  intros Hnd. inversion Hnd as [|? ? Ha Hl]; subst.
  intros [-> | Hx] [-> | Hy] Hf; auto.
  - exfalso. apply Ha. rewrite Hf. now apply in_map.
  - exfalso. apply Ha. rewrite <- Hf. now apply in_map.
Qed.

Lemma entered_names_subseq (dirEntries : list Dirent) :
  subseq (entered_names dirEntries) (map Fs.name dirEntries).
Proof.
  unfold entered_names. induction dirEntries as [|d rest IH]; simpl; [constructor|].
  destruct (_ && _); simpl; now constructor.
Qed.

Lemma stylesheet_names_subseq (dirEntries : list Dirent) :
  subseq (stylesheet_names dirEntries) (map Fs.name dirEntries).
Proof.
  unfold stylesheet_names. induction dirEntries as [|d rest IH]; simpl; [constructor|].
  destruct (_ && _); simpl; now constructor.
Qed.

(** In a listing without a repeated name, no name is both queued and
    returned. *)
Lemma entered_not_stylesheet (dirEntries : list Dirent) (n : string) :
  NoDup (map Fs.name dirEntries) ->
  In n (entered_names dirEntries) -> In n (stylesheet_names dirEntries) -> False.
Proof.
  intros Hnd He Hs. unfold entered_names, stylesheet_names in *.
  apply in_flat_map in He as (d & Hd & He). apply in_flat_map in Hs as (d' & Hd' & Hs).
  destruct (isDirectory d) eqn:Ed; [|destruct He].
  destruct (negb _) in He; [|destruct He]. destruct He as [He | []].
  destruct (isDirectory d') eqn:Ed'; [destruct Hs|].
  destruct (_ && _) in Hs; [|destruct Hs]. destruct Hs as [Hs | []].
  assert (d = d') by (apply (NoDup_map_same Fs.name dirEntries); congruence).
  congruence.
Qed.

Lemma NoDup_map_join (current : path) (names : list string) :
  NoDup names -> NoDup (map (join current) names).
Proof.
  induction 1 as [|n names Hn Hnd IH]; simpl; constructor; auto.
  intros H. apply in_map_iff in H as (m & Hm & Hin). apply join_inj in Hm. congruence.
Qed.

(** One turn of the loop keeps the invariant. *)
Lemma scan_invariant_step (current : path) (dirEntries : list Dirent)
  (queue results : list path) :
  NoDup (map Fs.name dirEntries) ->
  scan_invariant (current :: queue) results ->
  scan_invariant (fst (scan_entries current dirEntries queue results))
    (snd (scan_entries current dirEntries queue results)).
Proof.
  intros Hnames (Hr & Hq & Hanti & Hbelow).
  rewrite scan_entries_closed. cbn [fst snd].
  inversion Hq as [|? ? Hcur Hq']; subst.
  pose proof (subseq_NoDup _ _ (entered_names_subseq dirEntries) Hnames) as He.
  pose proof (subseq_NoDup _ _ (stylesheet_names_subseq dirEntries) Hnames) as Hs.
  assert (Hold : forall q, In q queue -> ~ is_prefix q current /\ ~ is_prefix current q).
  { intros q Hin. split; intros Hp.
    - apply Hcur. rewrite <- (Hanti q current); simpl; auto.
    - apply Hcur. rewrite (Hanti current q); simpl; auto. }
  assert (Hpushed : forall p, In p (rev (map (join current) (entered_names dirEntries))) ->
                              exists d, In d (entered_names dirEntries) /\ p = join current d).
  { intros p Hp. apply in_rev in Hp. apply in_map_iff in Hp as (d & <- & Hd). eauto. }
  assert (Hadded : forall r, In r (map (join current) (stylesheet_names dirEntries)) ->
                             exists n, In n (stylesheet_names dirEntries) /\ r = join current n).
  { intros r Hin. apply in_map_iff in Hin as (n & <- & Hn). eauto. }
  split; [|split; [|split]].
  - apply NoDup_app; [exact Hr | now apply NoDup_map_join |].
    intros r Hin Hadd. apply Hadded in Hadd as (n & _ & ->).
    apply (Hbelow current (join current n)); simpl; auto. now exists [n].
  - apply NoDup_app; [apply NoDup_rev; now apply NoDup_map_join | exact Hq' |].
    intros p Hp Hin. apply Hpushed in Hp as (d & _ & ->).
    apply (proj2 (Hold _ Hin)). now exists [d].
  - intros q1 q2 H1 H2 Hp.
    apply in_app_or in H1 as [H1 | H1]; apply in_app_or in H2 as [H2 | H2].
    + apply Hpushed in H1 as (d1 & _ & ->). apply Hpushed in H2 as (d2 & _ & ->).
      apply prefix_same_length; [exact Hp | now rewrite !length_join].
    + apply Hpushed in H1 as (d1 & _ & ->). apply join_prefix in Hp.
      now apply (Hold _ H2) in Hp.
    + apply Hpushed in H2 as (d2 & _ & ->).
      apply prefix_of_join in Hp as [Hp | ->].
      * now apply (Hold _ H1) in Hp.
      * exfalso. apply (proj2 (Hold _ H1)). now exists [d2].
    + apply Hanti; simpl; auto.
  - intros q r Hq0 Hr0 Hp.
    apply in_app_or in Hq0 as [Hq0 | Hq0]; apply in_app_or in Hr0 as [Hr0 | Hr0].
    + apply Hpushed in Hq0 as (d & _ & ->). apply join_prefix in Hp.
      apply (Hbelow current r); simpl; auto.
    + apply Hpushed in Hq0 as (d & Hd & ->). apply Hadded in Hr0 as (n & Hn & ->).
      apply prefix_same_length in Hp; [|now rewrite !length_join].
      apply join_inj in Hp as ->. exact (entered_not_stylesheet _ _ Hnames Hd Hn).
    + apply (Hbelow q r); simpl; auto.
    + apply Hadded in Hr0 as (n & _ & ->).
      apply prefix_of_join in Hp as [Hp | ->].
      * now apply (Hold _ Hq0) in Hp.
      * apply (proj2 (Hold _ Hq0)). now exists [n].
Qed.

Lemma collect_loop_NoDup (fuel : nat) (fs : node) (queue results found : list path) :
  scan_invariant queue results ->
  collect_loop fuel fs queue results = Some (Ok found) ->
  NoDup found.
Proof.
  revert queue results; induction fuel as [|fuel IH]; intros queue results Hinv;
    destruct queue as [|current queue]; simpl; try discriminate;
    try (intros H; injection H as <-; exact (proj1 Hinv)).
  unfold readdirSync.
  destruct (lookup fs current) as [[content|entries]|] eqn:E; try discriminate.
  apply IH. apply scan_invariant_step; [|exact Hinv].
  rewrite map_map. cbn [Fs.name dirent_of]. apply in_bindings_names.
Qed.

(** X4.  [collectCssFiles] never returns the same path twice. *)
Theorem collectCssFiles_NoDup (fs : node) (startDir : path) (results : list path) :
  collectCssFiles fs startDir = Ok results -> NoDup results.
Proof.
  intros H. pose proof (collectCssFiles_runs fs startDir) as Hrun. rewrite H in Hrun.
  apply (collect_loop_NoDup _ _ _ _ _ (conj (NoDup_nil _)
           (conj (NoDup_cons _ (fun Hin : In startDir [] => Hin) (NoDup_nil _))
              (conj (fun q1 q2 H1 H2 _ =>
                       match H1, H2 with
                       | or_introl e1, or_introl e2 => eq_trans (eq_sym e1) e2
                       | or_intror f, _ => False_ind _ f
                       | _, or_intror f => False_ind _ f
                       end)
                    (fun q r _ (Hr : In r []) _ => Hr)))) Hrun).
Qed.

Lemma collectCssFiles_NoDup_witness :
  NoDup [["counter"; "index.css"]; ["counter"; "theme"; "dark.SCSS"]].
Proof.
  apply (collectCssFiles_NoDup styled_widget ["counter"]). reflexivity.
Defined.

(** The loop lists the directories of its queue one after the other, each
    in the order of the scan. *)
Lemma collect_loop_order (fuel : nat) (fs : node) (queue results found : list path) :
  collect_loop fuel fs queue results = Some (Ok found) ->
  exists below,
    Forall2 (scan_order fs) queue below /\ found = results ++ concat below.
Proof.
  revert queue results; induction fuel as [|fuel IH]; intros [|current queue] results;
    cbn [collect_loop].
  - intros H; injection H as <-. exists []. split; [constructor | now rewrite app_nil_r].
  - discriminate.
  - intros H; injection H as <-. exists []. split; [constructor | now rewrite app_nil_r].
  - destruct (readdirSync fs current) as [dirEntries|e] eqn:Er; [|discriminate].
    rewrite scan_entries_closed. cbn [fst snd]. intros H.
    apply IH in H as (below & Hall & ->).
    apply Forall2_app_inv_l in Hall as (inner & rest & Hinner & Hrest & ->).
    exists ((map (join current) (stylesheet_names dirEntries) ++ concat inner) :: rest).
    split.
    + constructor; [|exact Hrest].
      apply (scan_directory fs current dirEntries inner Er).
      now rewrite map_rev.
    + cbn [concat]. now rewrite concat_app, <- !app_assoc.
Qed.

(** X13.  [collectCssFiles] lists depth first: the stylesheets of the start
    directory in the order of its listing, then those of the directories it
    enters, the last directory of the listing first, each listed in the
    same way. *)
Theorem collectCssFiles_depth_first (fs : node) (startDir : path) (results : list path) :
  collectCssFiles fs startDir = Ok results -> scan_order fs startDir results.
Proof.
  intros H. pose proof (collectCssFiles_runs fs startDir) as Hrun. rewrite H in Hrun.
  apply collect_loop_order in Hrun as (below & Hall & ->).
  inversion Hall as [|dir found rest others Hscan Hrest]; subst.
  inversion Hrest; subst. cbn [concat app]. now rewrite app_nil_r.
Qed.

Lemma collectCssFiles_depth_first_witness :
  scan_order nested_styles ["gallery"]
    [["gallery"; "base.css"]; ["gallery"; "zoom.css"];
     ["gallery"; "grid"; "grid.scss"];
     ["gallery"; "cards"; "card.css"]; ["gallery"; "cards"; "hover"; "hover.css"]].
Proof.
  apply (collectCssFiles_depth_first nested_styles ["gallery"]). vm_compute. reflexivity.
Defined.

(** X3.  [collectCssFiles] returns a list on every directory, whatever the
    tree below it, and throws on anything else: [ENOTDIR] when the start
    path is a file or runs into one, and [ENOENT] when a name on it is
    missing. *)
Theorem collectCssFiles_outcome (fs : node) (startDir : path) :
  match lookup fs startDir with
  | Some (Dir _) => exists results, collectCssFiles fs startDir = Ok results
  | Some (File _) => collectCssFiles fs startDir = Throw (SystemError "ENOTDIR" startDir)
  | None =>
      (runs_into_file fs startDir ->
       collectCssFiles fs startDir = Throw (SystemError "ENOTDIR" startDir))
      /\ (~ runs_into_file fs startDir ->
          collectCssFiles fs startDir = Throw (SystemError "ENOENT" startDir))
  end.
Proof.
  destruct (lookup fs startDir) as [[content|entries]|] eqn:E.
  - unfold collectCssFiles, weight. rewrite E. simpl. unfold readdirSync. now rewrite E.
  - now apply (collectCssFiles_returns fs startDir entries).
  - assert (H : collectCssFiles fs startDir = Throw (missing fs startDir)).
    { unfold collectCssFiles, weight. rewrite E. simpl. unfold readdirSync. now rewrite E. }
    rewrite H. unfold missing. split; intros Hr.
    + apply blocked_spec in Hr. now rewrite Hr.
    + destruct (blocked fs startDir) eqn:B; [|reflexivity].
      exfalso. now apply Hr, blocked_spec.
Qed.

End CssScanMore.

(* ===================================================================== *)
(** ** CssSelector and RootIdDetector: the whole selection, the mount id *)
(* ===================================================================== *)

Module SelectionMore.
Import JsString Regex Path Fs Spec SpecMore StringFacts FsFacts ListFacts CssScan
  CssSelectorMore CssScanMore Pipeline.

(** X5.  [selectCss] returns a list whenever the directory of the entry is
    a directory, and the list holds exactly the existing global stylesheets
    and the stylesheets found by the scan of the entry's directory that the
    entry source does not import by a literal import of their normalized
    relative form. *)
Theorem selectCss_exact (WEB_ROOT : path) (fs : node) (target : EntryTarget) :
  (forall entries,
      lookup fs (dirname (entryFile target)) = Some (Dir entries) ->
      exists selected, selectCss WEB_ROOT fs target = Ok selected)
  /\ (forall selected,
         selectCss WEB_ROOT fs target = Ok selected ->
         forall cssPath,
           In cssPath selected <->
           (In cssPath (existing_globals WEB_ROOT fs)
            \/ scanned_stylesheet fs (dirname (entryFile target)) cssPath)
           /\ ~ imports_literally (entrySource target)
                  (normalizedRelative (dirname (entryFile target)) cssPath)).
Proof.
  unfold selectCss.
  change (filter (existsSync fs) (map (fun candidate => SRC_ROOT WEB_ROOT ++ candidate)
                                      GLOBAL_CSS_CANDIDATES))
    with (existing_globals WEB_ROOT fs).
  split.
  - intros entries E.
    destruct (collectCssFiles_returns fs _ entries E) as (found & ->). eauto.
  - intros selected.
    destruct (collectCssFiles fs (dirname (entryFile target))) as [perEntryCss|e] eqn:E;
      [|discriminate].
    intros H; injection H as <-. intros cssPath.
    destruct (filterCssAlreadyImported_characterized
                (unique (existing_globals WEB_ROOT fs ++ perEntryCss))
                (entryFile target) (entrySource target) cssPath) as [H1 H2].
    pose proof (collectCssFiles_exact _ _ _ E cssPath) as Hscan.
    unfold unique in *. split.
    + intros Hin. apply H1 in Hin as [Hin Himp]. split; [|exact Himp].
      apply CssSelector.in_unique_from in Hin as [Hin _].
      apply in_app_or in Hin as [Hin | Hin]; [now left | right; now apply Hscan].
    + intros [Hin Himp]. apply H2. split; [|exact Himp].
      apply CssSelector.in_unique_from. split; [|intros []].
      apply in_or_app. destruct Hin as [Hin | Hin]; [now left | right; now apply Hscan].
Qed.

(** X6.  [detectRootId] never returns the empty string, and what it returns
    is either the fallback name followed by [-root] or a text without any
    quote character. *)
Theorem detectRootId_usable (entrySource fallbackName : string) :
  detectRootId entrySource fallbackName <> EmptyString
  /\ (detectRootId entrySource fallbackName = (fallbackName ++ "-root")%string
      \/ all_chars not_quote (detectRootId entrySource fallbackName) = true).
Proof.
  assert (Hfb : (fallbackName ++ "-root")%string <> EmptyString)
    by (destruct fallbackName; discriminate).
  unfold detectRootId.
  destruct (exec false ROOT_ID_REGEX entrySource) as [[id|]|] eqn:E; auto.
  destruct (String.eqb_spec id ""); auto.
  split; [assumption|]. right.
  destruct (exec_some _ _ _ _ E) as (k & _ & Hm & _).
  apply root_match_inv in Hm as (id' & Heq & Hcall). injection Heq as <-.
  now destruct Hcall as (_ & _ & _ & _ & _ & _ & _ & _ & _ & _ & _ & Hid & _).
Qed.

End SelectionMore.

(* ===================================================================== *)
(** ** The file system away from a path that is changed *)
(* ===================================================================== *)

Module FsFactsMore.
Import JsString Path Fs Spec SpecMore FsFacts.

Lemma assoc_unbind_other (name other : string) (l : list (string * node)) :
  other <> name -> assoc other (unbind name l) = assoc other l.
Proof.
  intros Hne. unfold unbind. induction l as [|[n c] l IH]; simpl; [reflexivity|].
  destruct (String.eqb_spec n name) as [->|Hn]; simpl.
  - destruct (String.eqb_spec name other); [congruence | exact IH].
  - destruct (String.eqb n other); [reflexivity | exact IH].
Qed.

Lemma assoc_snoc_other (name other : string) (c : node) (l : list (string * node)) :
  other <> name -> assoc other (l ++ [(name, c)]) = assoc other l.
Proof.
  intros Hne. rewrite assoc_app. simpl.
  destruct (String.eqb_spec name other); [congruence|].
  now destruct (assoc other l).
Qed.

Lemma diverges_nonempty (p q : path) : diverges p q = true -> p <> [] /\ q <> [].
Proof. destruct p, q; simpl; try discriminate. split; discriminate. Qed.

Lemma diverges_app (p q r : path) : diverges p q = true -> diverges p (q ++ r) = true.
Proof.
  revert q; induction p as [|a p IH]; intros [|b q]; simpl; try discriminate.
  destruct (String.eqb a b); [apply IH | reflexivity].
Qed.

Lemma lookup_empty_dir (p : path) : p <> [] -> lookup (Dir []) p = None.
Proof. destruct p; [congruence | reflexivity]. Qed.

(** Removing [q] changes nothing at a path that parts ways with [q]. *)
Lemma lookup_rmSync_diverges (fs : node) (p q full : path) (removed : node) :
  rmSync fs q full = Ok removed -> diverges p q = true -> lookup removed p = lookup fs p.
Proof.
  revert fs removed q; induction p as [|a p IH]; intros fs removed [|b q];
    try (intros _; simpl; discriminate).
  destruct q as [|b' q].
  - cbn [diverges rmSync]. destruct fs as [content|entries]; [discriminate|].
    intros H; injection H as <-.
    destruct (String.eqb_spec a b) as [<-|Hab]; intros Hd.
    + now apply diverges_nonempty in Hd.
    + cbn [lookup]. now rewrite assoc_unbind_other.
  - rewrite rmSync_cons. cbn [diverges].
    destruct fs as [content|entries]; [discriminate|].
    destruct (assoc b entries) as [c|] eqn:Eb; [|intros H; now injection H as <-].
    destruct (rmSync c (b' :: q) full) as [c'|e] eqn:Ec; [|discriminate].
    intros H; injection H as <-. cbn [lookup].
    destruct (String.eqb_spec a b) as [->|Hab]; intros Hd.
    + rewrite (assoc_rebind_same _ _ _ _ Eb), Eb. now apply (IH _ _ _ Ec).
    + now rewrite assoc_rebind_other.
Qed.

(** Making the directory [q] changes nothing at a path that parts ways
    with [q]. *)
Lemma lookup_mkdirSync_diverges (fs : node) (p q full : path) (fs' : node) :
  mkdirSync fs q full = Ok fs' -> diverges p q = true -> lookup fs' p = lookup fs p.
Proof.
  revert fs fs' q; induction p as [|a p IH]; intros fs fs' [|b q];
    try (intros _; simpl; discriminate).
  cbn [mkdirSync diverges]. destruct fs as [content|entries]; [discriminate|].
  destruct (assoc b entries) as [c|] eqn:Eb.
  - destruct (mkdirSync c q full) as [c'|e] eqn:Em; [|discriminate].
    intros H; injection H as <-. cbn [lookup].
    destruct (String.eqb_spec a b) as [->|Hab]; intros Hd.
    + rewrite (assoc_rebind_same _ _ _ _ Eb), Eb. now apply (IH _ _ _ Em).
    + now rewrite assoc_rebind_other.
  - destruct (mkdirSync (Dir []) q full) as [c'|e] eqn:Em; [|discriminate].
    intros H; injection H as <-. cbn [lookup].
    destruct (String.eqb_spec a b) as [->|Hab]; intros Hd.
    + rewrite assoc_app, Eb. simpl. rewrite String.eqb_refl.
      rewrite (IH _ _ _ Em Hd). apply lookup_empty_dir.
      now apply diverges_nonempty in Hd.
    + now rewrite assoc_snoc_other.
Qed.

(** Writing the file [q] changes nothing at a path that parts ways with
    [q]. *)
Lemma lookup_writeFileSync_diverges (fs : node) (p q : path) (content : string)
  (full : path) (fs' : node) :
  writeFileSync fs q content full = Ok fs' -> diverges p q = true ->
  lookup fs' p = lookup fs p.
Proof.
  revert fs fs' q; induction p as [|a p IH]; intros fs fs' [|b q];
    try (intros _; simpl; discriminate).
  destruct q as [|b' q].
  - cbn [writeFileSync diverges]. destruct fs as [old|entries]; [discriminate|].
    destruct (String.eqb_spec a b) as [->|Hab];
      [intros _ Hd; now apply diverges_nonempty in Hd|].
    destruct (assoc b entries) as [[old|sub]|] eqn:Eb; try discriminate;
      intros H _; injection H as <-; cbn [lookup].
    + now rewrite assoc_rebind_other.
    + now rewrite assoc_snoc_other.
  - rewrite writeFileSync_cons. destruct fs as [old|entries]; [discriminate|].
    destruct (assoc b entries) as [c|] eqn:Eb; [|discriminate].
    destruct (writeFileSync c (b' :: q) content full) as [c'|e] eqn:Ew; [|discriminate].
    intros H; injection H as <-. cbn [lookup diverges].
    destruct (String.eqb_spec a b) as [->|Hab]; intros Hd.
    + rewrite (assoc_rebind_same _ _ _ _ Eb), Eb. now apply (IH _ _ _ Ew).
    + now rewrite assoc_rebind_other.
Qed.

End FsFactsMore.

(* ===================================================================== *)
(** ** Orchestrator: discovery, and what a run leaves alone *)
(* ===================================================================== *)

Module OrchestratorMore.
Import JsString Path Fs Run Spec SpecMore FsFacts FsFactsMore ListFacts EntryResolution
  Orchestrator Pipeline.
Local Open Scope run_scope.
#[local] Set Warnings "-notation-for-abbreviation".

Section Script.

Variable WEB_ROOT : path.
Variable BUILD_MODE : string.
Variable Config : Type.
Variable loadConfigFromFile : node -> result (option Config).
Variable build : EntryConfig Config -> node -> result unit * node.
Variable JSON_stringify : Manifest -> string.

Local Notation SRC := (SRC_ROOT WEB_ROOT).
Local Notation OUT := (OUT_DIR WEB_ROOT).
Local Notation MANIFEST := (MANIFEST_PATH WEB_ROOT).
Local Notation loop := (build_loop WEB_ROOT BUILD_MODE Config build).
Local Notation the_run :=
  (run WEB_ROOT BUILD_MODE Config loadConfigFromFile build JSON_stringify).

Lemma resolveEntryFile_exists (fs : node) (entryDir file : path) :
  resolveEntryFile fs entryDir = Some file -> existsSync fs file = true.
Proof.
  intros H. apply first_existing_some in H as (before & c & after & _ & -> & H & _).
  exact H.
Qed.

(** The loop of discovery, in closed form. *)
Lemma discover_loop_exact (dirEntries : list Dirent) (entries : list EntryTarget)
  (w : world) (found : list EntryTarget) (w' : world) :
  discover_loop WEB_ROOT dirEntries entries w = (Ok found, w') ->
  exists added,
    found = entries ++ added
    /\ map name added = map Fs.name (widget_dirents WEB_ROOT (fs w) dirEntries)
    /\ Forall (target_of_directory WEB_ROOT (fs w)) added
    /\ fs w' = fs w
    /\ trace w'
       = trace w ++ map (fun dirent => ConsoleWarn (Skipping (Fs.name dirent)))
                      (skipped_dirents WEB_ROOT (fs w) dirEntries).
Proof.
  revert entries w; induction dirEntries as [|d rest IH]; intros entries w;
    cbn [discover_loop].
  - steps. intros H; injection H as <- <-. exists []. simpl.
    rewrite !app_nil_r. repeat split; constructor.
  - unfold widget_dirents, skipped_dirents, considered, has_entry_file in *.
    cbn [filter].
    destruct (isDirectory d); cbn [negb andb]; [|apply IH].
    destruct (startsWith (Fs.name d) "."); cbn [negb andb]; [apply IH|].
    steps. destruct (resolveEntryFile (fs w) (join SRC (Fs.name d))) as [file|] eqn:Er;
      cbn [negb].
    + destruct (readFileSync (fs w) file) as [src|e] eqn:Ef; [|discriminate].
      intros H. apply IH in H as (added & -> & Hn & Ht & Hfs & Htr).
      eexists (_ :: added). rewrite <- app_assoc. split; [reflexivity|].
      cbn [map name]. rewrite Hn. repeat split; auto.
      constructor; [|exact Ht]. repeat split; assumption.
    + intros H. apply IH in H as (added & -> & Hn & Ht & Hfs & Htr).
      cbn [fs trace] in *. exists added. repeat split; auto.
      rewrite Htr, <- app_assoc. reflexivity.
Qed.

(** X7.  When [discoverEntries] returns, its targets are, in the order of
    the listing of the source root, the directories whose name does not
    begin with a dot and that hold an entry file; each target has the entry
    file that [resolveEntryFile] finds, the content of that file and the
    root id detected in it; the other such directories are each reported by
    one warning, in order, and the file system is as it was. *)
Theorem discoverEntries_exact (w : world) (targets : list EntryTarget) (w' : world) :
  discoverEntries WEB_ROOT w = (Ok targets, w') ->
  exists dirEntries,
    readdirSync (fs w) SRC = Ok dirEntries
    /\ map name targets = map Fs.name (widget_dirents WEB_ROOT (fs w) dirEntries)
    /\ Forall (target_of_directory WEB_ROOT (fs w)) targets
    /\ fs w' = fs w
    /\ trace w'
       = trace w ++ map (fun dirent => ConsoleWarn (Skipping (Fs.name dirent)))
                      (skipped_dirents WEB_ROOT (fs w) dirEntries).
Proof.
  unfold discoverEntries. steps.
  destruct (readdirSync (fs w) SRC) as [dirEntries|e]; [|discriminate].
  intros H. apply discover_loop_exact in H as (added & -> & H).
  exists dirEntries. split; [reflexivity | exact H].
Qed.

(** X14.  The stylesheets of every target that discovery returns can be
    selected: the entry file of the target lies directly in the directory of
    its name under the source root, and on the file system of discovery
    [selectCss] returns a list for it. *)
Theorem discovered_targets_have_styles (w : world) (targets : list EntryTarget)
  (w' : world) :
  discoverEntries WEB_ROOT w = (Ok targets, w') ->
  forall target,
    In target targets ->
    dirname (entryFile target) = join SRC (name target)
    /\ exists selected, selectCss WEB_ROOT (fs w) target = Ok selected.
Proof.
  unfold discoverEntries. steps.
  destruct (readdirSync (fs w) SRC) as [dirEntries|e]; [|discriminate].
  intros H target Hin.
  apply discover_loop_exact in H as (added & -> & _ & Hall & _).
  rewrite Forall_forall in Hall. destruct (Hall _ Hin) as (Hr & _).
  pose proof (resolveEntryFile_exists _ _ _ Hr) as Hex.
  apply first_existing_some in Hr as (before & c & after & _ & Hfile & _).
  assert (Hdir : dirname (entryFile target) = join SRC (name target))
    by (rewrite Hfile; apply removelast_last).
  split; [exact Hdir|].
  unfold existsSync in Hex. rewrite Hfile, lookup_join in Hex.
  unfold selectCss. rewrite Hdir.
  destruct (lookup (fs w) (join SRC (name target))) as [[content|entries]|] eqn:El;
    try discriminate.
  destruct (CssScan.collectCssFiles_returns _ _ _ El) as (found & ->). eauto.
Qed.

(** The loop of discovery throws only at an entry file that is a
    directory. *)
Lemma discover_loop_throws (dirEntries : list Dirent) (entries : list EntryTarget)
  (w : world) (e : exn) (w' : world) :
  discover_loop WEB_ROOT dirEntries entries w = (Throw e, w') ->
  exists dirName file children,
    resolveEntryFile (fs w) (join SRC dirName) = Some file
    /\ lookup (fs w) file = Some (Dir children)
    /\ e = SystemError "EISDIR" file.
Proof.
  revert entries w; induction dirEntries as [|d rest IH]; intros entries w;
    cbn [discover_loop].
  - steps. discriminate.
  - destruct (negb (isDirectory d)); [apply IH|].
    destruct (startsWith (Fs.name d) "."); [apply IH|].
    steps. destruct (resolveEntryFile (fs w) (join SRC (Fs.name d))) as [file|] eqn:Er.
    + pose proof (resolveEntryFile_exists _ _ _ Er) as Hex.
      unfold readFileSync, existsSync in *.
      destruct (lookup (fs w) file) as [[content|children]|] eqn:El;
        try discriminate Hex.
      * apply IH.
      * intros H; injection H as <- <-.
        exists (Fs.name d), file, children. repeat split; assumption.
    + intros H. apply IH in H. exact H.
Qed.

Lemma discovery_throws (w : world) (e : exn) (wd : world) :
  discovery WEB_ROOT w = (Throw e, wd) -> discovery_failure WEB_ROOT (fs w) e.
Proof.
  unfold discovery, ensureDirectoryExists, discoverEntries. steps.
  destruct (existsSync (fs w) SRC) eqn:Ex.
  - destruct (readdirSync (fs w) SRC) as [dirEntries|e0] eqn:Er.
    + intros H. apply discover_loop_throws in H as (dirName & file & sub & Hr & Hl & ->).
      now apply entry_is_directory with dirName sub.
    + intros H; injection H as <- <-. unfold readdirSync, existsSync in *.
      destruct (lookup (fs w) SRC) as [[content|children]|] eqn:El; try discriminate.
      injection Er as <-. now apply source_root_is_file with content.
  - intros H; injection H as <- <-. now apply source_root_missing.
Qed.

(** X8.  Discovery fails in three ways only: the source root is missing,
    the source root is not a directory, or the entry file of a directory is
    itself a directory.  The run then ends with exit code 1, the error is
    reported after the warnings of discovery, and the file system is as it
    was. *)
Theorem discovery_fails_before_any_change (fs0 : node) (e : exn) (wd : world) :
  discovery WEB_ROOT (fresh fs0) = (Throw e, wd) ->
  discovery_failure WEB_ROOT fs0 e
  /\ exists warnings,
       the_run (fresh fs0)
       = (1, {| fs := fs0; trace := map ConsoleWarn warnings ++ [ConsoleError e] |}).
Proof.
  intros Hd. split.
  - exact (discovery_throws _ _ _ Hd).
  - pose proof (discovery_frame _ _ _ _ Hd) as [Hfs (warnings & Htr)].
    cbn [fresh fs trace app] in *. exists warnings.
    unfold run. rewrite main_eq. cbn [fresh fs]. rewrite Hd. cbn [finish].
    now rewrite Hfs, Htr.
Qed.

Local Notation config_of := (entryConfig WEB_ROOT BUILD_MODE Config).
Local Notation js_of := (widgetJsPath WEB_ROOT).
Local Notation css_of := (widgetCssPath WEB_ROOT).
Local Notation target_step := (build_target WEB_ROOT BUILD_MODE Config build).

(** The build loop changes nothing that the bundler keeps. *)
Lemma build_target_keeps (base : option Config) (public : option path)
  (manifest : Manifest) (target : EntryTarget) (w : world)
  (r : result Manifest) (w1 : world) (p : path) :
  bundler_keeps build OUT p ->
  target_step base public manifest target w = (r, w1) ->
  lookup (fs w1) p = lookup (fs w) p.
Proof.
  intros Hb. rewrite build_target_eq.
  destruct (selectCss WEB_ROOT (fs w) target) as [cssToInclude|e];
    [|intros H; now injection H as <- <-].
  cbv zeta.
  pose proof (Hb (config_of base public target cssToInclude) (fs w) eq_refl) as Hk.
  destruct (fst (build _ (fs w))) as [[]|e];
    [destruct (existsSync (snd (build _ (fs w))) (js_of target))|];
    intros H; injection H as <- <-; exact Hk.
Qed.

Lemma build_loop_keeps (base : option Config) (public : option path)
  (targets : list EntryTarget) (manifest : Manifest) (w : world)
  (r : result Manifest) (w1 : world) (p : path) :
  bundler_keeps build OUT p ->
  loop base public targets manifest w = (r, w1) ->
  lookup (fs w1) p = lookup (fs w) p.
Proof.
  intros Hb. revert manifest w; induction targets as [|t rest IH]; intros manifest w;
    cbn [build_loop].
  - steps. intros H; now injection H as <- <-.
  - unfold bind.
    destruct (target_step base public manifest t w) as [[m1|e] w2] eqn:E;
      apply (build_target_keeps _ _ _ _ _ _ _ _ Hb) in E.
    + intros H. apply IH in H. congruence.
    + intros H; injection H as <- <-. exact E.
Qed.

(** X9.  A run changes nothing outside the output directory by itself: at
    every path that parts ways with the path of the output directory (every
    path under the source root is one), the file system holds after the run
    what it held before, however the run ends, provided the bundler leaves
    that path alone. *)
Theorem run_changes_only_output (fs0 : node) (p : path) :
  diverges p OUT = true ->
  bundler_keeps build OUT p ->
  lookup (fs (snd (the_run (fresh fs0)))) p = lookup fs0 p.
Proof.
  intros Hd Hb. unfold run. rewrite main_eq. cbn [fresh fs].
  destruct (discovery WEB_ROOT (fresh fs0)) as [[targets|e] wd] eqn:Ed;
    pose proof (discovery_frame _ _ _ _ Ed) as [Hfs _]; cbn [fresh fs] in Hfs.
  2: { cbn [finish snd fs]. now rewrite Hfs. }
  destruct targets as [|t rest].
  { unfold emit. cbn [finish snd fs]. now rewrite Hfs. }
  unfold announce_and_prepare, bind, emit. rewrite prepareOutput_eq. cbn [fs trace].
  rewrite Hfs.
  destruct (rmSync fs0 OUT OUT) as [removed|e] eqn:Er; [|reflexivity].
  destruct (mkdirSync removed OUT OUT) as [clean|e] eqn:Em.
  2: { cbn [finish snd fs]. now apply (lookup_rmSync_diverges _ _ _ _ _ Er). }
  assert (Hclean : lookup clean p = lookup fs0 p).
  { rewrite (lookup_mkdirSync_diverges _ _ _ _ _ Em Hd).
    now apply (lookup_rmSync_diverges _ _ _ _ _ Er). }
  unfold build_all. steps.
  destruct (loadConfigFromFile clean) as [base|e]; [|exact Hclean].
  match goal with
  | |- context [build_loop _ _ _ _ ?b ?pub ?ts ?m ?w] =>
      destruct (build_loop WEB_ROOT BUILD_MODE Config build b pub ts m w)
        as [[manifest|e] w1] eqn:El
  end;
    pose proof (build_loop_keeps _ _ _ _ _ _ _ _ Hb El) as Hl; cbn [fs] in Hl.
  2: { cbn [finish snd fs]. congruence. }
  destruct (writeFileSync (fs w1) MANIFEST (JSON_stringify manifest) MANIFEST)
    as [fs'|e] eqn:Ew; cbn [finish snd fs]; [|congruence].
  rewrite (lookup_writeFileSync_diverges _ _ _ _ _ _ Ew); [congruence|].
  now apply diverges_app.
Qed.

(** Write a trace that ends with known events by what it adds. *)
Ltac tally :=
  repeat (rewrite writes_of_snoc || rewrite builds_of_snoc || rewrite removals_of_snoc);
  cbn [writes_of builds_of removals_of flat_map app];
  repeat rewrite app_nil_r.

Lemma quiet_warnings (warnings : list message) :
  builds_of (map ConsoleWarn warnings) = []
  /\ writes_of (map ConsoleWarn warnings) = [].
Proof. induction warnings; simpl; auto. Qed.

(** The bundler is invoked for the targets in order, up to the first turn
    of the loop that throws. *)
Lemma build_loop_prefix (base : option Config) (public : option path)
  (targets : list EntryTarget) (manifest : Manifest) (w : world)
  (r : result Manifest) (w1 : world) :
  loop base public targets manifest w = (r, w1) ->
  exists k,
    builds_of (trace w1) = builds_of (trace w) ++ firstn k (map name targets)
    /\ (forall m', r = Ok m' -> k = List.length targets).
Proof.
  revert manifest w; induction targets as [|t rest IH]; intros manifest w;
    cbn [build_loop].
  - steps. intros H; injection H as <- <-. exists 0. simpl. rewrite app_nil_r. auto.
  - unfold bind. rewrite build_target_eq.
    destruct (selectCss WEB_ROOT (fs w) t) as [cssToInclude|e].
    + cbv zeta.
      destruct (fst (build _ (fs w))) as [[]|e];
        [destruct (existsSync (snd (build _ (fs w))) (js_of t))|].
      * intros H. apply IH in H as (k & Hk & Hall). exists (S k).
        cbn [trace] in Hk. rewrite Hk. tally. cbn [map firstn].
        rewrite <- app_assoc. split; [reflexivity|].
        intros m' Hm. cbn [List.length]. f_equal. now apply (Hall m').
      * intros H; injection H as <- <-. exists 1. cbn [trace]. tally.
        cbn [map firstn]. split; [now destruct (map name rest) | discriminate].
      * intros H; injection H as <- <-. exists 1. cbn [trace]. tally.
        cbn [map firstn]. split; [now destruct (map name rest) | discriminate].
    + intros H; injection H as <- <-. exists 0. simpl. rewrite app_nil_r.
      split; [reflexivity | discriminate].
Qed.

(** X10.  However a run ends, the bundler has been invoked for the first
    targets of discovery, in their order, each once, and for no other
    widget; a run that ends with exit code 0 has invoked it for every
    target, and a run that ends with another exit code has written no
    file. *)
Theorem bundler_invoked_for_first_targets (fs0 : node) (targets : list EntryTarget)
  (wd : world) :
  discovery WEB_ROOT (fresh fs0) = (Ok targets, wd) ->
  exists k,
    builds_of (trace (snd (the_run (fresh fs0)))) = firstn k (map name targets)
    /\ (fst (the_run (fresh fs0)) = 0 -> k = List.length targets)
    /\ (fst (the_run (fresh fs0)) <> 0 ->
        writes_of (trace (snd (the_run (fresh fs0)))) = []).
Proof.
  intros Hd. pose proof (discovery_frame _ _ _ _ Hd) as [Hfs (warnings & Htr)].
  cbn [fresh fs trace app] in Hfs, Htr.
  destruct (quiet_warnings warnings) as [Hb0 Hw0].
  destruct targets as [|t rest].
  { exists 0. unfold run. rewrite main_eq. cbn [fresh fs]. rewrite Hd.
    unfold emit. cbn [finish fst snd trace]. rewrite Htr. tally.
    rewrite Hb0. repeat split. intros H; now contradiction H. }
  destruct (announce_and_prepare WEB_ROOT (t :: rest) wd) as [[[]|e] ws] eqn:Ep.
  2: { exists 0. unfold run. rewrite main_eq. cbn [fresh fs]. rewrite Hd, Ep.
       cbn [finish fst snd trace].
       unfold announce_and_prepare, bind, emit in Ep. rewrite prepareOutput_eq in Ep.
       cbn [fs trace] in Ep.
       destruct (rmSync (fs wd) OUT OUT) as [removed|e0];
         [destruct (mkdirSync removed OUT OUT); [discriminate|]|];
         injection Ep as <- <-; cbn [trace]; rewrite Htr; tally;
         rewrite Hb0, Hw0; repeat split; discriminate. }
  destruct (loadConfigFromFile (fs ws)) as [base|e] eqn:Ec.
  2: { exists 0. unfold run. rewrite main_eq. cbn [fresh fs]. rewrite Hd, Ep.
       unfold build_all. steps. rewrite Ec. cbn [finish fst snd trace].
       unfold announce_and_prepare, bind, emit in Ep. rewrite prepareOutput_eq in Ep.
       cbn [fs trace] in Ep.
       destruct (rmSync (fs wd) OUT OUT) as [removed|e0]; [|discriminate].
       destruct (mkdirSync removed OUT OUT); [|discriminate].
       injection Ep as <-. cbn [trace]. rewrite Htr. tally.
       rewrite Hb0, Hw0. repeat split. discriminate. }
  assert (Hphase : build_phase WEB_ROOT Config loadConfigFromFile fs0 (t :: rest) base ws).
  { exists wd. repeat split; [exact Hd | discriminate | exact Ep | exact Ec]. }
  pose proof (phase_start _ _ _ _ _ _ _ Hphase) as (Hb & Hw & _).
  rewrite (run_of_phase _ _ _ _ _ _ _ _ _ _ Hphase).
  destruct (loop base (PUBLIC_DIR WEB_ROOT fs0) (t :: rest) [] ws) as [[manifest|e] w1]
    eqn:El;
    pose proof (build_loop_prefix _ _ _ _ _ _ _ El) as (k & Hk & Hall);
    pose proof (build_loop_frame _ _ _ _ _ _ _ _ _ _ _ El) as (Hw1 & _);
    rewrite Hb in Hk; rewrite Hw in Hw1; cbn [app] in Hk; exists k.
  - specialize (Hall manifest eq_refl).
    destruct (writeFileSync (fs w1) MANIFEST (JSON_stringify manifest) MANIFEST);
      cbn [fst snd trace].
    + unfold builds_of at 1. rewrite flat_map_app. fold (builds_of (trace w1)).
      rewrite Hk. cbn [flat_map app]. rewrite app_nil_r.
      repeat split; [intros _; exact Hall|]. intros H; now contradiction H.
    + tally. rewrite Hk, Hw1. repeat split. intros _; exact Hall.
  - cbn [fst snd trace]. tally. rewrite Hk, Hw1. repeat split. discriminate.
Qed.

Lemma entry_of_assign_inv (m : Manifest) (key : string) (v : ManifestEntry)
  (k : string) (v' : ManifestEntry) :
  entry_of (assign m key v) k = Some v' ->
  (k = key /\ v' = v /\ key <> "__proto__") \/ entry_of m k = Some v'.
Proof.
  destruct (string_dec k key) as [->|Hne].
  - destruct (String.eqb_spec key "__proto__") as [Hp|Hp].
    + unfold assign. rewrite Hp at 1. rewrite String.eqb_refl. now right.
    + rewrite entry_of_assign by exact Hp. intros H; injection H as <-. now left.
  - rewrite entry_of_assign_other by exact Hne. now right.
Qed.

(** Every entry of the manifest of a loop was there before or was made for
    one of its targets. *)
Lemma build_loop_entries (base : option Config) (public : option path)
  (targets : list EntryTarget) (manifest : Manifest) (w : world)
  (m' : Manifest) (w1 : world) :
  loop base public targets manifest w = (Ok m', w1) ->
  forall key entry,
    entry_of m' key = Some entry ->
    entry_of manifest key = Some entry
    \/ (key <> "__proto__"
        /\ exists target cssExists,
             In target targets /\ name target = key
             /\ entry = manifest_entry WEB_ROOT target cssExists).
Proof.
  revert manifest w; induction targets as [|t rest IH]; intros manifest w;
    cbn [build_loop].
  - steps. intros H; injection H as <- <-. auto.
  - unfold bind. rewrite build_target_eq.
    destruct (selectCss WEB_ROOT (fs w) t) as [cssToInclude|e]; [|discriminate].
    cbv zeta.
    destruct (fst (build _ (fs w))) as [[]|e]; [|discriminate].
    destruct (existsSync (snd (build _ (fs w))) (js_of t)); [|discriminate].
    intros H key entry He.
    destruct (IH _ _ H key entry He) as [Hm | (Hp & target & b & Hin & Hn & Hv)].
    + apply entry_of_assign_inv in Hm as [(-> & -> & Hp) | Hm]; [right | now left].
      split; [exact Hp|]. eexists t, _. split; [now left | split; reflexivity].
    + right. split; [exact Hp|]. exists target, b. split; [now right | auto].
Qed.

(** X11.  In the manifest of a build loop that ends well, every entry
    belongs to a target of that name; its [js] field is [widgets/] followed
    by the name and [.js], its [css] field is null or [widgets/] followed by
    the name and [.css], whatever the directory of the project is, and its
    root id is the one of the target.  No entry is named [__proto__]. *)
Theorem manifest_entries_relative (base : option Config) (public : option path)
  (targets : list EntryTarget) (w : world) (manifest : Manifest) (w1 : world) :
  loop base public targets [] w = (Ok manifest, w1) ->
  forall key entry,
    entry_of manifest key = Some entry ->
    key <> "__proto__"
    /\ js entry = ("widgets/" ++ key ++ ".js")%string
    /\ (css entry = None \/ css entry = Some ("widgets/" ++ key ++ ".css")%string)
    /\ exists target,
         In target targets /\ name target = key /\ rootId_ entry = rootId target.
Proof.
  intros Hloop key entry He.
  destruct (build_loop_entries _ _ _ _ _ _ _ Hloop key entry He)
    as [Hm | (Hp & target & b & Hin & <- & ->)]; [discriminate|].
  split; [exact Hp|]. unfold manifest_entry. cbn [js css rootId_].
  unfold widgetJsPath, widgetCssPath, OUT_DIR, join.
  rewrite <- !(app_assoc (WEB_ROOT ++ ["dist"])), !relative_below. split; [reflexivity|].
  split; [destruct b; auto | exists target; auto].
Qed.

Lemma list_ascii_app (a b : string) :
  list_ascii_of_string (a ++ b) = (list_ascii_of_string a ++ list_ascii_of_string b)%list.
Proof. induction a as [|c a IH]; simpl; [reflexivity | now rewrite IH]. Qed.

(** The text of a string from its end. *)
Lemma backwards_app (a b : string) :
  rev (list_ascii_of_string (a ++ b))
  = (rev (list_ascii_of_string b) ++ rev (list_ascii_of_string a))%list.
Proof. now rewrite list_ascii_app, rev_app_distr. Qed.

Lemma append_inj_l (a b suffix : string) :
  (a ++ suffix)%string = (b ++ suffix)%string -> a = b.
Proof.
  intros H. apply (f_equal (fun s => rev (list_ascii_of_string s))) in H.
  rewrite !backwards_app in H. apply app_inv_head in H.
  apply (f_equal (@rev ascii)) in H. rewrite !rev_involutive in H.
  apply (f_equal string_of_list_ascii) in H.
  now rewrite !string_of_list_ascii_of_string in H.
Qed.

Lemma join_inj_name (dir : path) (a b : string) : join dir a = join dir b -> a = b.
Proof. unfold join. intros H. apply app_inv_head in H. now injection H. Qed.

(** X12.  The files that the script looks for and the file that it writes
    never coincide: the JavaScript output of a widget is not the stylesheet
    output of any widget, neither of them is the manifest, and the outputs
    of widgets of different names are different files. *)
Theorem output_paths_apart (target other : EntryTarget) :
  js_of target <> css_of other
  /\ js_of target <> MANIFEST
  /\ css_of target <> MANIFEST
  /\ (name target <> name other ->
      js_of target <> js_of other /\ css_of target <> css_of other).
Proof.
  unfold widgetJsPath, widgetCssPath, MANIFEST_PATH.
  assert (Hend : forall (a b : string) x y,
             rev (list_ascii_of_string a) = x -> rev (list_ascii_of_string b) = y ->
             forall n m : string,
               (n ++ a)%string = (m ++ b)%string ->
               (x ++ rev (list_ascii_of_string n) = y ++ rev (list_ascii_of_string m))%list).
  { intros a b x y <- <- n m H. rewrite <- !backwards_app. now rewrite H. }
  split; [|split; [|split]].
  - intros H. apply join_inj_name in H.
    apply (Hend ".js" ".css" _ _ eq_refl eq_refl) in H. discriminate.
  - intros H. apply join_inj_name in H.
    apply (Hend ".js" "manifest.json" _ _ eq_refl eq_refl _ EmptyString) in H.
    discriminate.
  - intros H. apply join_inj_name in H.
    apply (Hend ".css" "manifest.json" _ _ eq_refl eq_refl _ EmptyString) in H.
    discriminate.
  - intros Hne. split; intros H; apply join_inj_name, append_inj_l in H; contradiction.
Qed.

End Script.

Lemma output_paths_apart_witness :
  widgetJsPath ["web"] counter_target <> widgetJsPath ["web"] clock_target
  /\ widgetCssPath ["web"] counter_target <> widgetCssPath ["web"] clock_target.
Proof.
  apply (output_paths_apart ["web"] counter_target clock_target). discriminate.
Defined.

Lemma emit_file_keeps (fs : node) (dir : path) (name content : string) (p : path) :
  diverges p dir = true -> lookup (emit_file fs dir name content) p = lookup fs p.
Proof.
  intros Hd. unfold emit_file. destruct (String.eqb name "manifest.json"); [reflexivity|].
  destruct (writeFileSync fs (join dir name) content (join dir name)) as [fs'|e] eqn:E;
    [|reflexivity].
  apply (lookup_writeFileSync_diverges _ _ _ _ _ _ E). now apply diverges_app.
Qed.

Lemma demo_build_keeps (out p : path) :
  diverges p out = true -> bundler_keeps demo_build out p.
Proof.
  intros Hd cfg fs <-. unfold demo_build.
  destruct (String.eqb _ "broken.js"); [reflexivity|].
  destruct (String.eqb _ "empty.js"); [reflexivity|].
  destruct (wrapCssPaths unit cfg); cbn [snd]; now rewrite !emit_file_keeps.
Qed.

Lemma run_changes_only_output_witness :
  lookup (fs (snd (demo_run project_two_widgets))) ["web"; "src"; "counter"; "index.tsx"]
  = Some (File widget_source).
Proof.
  apply (run_changes_only_output ["web"] "production" unit demo_load demo_build
           demo_stringify project_two_widgets ["web"; "src"; "counter"; "index.tsx"]).
  - reflexivity.
  - apply demo_build_keeps. reflexivity.
Defined.

Lemma bundler_invoked_for_first_targets_witness :
  exists k,
    builds_of (trace (snd (demo_run project_broken)))
    = firstn k ["counter"; "broken"; "clock"]
    /\ (fst (demo_run project_broken) = 0 -> k = 3)
    /\ (fst (demo_run project_broken) <> 0 ->
        writes_of (trace (snd (demo_run project_broken))) = []).
Proof.
  apply (bundler_invoked_for_first_targets ["web"] "production" unit demo_load demo_build
           demo_stringify project_broken [counter_target; broken_target; clock_target]
           (fresh project_broken)).
  vm_compute. reflexivity.
Defined.

Lemma manifest_entries_relative_witness :
  "clock" <> "__proto__"
  /\ "widgets/clock.js" = ("widgets/" ++ "clock" ++ ".js")%string
  /\ (@None string = None \/ None = Some ("widgets/" ++ "clock" ++ ".css")%string)
  /\ exists target,
       In target [counter_target; clock_target]
       /\ name target = "clock" /\ "clock-root" = rootId target.
Proof.
  apply (manifest_entries_relative ["web"] "production" unit demo_build None None
           [counter_target; clock_target]
           (start_of project_two_widgets ["counter"; "clock"])
           [("counter", {| js := "widgets/counter.js"; css := Some "widgets/counter.css";
                           rootId_ := "counter-root" |});
            ("clock", {| js := "widgets/clock.js"; css := None;
                         rootId_ := "clock-root" |})]
           (snd (build_loop ["web"] "production" unit demo_build None None
                   [counter_target; clock_target] []
                   (start_of project_two_widgets ["counter"; "clock"])))
           ltac:(vm_compute; reflexivity)
           "clock"
           {| js := "widgets/clock.js"; css := None; rootId_ := "clock-root" |}).
  reflexivity.
Defined.

Lemma discovered_targets_have_styles_witness :
  dirname (entryFile clock_target) = join ["web"; "src"] (name clock_target)
  /\ exists selected, selectCss ["web"] project_two_widgets clock_target = Ok selected.
Proof.
  apply (discovered_targets_have_styles ["web"] (fresh project_two_widgets)
           [counter_target; clock_target] (fresh project_two_widgets)).
  - vm_compute. reflexivity.
  - simpl. auto.
Defined.

Lemma discoverEntries_exact_witness :
  exists dirEntries,
    readdirSync project_mixed ["web"; "src"] = Ok dirEntries
    /\ map name [counter_target] = map Fs.name (widget_dirents ["web"] project_mixed dirEntries)
    /\ Forall (target_of_directory ["web"] project_mixed) [counter_target]
    /\ project_mixed = project_mixed
    /\ [ConsoleWarn (Skipping "shared")]
       = [] ++ map (fun dirent => ConsoleWarn (Skipping (Fs.name dirent)))
                   (skipped_dirents ["web"] project_mixed dirEntries).
Proof.
  apply (discoverEntries_exact ["web"] (fresh project_mixed) [counter_target]
           {| fs := project_mixed; trace := [ConsoleWarn (Skipping "shared")] |}).
  vm_compute. reflexivity.
Defined.

Lemma discovery_fails_before_any_change_witness :
  discovery_failure ["web"] project_entry_is_dir
    (SystemError "EISDIR" ["web"; "src"; "gallery"; "index.tsx"])
  /\ exists warnings,
       demo_run project_entry_is_dir
       = (1, {| fs := project_entry_is_dir;
                trace := map ConsoleWarn warnings
                         ++ [ConsoleError
                               (SystemError "EISDIR" ["web"; "src"; "gallery"; "index.tsx"])] |}).
Proof.
  apply (discovery_fails_before_any_change ["web"] "production" unit demo_load demo_build
           demo_stringify project_entry_is_dir _ (fresh project_entry_is_dir)).
  vm_compute. reflexivity.
Defined.

End OrchestratorMore.

(* ===================================================================== *)
(** ** The plugin that removes manual chunks *)
(* ===================================================================== *)

Module PluginsMore.
Import Plugins SpecPlugins.
#[local] Set Warnings "-notation-for-abbreviation".

Section OutputOptions.

Variable primitive : Type.
Variable truthy_primitive : primitive -> bool.

Local Notation value := (value primitive).
Local Notation truthy := (truthy primitive truthy_primitive).
Local Notation strip := (strip primitive truthy_primitive).
Local Notation map_strip := (map_strip primitive truthy_primitive).
Local Notation outputOptions := (outputOptions primitive truthy_primitive).
Local Notation has_manual_chunks := (has_manual_chunks primitive truthy_primitive).
Local Notation without_manual_chunks := (without_manual_chunks primitive truthy_primitive).
Local Notation locked := (locked primitive truthy_primitive).
Local Notation refused := (refused primitive truthy_primitive).
Local Notation dropped :=
  (filter (fun property : string * (bool * value) =>
             negb (String.eqb (fst property) "manualChunks"))).

Lemma own_dropped_same (properties : list (string * (bool * value))) :
  own primitive "manualChunks" (dropped properties) = None.
Proof.
  induction properties as [|[k v] rest IH]; [reflexivity|].
  cbn [filter fst]. destruct (String.eqb k "manualChunks") eqn:E; cbn [negb own].
  - exact IH.
  - now rewrite E.
Qed.

Lemma own_dropped_other (key : string) (properties : list (string * (bool * value))) :
  key <> "manualChunks" ->
  own primitive key (dropped properties) = own primitive key properties.
Proof.
  intros Hne. induction properties as [|[k v] rest IH]; [reflexivity|].
  cbn [filter fst own].
  destruct (String.eqb_spec k "manualChunks") as [Hk|Hk]; cbn [negb own].
  - destruct (String.eqb_spec k key); [congruence | exact IH].
  - destruct (String.eqb k key); [reflexivity | exact IH].
Qed.

(** Finish a conjunction of facts that hold by computation. *)
Ltac settle :=
  repeat split; eauto; first [discriminate | intros ?H; discriminate].

(** What the plugin does to one value. *)
Lemma strip_spec (opt : value) :
  match strip opt with
  | ThrowsTypeError => refused opt = true
  | Returns opt' =>
      refused opt = false
      /\ without_manual_chunks opt opt'
      /\ strip opt' = Returns opt'
  end.
Proof.
  unfold Plugins.strip, SpecPlugins.without_manual_chunks,
    SpecPlugins.has_manual_chunks, SpecPlugins.refused, SpecPlugins.locked.
  destruct opt as [| |p|id|properties|elements]; try reflexivity;
    try (cbn [manualChunks Plugins.truthy own_property]; settle).
  cbn [manualChunks own_property delete_manualChunks].
  destruct (own primitive "manualChunks" properties) as [[configurable chunks]|] eqn:E.
  - destruct (truthy chunks) eqn:T.
    + destruct configurable; cbn [negb andb]; [|reflexivity].
      cbn [own_property manualChunks]. rewrite own_dropped_same. cbn [Plugins.truthy].
      repeat split; eauto; try discriminate.
      intros key Hkey. now rewrite own_dropped_other.
    + rewrite andb_false_r. cbn [own_property manualChunks]. rewrite ?E, ?T. settle.
  - cbn [Plugins.truthy].
    repeat split; eauto; try (intros H; discriminate H);
      cbn [own_property manualChunks]; now rewrite E.
Qed.

Lemma map_strip_spec (elements : list value) :
  match map_strip elements with
  | ThrowsTypeError => Exists (fun v => refused v = true) elements
  | Returns outs =>
      Forall (fun v => refused v = false) elements
      /\ Forall2 without_manual_chunks elements outs
      /\ map_strip outs = Returns outs
  end.
Proof.
  induction elements as [|opt rest IH]; cbn [Plugins.map_strip].
  - repeat split; constructor.
  - pose proof (strip_spec opt) as Hs.
    destruct (strip opt) as [opt'|]; [|now left].
    destruct Hs as (Hr & Hk & Hi).
    destruct (map_strip rest) as [outs|]; [|now right].
    destruct IH as (Hall & Hkept & Hidem).
    cbn [Plugins.map_strip]. rewrite Hi, Hidem.
    repeat split; constructor; assumption.
Qed.

Lemma refused_somewhere (elements : list value) :
  Exists (fun v => refused v = true) elements ->
  Forall (fun v => refused v = false) elements -> False.
Proof.
  intros Hex Hall. apply Exists_exists in Hex as (v & Hin & Hv).
  rewrite Forall_forall in Hall. specialize (Hall v Hin). congruence.
Qed.

(** The hook on a value that is not an array is [strip], after the guard
    that lets [undefined], [null] and the falsy primitives through. *)
Lemma outputOptions_single (options : value) :
  (forall elements, options <> Array elements) ->
  outputOptions options =
  match options with
  | Undefined | Null => Returns options
  | _ => strip options
  end.
Proof.
  intros Hna. unfold Plugins.outputOptions, Plugins.strip.
  destruct options as [| |p|id|properties|elements]; cbn [Plugins.truthy manualChunks];
    try reflexivity.
  - now destruct (truthy_primitive p).
  - now contradiction (Hna elements).
Qed.

(** X15.  When the hook [outputOptions] of the plugin returns, what it
    returns configures no manual chunks: for an array of outputs it is an
    array of as many outputs, each the given one without manual chunks and
    otherwise the same; for any other value it is that value without manual
    chunks.  Given its own result, the hook returns it unchanged. *)
Theorem outputOptions_removes_manual_chunks (options out : value) :
  outputOptions options = Returns out ->
  match options with
  | Array elements =>
      exists outs, out = Array outs /\ Forall2 without_manual_chunks elements outs
  | _ => without_manual_chunks options out
  end
  /\ outputOptions out = Returns out.
Proof.
  assert (Hsingle : forall v : value,
             (forall elements, v <> Array elements) ->
             v <> Undefined -> v <> Null ->
             outputOptions v = Returns out ->
             without_manual_chunks v out /\ outputOptions out = Returns out).
  { intros v Hna Hu Hn Hout.
    assert (Hstrip : outputOptions v = strip v)
      by (rewrite (outputOptions_single v Hna); destruct v; congruence).
    rewrite Hstrip in Hout. pose proof (strip_spec v) as Hs. rewrite Hout in Hs.
    destruct Hs as (_ & Hk & Hi). split; [exact Hk|].
    destruct Hk as (_ & _ & Hobj & Hsame).
    destruct (has_manual_chunks v) eqn:Hh.
    - destruct (Hobj eq_refl) as (ps & ->).
      rewrite outputOptions_single by discriminate. exact Hi.
    - specialize (Hsame eq_refl). subst out. now rewrite Hstrip. }
  destruct options as [| |p|id|properties|elements].
  - intros H; injection H as <-. split; [|reflexivity]. settle.
  - intros H; injection H as <-. split; [|reflexivity]. settle.
  - apply Hsingle; discriminate.
  - apply Hsingle; discriminate.
  - apply Hsingle; discriminate.
  - unfold Plugins.outputOptions. pose proof (map_strip_spec elements) as Hm.
    destruct (map_strip elements) as [outs|]; [|discriminate].
    destruct Hm as (_ & Hkept & Hidem).
    intros H; injection H as <-. split; [eauto|]. now rewrite Hidem.
Qed.

(** X16.  The hook [outputOptions] throws exactly in these cases: it is
    given an array that holds [undefined], [null] or an output whose truthy
    [manualChunks] is not configurable, or it is given a value that is no
    array and whose truthy [manualChunks] is not configurable.  In
    particular it returns for [undefined] and for [null] themselves. *)
Theorem outputOptions_throws_exactly (options : value) :
  outputOptions options = ThrowsTypeError <->
  match options with
  | Array elements => Exists (fun v => refused v = true) elements
  | _ => locked options = true
  end.
Proof.
  destruct options as [| |p|id|properties|elements].
  1-5: unfold Plugins.outputOptions, SpecPlugins.locked;
    cbn [Plugins.truthy manualChunks delete_manualChunks].
  - split; discriminate.
  - split; discriminate.
  - destruct (truthy_primitive p); split; discriminate.
  - split; discriminate.
  - destruct (own primitive "manualChunks" properties) as [[configurable chunks]|].
    + destruct (truthy chunks), configurable; cbn [negb andb]; split;
        try discriminate; reflexivity.
    + cbn [Plugins.truthy]. split; discriminate.
  - unfold Plugins.outputOptions. pose proof (map_strip_spec elements) as Hm.
    destruct (map_strip elements) as [outs|].
    + split; [discriminate|]. intros Hex. destruct Hm as (Hall & _).
      now destruct (refused_somewhere elements Hex Hall).
    + split; [intros _; exact Hm | reflexivity].
Qed.

End OutputOptions.

Example outputOptions_frozen_output :
  outputOptions bool (fun b => b)
    (Object [("format", (false, Closure 1)); ("manualChunks", (false, Closure 2))])
  = ThrowsTypeError.
Proof. reflexivity. Qed.

Example outputOptions_frozen_without_chunks :
  outputOptions bool (fun b => b)
    (Object [("format", (false, Closure 1)); ("manualChunks", (false, Undefined))])
  = Returns (Object [("format", (false, Closure 1)); ("manualChunks", (false, Undefined))]).
Proof. reflexivity. Qed.

Example outputOptions_null_in_array :
  outputOptions bool (fun b => b) (Array [Object []; Null]) = ThrowsTypeError.
Proof. reflexivity. Qed.

Example outputOptions_null :
  outputOptions bool (fun b => b) Null = Returns Null.
Proof. reflexivity. Qed.

Lemma outputOptions_removes_manual_chunks_witness :
  match two_outputs with
  | Array elements =>
      exists outs,
        two_outputs_stripped = Array outs
        /\ Forall2 (without_manual_chunks bool (fun b => b)) elements outs
  | _ => without_manual_chunks bool (fun b => b) two_outputs two_outputs_stripped
  end
  /\ outputOptions bool (fun b => b) two_outputs_stripped = Returns two_outputs_stripped.
Proof.
  apply (outputOptions_removes_manual_chunks bool (fun b => b) two_outputs
           two_outputs_stripped).
  reflexivity.
Defined.

End PluginsMore.
